(** * peakfitter: parameter codec, fit drivers and moment estimator

    A shallow embedding of [peakfitter/peakfitter.py].  Python floats are kept
    abstract behind the class [Float]: every function below is written against
    that interface, the way the Python code is written against NumPy, and the
    theorems hold for every implementation of it.  The module [Binary64]
    instantiates the interface with IEEE binary64 numbers, on which the closed
    examples of the modules [Examples] and [Witnesses] are evaluated.

    Collaborators that are not part of [peakfitter.py] are parameters of the
    functions that call them: the solver [mpfit] (module [.mpfit]) and the
    two-dimensional moment estimator [moments] (module [.gaussfitter]).  The
    six lists [multipeakfit] normalizes are taken to be six different
    objects, and a driver's writes into a default argument ([fixed[0] = 1])
    are local to the call. *)

From Stdlib Require Import String DecimalString ZArith Bool Lia PeanoNat List.
From Stdlib Require Floats.
Import ListNotations.

Set Implicit Arguments.
Local Open Scope string_scope.
Local Open Scope list_scope.

(** ** Python exceptions *)

(** The exceptions the embedded code can raise.  A message that the source
    builds from run-time values is kept as the values it is built from. *)
Inductive pyerror (F : Type) : Type :=
| ResidualParameters (leftover inpars_old : list F) (circle rotate vheight : bool)
    (* ValueError("There are still input parameters:" + str(inpars) +
       " and you've input: " + str(inpars_old) +
       " circle=%d, rotate=%d, vheight=%d" % (circle, rotate, vheight)) *)
| SomethingIsNan                 (* ValueError("something is nan") *)
| NumpyValueError (what : string)  (* a ValueError raised inside NumPy *)
| IndexError (what : string)
| TypeError (what : string)
| NotImplementedError
| ZeroDivisionError
| MPFITError (errmsg : string)   (* Exception("MPFIT error: {0}".format(errmsg)) *)
| PlainException (msg : string). (* Exception(msg) *)

Arguments SomethingIsNan {F}.
Arguments NumpyValueError {F} what.
Arguments IndexError {F} what.
Arguments TypeError {F} what.
Arguments NotImplementedError {F}.
Arguments ZeroDivisionError {F}.
Arguments MPFITError {F} errmsg.
Arguments PlainException {F} msg.

(** A computation that returns a value or raises. *)
Definition result (F A : Type) : Type := (pyerror F + A)%type.

Definition ret {F A} (a : A) : result F A := inr a.
Definition raise {F A} (e : pyerror F) : result F A := inl e.
Definition bind {F A B} (m : result F A) (k : A -> result F B) : result F B :=
  match m with
  | inl e => inl e
  | inr a => k a
  end.

Notation "x <- m ;; k" := (bind m (fun x => k))
  (at level 61, m at next level, right associativity).
Notation "' pat <- m ;; k" := (bind m (fun x => match x with pat => k end))
  (at level 61, pat pattern, m at next level, right associativity).

(** A computation over the working copy [inpars] of a parameter vector: it
    may pop scalars off the front and may raise. *)
Definition decoder (F A : Type) : Type := list F -> result F (A * list F).

Definition dret {F A} (a : A) : decoder F A := fun s => inr (a, s).
Definition draise {F A} (e : pyerror F) : decoder F A := fun _ => inl e.
Definition dbind {F A B} (m : decoder F A) (k : A -> decoder F B) : decoder F B :=
  fun s => match m s with
           | inl e => inl e
           | inr (a, s') => k a s'
           end.

Notation "x <~ m ;; k" := (dbind m (fun x => k))
  (at level 61, m at next level, right associativity).
Notation "' pat <~ m ;; k" := (dbind m (fun x => match x with pat => k end))
  (at level 61, pat pattern, m at next level, right associativity).

(** [inpars.pop(0)] *)
Definition pop {F} : decoder F F :=
  fun s => match s with
           | [] => inl (IndexError "pop from empty list")
           | x :: s' => inr (x, s')
           end.

(** The working copy as it stands, for [len(inpars)] and [str(inpars)]. *)
Definition remaining {F} : decoder F (list F) := fun s => inr (s, s).

(** [seq[i]] for [0 <= i]. *)
Definition getitem {F A} (l : list A) (i : nat) : result F A :=
  match nth_error l i with
  | Some a => inr a
  | None => inl (IndexError "index out of range")
  end.

(** ** Floating-point interface *)

(** What the code asks of a Python float and of NumPy's scalar kernels. *)
Class Float (F : Type) : Type := {
  of_int : Z -> F;                 (* float(n) for an int n *)
  fadd : F -> F -> F;
  fsub : F -> F -> F;
  fmul : F -> F -> F;
  fdiv : F -> F -> F;              (* IEEE division: x/0 is inf or nan *)
  fmod : F -> F -> F;              (* the % of Python floats and of NumPy *)
  fabs : F -> F;
  fltb : F -> F -> bool;           (* a < b *)
  feqb : F -> F -> bool;           (* a == b *)
  isnan : F -> bool;               (* np.isnan *)
  fnan : F;                        (* np.nan *)
  to_int : F -> Z;                 (* the cast made when a finite float in
                                      the range of the integer type is stored
                                      into an integer array *)
  ma_div_masks : F -> F -> bool    (* whether numpy.ma's true_divide masks a
                                      cell with these operands (non-finite
                                      quotient or divisor in its domain) *)
}.

(** [numpy.pi], [numpy.cos], [numpy.sin]. *)
Class Trig (F : Type) : Type := {
  np_pi : F;
  np_cos : F -> F;
  np_sin : F -> F
}.

(** ** Parameter codec *)

Section Codec.
Context {F : Type} `{Float F} `{Trig F}.

(** The local variables a decoder leaves to the closure [rotpeak]. *)
Record peak_params : Type := {
  height : F;
  amplitude : F;
  center_x : F;
  center_y : F;
  width_x : F;
  width_y : F;
  rotate_on : bool;     (* [rotate] after the [circle] branch overrode it *)
  rota : option F;      (* radians; bound only when [rotate] *)
  rcen_x : F;
  rcen_y : F
}.

(** [pi/180. * float(rota)] *)
Definition radians (deg : F) : F := fmul (fdiv np_pi (of_int 180)) deg.

(** Lines 96-104 and 188-196: the width popping, shared by all decoders. *)
Definition pop_widths (circle rotate : bool) : decoder F (F * F * bool) :=
  if circle then
    width <~ pop ;;
    dret (width, width, false)
  else
    width_x <~ pop ;;
    width_y <~ pop ;;
    dret (width_x, width_y, rotate).

(** Lines 105-112 and 197-204: the rotation angle and the rotated center. *)
Definition pop_rotation (rotate : bool) (center_x center_y : F)
  : decoder F (option F * F * F) :=
  if rotate then
    rota <~ pop ;;
    let rota := radians rota in
    let rcen_x := fsub (fmul center_x (np_cos rota)) (fmul center_y (np_sin rota)) in
    let rcen_y := fadd (fmul center_x (np_sin rota)) (fmul center_y (np_cos rota)) in
    dret (Some rota, rcen_x, rcen_y)
  else
    dret (None, center_x, center_y).

(** Lines 113-116 and 205-208. *)
Definition check_residual (inpars_old : list F) (circle rotate vheight : bool)
  : decoder F unit :=
  inpars <~ remaining ;;
  if (0 <? length inpars)%nat
  then draise (ResidualParameters inpars inpars_old circle rotate vheight)
  else dret tt.

(** [twodpeak], lines 177-208 (the same text as lines 85-116 of
    [twodpeak_onedfunc]): the decoding of [inpars].  [circle] is reported in
    the message as given, [rotate] as overridden. *)
Definition twodpeak_decode (circle rotate vheight : bool) : decoder F peak_params :=
  inpars_old <~ remaining ;;
  height <~ (if vheight then pop else dret (of_int 0)) ;;
  amplitude <~ pop ;;
  center_y <~ pop ;;
  center_x <~ pop ;;
  '(width_x, width_y, rotate) <~ pop_widths circle rotate ;;
  '(rota, rcen_x, rcen_y) <~ pop_rotation rotate center_x center_y ;;
  _ <~ check_residual inpars_old circle rotate vheight ;;
  dret {| height := height; amplitude := amplitude;
          center_x := center_x; center_y := center_y;
          width_x := width_x; width_y := width_y;
          rotate_on := rotate; rota := rota;
          rcen_x := rcen_x; rcen_y := rcen_y |}.

(** [twodpeak(peakfunc, inpars, circle, rotate, vheight)] without [shape]: the
    closure [rotpeak], given by the variables it captures. *)
Definition twodpeak (inpars : list F) (circle rotate vheight : bool)
  : result F peak_params :=
  '(env, _) <- twodpeak_decode circle rotate vheight inpars ;;
  ret env.

(** [twodpeak_onedfunc] decodes with the same statements. *)
Definition twodpeak_onedfunc (inpars : list F) (circle rotate vheight : bool)
  : result F peak_params :=
  twodpeak inpars circle rotate vheight.

(** What [mm_laguerregauss_2d] leaves to its closure. *)
Record mm_params : Type := {
  mm_amps : list F;          (* the amplitudes, row-major *)
  mm_ampshape : list nat;
  mm_height : F;
  mm_center_x : F;
  mm_center_y : F;
  mm_width_x : F;
  mm_width_y : F;
  mm_rotate_on : bool;
  mm_rota : option F;
  mm_rcen_x : F;
  mm_rcen_y : F
}.

(** [inpars[-n:]] for [0 < n]. *)
Definition tail_slice {A} (n : nat) (l : list A) : list A :=
  skipn (length l - n) l.

(** [del inpars[-n:]] for [0 < n]. *)
Definition del_tail {A} (n : nat) (l : list A) : list A :=
  firstn (length l - n) l.

(** Lines 269-276: the amplitudes are read off the tail; with [max_l <> 0]
    they are reshaped, which NumPy refuses for a wrong element count. *)
Definition mm_take_amps (max_p max_l : nat) (inpars : list F)
  : result F (nat * list F * list nat) :=
  if (max_l =? 0)%nat then
    let amplen := (max_p + 1)%nat in
    let amps := tail_slice amplen inpars in
    ret (amplen, amps, [length amps])
  else
    let amplen := ((max_p + 1) * (max_l + 1))%nat in
    let amps := tail_slice amplen inpars in
    if (length amps =? amplen)%nat
    then ret (amplen, amps, [(max_p + 1)%nat; (max_l + 1)%nat])
    else raise (NumpyValueError "cannot reshape array").

(** Lines 280-309, on the working copy left by [del inpars[-amplen:]]. *)
Definition mm_decode_fields (inpars_old : list F) (amps : list F) (ampshape : list nat)
  (circle rotate vheight : bool) : decoder F mm_params :=
  height <~ (if vheight then pop else dret (of_int 0)) ;;
  center_x <~ pop ;;
  center_y <~ pop ;;
  '(width_x, width_y, rotate) <~ pop_widths circle rotate ;;
  '(rota, rcen_x, rcen_y) <~ pop_rotation rotate center_x center_y ;;
  _ <~ check_residual inpars_old circle rotate vheight ;;
  dret {| mm_amps := amps; mm_ampshape := ampshape;
          mm_height := height;
          mm_center_x := center_x; mm_center_y := center_y;
          mm_width_x := width_x; mm_width_y := width_y;
          mm_rotate_on := rotate; mm_rota := rota;
          mm_rcen_x := rcen_x; mm_rcen_y := rcen_y |}.

(** [mm_laguerregauss_2d(inpars, max_p, max_l, circle, rotate, vheight)]
    without [shape], lines 266-309. *)
Definition mm_laguerregauss_2d (inpars : list F) (max_p max_l : nat)
  (circle rotate vheight : bool) : result F mm_params :=
  '(amplen, amps, ampshape) <- mm_take_amps max_p max_l inpars ;;
  '(env, _) <- mm_decode_fields inpars amps ampshape circle rotate vheight
                 (del_tail amplen inpars) ;;
  ret env.

End Codec.

(** ** Arrays *)

(** A two-dimensional [numpy.ma.MaskedArray] in row-major order: every cell
    holds its value and its mask bit, and there are rows times columns of
    them.  A plain [ndarray] viewed as a masked array has every bit
    [false]. *)
Record masked_array (F : Type) : Type := {
  ma_shape : nat * nat;
  ma_cells : list (F * bool)
}.

(** [np.indices(shape)]: the row and the column index of every cell. *)
Definition indices (shape : nat * nat) : list (nat * nat) :=
  flat_map (fun i => map (fun j => (i, j)) (seq 0 (snd shape))) (seq 0 (fst shape)).

(** [l[i] = x] for [i] in range. *)
Fixpoint list_set {A} (i : nat) (x : A) (l : list A) : list A :=
  match l, i with
  | [], _ => []
  | _ :: t, O => x :: t
  | h :: t, S i' => h :: list_set i' x t
  end.

(** [l[i] = x], raising as Python does when [i] is out of range. *)
Definition setitem {F A} (l : list A) (i : nat) (x : A) : result F (list A) :=
  if (i <? length l)%nat then ret (list_set i x l)
  else raise (IndexError "assignment index out of range").

Section Arrays.
Context {F : Type} `{Float F}.

(** [data - model] for a masked [data] and a plain [model]: the mask is
    kept, and a masked cell keeps the value it had. *)
Definition ma_sub (data : masked_array F) (model : list F) : masked_array F :=
  {| ma_shape := ma_shape data;
     ma_cells := map (fun '((v, m), x) => (if m : bool then v else fsub v x, m))
                     (combine (ma_cells data) model) |}.

(** One cell of numpy.ma's [true_divide]. *)
Definition ma_div_cell (c : F * bool) (e : F) : F * bool :=
  let '(v, m) := c in
  let m' := m || ma_div_masks v e in
  (if m' then v else fdiv v e, m').

(** [delta / err]: [err] is the scalar [1.0] when the caller gave none, and
    otherwise an array of the shape of the data. *)
Definition ma_div_err (delta : masked_array F) (err : option (list F))
  : result F (masked_array F) :=
  match err with
  | None =>
      ret {| ma_shape := ma_shape delta;
             ma_cells := map (fun c => ma_div_cell c (of_int 1)) (ma_cells delta) |}
  | Some e =>
      if (length e =? length (ma_cells delta))%nat
      then ret {| ma_shape := ma_shape delta;
                  ma_cells := map (fun '(c, x) => ma_div_cell c x)
                                  (combine (ma_cells delta) e) |}
      else raise (NumpyValueError "operands could not be broadcast together")
  end.

(** [delta.compressed()]: the unmasked values, in order. *)
Definition compressed (a : masked_array F) : list F :=
  map fst (filter (fun c => negb (snd c)) (ma_cells a)).

End Arrays.

(** ** Single-peak model and bounded fit driver *)

(** What [mpfit] is handed for one parameter. *)
Record parinfo (V B : Type) : Type := {
  n : nat;
  value : V;
  limits : V * V;
  limited : B * B;
  fixed : B;
  parname : string;
  error : nat
}.

(** The numbers [fnorm] and [dof] of a solver result, as Python has them:
    a Python float and a Python int, or NumPy scalars (at least one of the
    two; a cost computed from a NumPy array is a [numpy.float64]).  The two
    divide differently by zero. *)
Inductive scalar_kind : Type :=
| PythonNumbers
| NumPyScalars.

(** What the code reads off the object [mpfit] returns. *)
Record mpfit_result (F : Type) : Type := {
  mp_params : list F;
  mp_perror : list F;
  mp_fnorm : F;
  mp_dof : Z;
  mp_scalars : scalar_kind;    (* the kind of [fnorm] and [dof] *)
  mp_status : Z;
  mp_errmsg : string
}.

(** The residual function handed to the solver: [f(p, fjac)] returns
    [[status, residuals]] or raises. *)
Definition residual_fn (F R : Type) : Type := list F -> result F (Z * R).

(** [mpfit(f, parinfo=parinfo, quiet=quiet)]: the external solver. *)
Definition solver (F V B R : Type) : Type :=
  residual_fn F R -> list (parinfo V B) -> bool -> result F (mpfit_result F).

(** The object a driver returns with [returnmp]: the solver's result with
    the attributes [chi2] and [chi2n] the driver sets on it. *)
Record fitted (F : Type) : Type := {
  mp : mpfit_result F;
  chi2 : F;
  chi2n : F
}.

(** The shapes of a driver's return value. *)
Inductive fit_return (F : Type) : Type :=
| ReturnMp (m : fitted F)                       (* returnmp *)
| ReturnParamsError (params perror : list F)    (* return_error *)
| ReturnParams (params : list F).

Section Peakfit.
Context {F : Type} `{Float F} `{Trig F}.

(** The closure [rotpeak] of [twodpeak], lines 210-218, at one point.
    [peakfunc] is the scalar kernel of the ufunc the caller passes. *)
Definition rotpeak (peakfunc : F -> F -> F -> F -> F) (env : peak_params (F:=F))
  (x y : F) : F :=
  let '(xp, yp) :=
    match rotate_on env, rota env with
    | true, Some rota =>
        (fsub (fmul x (np_cos rota)) (fmul y (np_sin rota)),
         fadd (fmul x (np_sin rota)) (fmul y (np_cos rota)))
    | _, _ => (x, y)
    end in
  fadd (height env)
       (fmul (amplitude env)
             (peakfunc (fsub xp (rcen_x env)) (fsub yp (rcen_y env))
                       (width_x env) (width_y env))).

(** [rotpeak] applied to the two arrays of [np.indices(shape)]. *)
Definition peak_image (peakfunc : F -> F -> F -> F -> F) (env : peak_params (F:=F))
  (shape : nat * nat) : list F :=
  map (fun '(i, j) => rotpeak peakfunc env (of_int (Z.of_nat i)) (of_int (Z.of_nat j)))
      (indices shape).

(** [mpfitfun(data, err)] of [peakfit], lines 624-629: the function [f]. *)
Definition mpfitfun (peakfunc : F -> F -> F -> F -> F) (circle rotate vheight : bool)
  (data : masked_array F) (err : option (list F)) : residual_fn F (list F) :=
  fun p =>
    twodp <- twodpeak p circle rotate vheight ;;
    delta <- ma_div_err (ma_sub data (peak_image peakfunc twodp (ma_shape data))) err ;;
    ret (0%Z, compressed delta).

(** [params[usemoment] = moment[usemoment]], for [len(params) ==
    len(usemoment)]. *)
Definition assign_masked (params : list F) (usemoment : list bool) (moment : list F)
  : result F (list F) :=
  if (length moment =? length usemoment)%nat
  then ret (map (fun '(p, (u, m)) => if u : bool then m else p)
                (combine params (combine usemoment moment)))
  else raise (IndexError "boolean index did not match indexed array").

(** One round of the loop of lines 617-619. *)
Definition clamp_step (minpars maxpars : list F) (limitedmin limitedmax : list bool)
  (params : list F) (i : nat) : result F (list F) :=
  p <- getitem params i ;;
  hi <- getitem maxpars i ;;
  params <- (if fltb hi p
             then lim <- getitem limitedmax i ;;
                  ret (if lim : bool then list_set i hi params else params)
             else ret params) ;;
  p <- getitem params i ;;
  lo <- getitem minpars i ;;
  if fltb p lo
  then lim <- getitem limitedmin i ;;
       ret (if lim : bool then list_set i lo params else params)
  else ret params.

(** Lines 617-619. *)
Definition clamp_params (minpars maxpars : list F) (limitedmin limitedmax : list bool)
  (params : list F) : result F (list F) :=
  fold_left (fun acc i => params <- acc ;;
                          clamp_step minpars maxpars limitedmin limitedmax params i)
            (seq 0 (length params)) (ret params).

(** One dictionary of the [parinfo] list. *)
Definition parinfo_entry (i : nat) (name : string) (params minpars maxpars : list F)
  (limitedmin limitedmax fixed : list bool) : result F (parinfo F bool) :=
  v <- getitem params i ;;
  lo <- getitem minpars i ;;
  hi <- getitem maxpars i ;;
  lmin <- getitem limitedmin i ;;
  lmax <- getitem limitedmax i ;;
  fx <- getitem fixed i ;;
  ret {| n := i; value := v; limits := (lo, hi); limited := (lmin, lmax);
         fixed := fx; parname := name; error := 0 |}.

(** [[e(i) for i in idx]], raising at the first entry that raises. *)
Fixpoint collect {A} (l : list (result F A)) : result F (list A) :=
  match l with
  | [] => ret []
  | m :: t => a <- m ;; r <- collect t ;; ret (a :: r)
  end.

(** Lines 631-654 of [peakfit]. *)
Definition peakfit_parinfo (circle rotate vheight : bool) (params minpars maxpars : list F)
  (limitedmin limitedmax fixed : list bool) : result F (list (parinfo F bool)) :=
  let entry i name :=
    parinfo_entry i name params minpars maxpars limitedmin limitedmax fixed in
  parinfo <- collect [entry 1%nat "AMPLITUDE"; entry 2%nat "XSHIFT";
                      entry 3%nat "YSHIFT"; entry 4%nat "XWIDTH"] ;;
  parinfo <- (if vheight
              then e <- entry 0%nat "HEIGHT" ;; ret (e :: parinfo)
              else ret parinfo) ;;
  if negb circle then
    e <- entry 5%nat "YWIDTH" ;;
    let parinfo := parinfo ++ [e] in
    if rotate
    then e <- entry 6%nat "ROTATION" ;; ret (parinfo ++ [e])
    else ret parinfo
  else ret parinfo.

(** [a[-1] %= 180.0] *)
Definition wrap_last (a : list F) : result F (list F) :=
  match a with
  | [] => raise (IndexError "index -1 is out of bounds")
  | _ => ret (removelast a ++ [fmod (last a (of_int 0)) (of_int 180)])
  end.

(** [x / k]: a Python float over a Python int raises on a zero divisor; with
    a NumPy scalar the division is NumPy's, which follows IEEE 754 and only
    warns. *)
Definition py_truediv (kind : scalar_kind) (x : F) (k : Z) : result F F :=
  match kind with
  | PythonNumbers =>
      if (k =? 0)%Z then raise ZeroDivisionError else ret (fdiv x (of_int k))
  | NumPyScalars => ret (fdiv x (of_int k))
  end.

(** Lines 674-677: [try: fnorm/dof  except ZeroDivisionError: np.nan]. *)
Definition reduced_chi2 (kind : scalar_kind) (fnorm : F) (dof : Z) : result F F :=
  match py_truediv kind fnorm dof with
  | inl ZeroDivisionError => ret fnan
  | other => other
  end.

(** Lines 667-677, shared verbatim by [mm_laguerregauss2d_fit] (513-523):
    the solver's message is checked, the last parameter is wrapped when the
    fit is elliptical and rotated, and the statistics are set. *)
Definition after_fit (circle rotate : bool) (m : mpfit_result F) : result F (fitted F) :=
  if negb (String.eqb (mp_errmsg m) "") then raise (MPFITError (mp_errmsg m)) else
  params <- (if negb circle && rotate then wrap_last (mp_params m)
             else ret (mp_params m)) ;;
  chi2n <- reduced_chi2 (mp_scalars m) (mp_fnorm m) (mp_dof m) ;;
  ret {| mp := {| mp_params := params; mp_perror := mp_perror m;
                  mp_fnorm := mp_fnorm m; mp_dof := mp_dof m;
                  mp_scalars := mp_scalars m;
                  mp_status := mp_status m; mp_errmsg := mp_errmsg m |};
         chi2 := mp_fnorm m;
         chi2n := chi2n |}.

(** Lines 679-684 and 525-530. *)
Definition shape_return (returnmp return_error : bool) (m : fitted F) : fit_return F :=
  if returnmp then ReturnMp m
  else if return_error then ReturnParamsError (mp_params (mp m)) (mp_perror (mp m))
  else ReturnParams (mp_params (mp m)).

(** Lines 601-614: the start values, and the height forced into the layout. *)
Definition peakfit_start
  (moments : masked_array F -> bool -> bool -> bool -> result F (list F))
  (data : masked_array F) (params : list F) (circle : bool) (fixed : list bool)
  (usemoment : list bool) (rotate vheight : bool)
  : result F (list F * list bool) :=
  params <- (if existsb (fun b => b) usemoment
                && (length params =? length usemoment)%nat
             then moment <- moments data circle rotate vheight ;;
                  assign_masked params usemoment moment
             else if (length params =? 0)%nat
                  then moments data circle rotate vheight
                  else ret params) ;;
  if negb vheight
  then fixed <- setitem fixed 0 true ;;
       ret (of_int 0 :: params, fixed)
  else ret (params, fixed).

(** [peakfit], lines 601-654: everything before the solver runs. *)
Definition peakfit_setup
  (moments : masked_array F -> bool -> bool -> bool -> result F (list F))
  (data : masked_array F) (params : list F) (circle : bool) (fixed : list bool)
  (limitedmin limitedmax : list bool) (usemoment : list bool)
  (minpars maxpars : list F) (rotate vheight : bool)
  : result F (list (parinfo F bool)) :=
  '(params, fixed) <- peakfit_start moments data params circle fixed usemoment
                        rotate vheight ;;
  let vheight := true in
  params <- clamp_params minpars maxpars limitedmin limitedmax params ;;
  peakfit_parinfo circle rotate vheight params minpars maxpars
    limitedmin limitedmax fixed.

(** [peakfit], lines 601-688.  [moments] and [mpfit] are the imported
    collaborators; the arguments follow the signature. *)
Definition peakfit
  (moments : masked_array F -> bool -> bool -> bool -> result F (list F))
  (mpfit : solver F F bool (list F))
  (peakfunc : F -> F -> F -> F -> F) (data : masked_array F) (err : option (list F))
  (params : list F) (autoderiv return_error circle : bool) (fixed : list bool)
  (limitedmin limitedmax : list bool) (usemoment : list bool)
  (minpars maxpars : list F) (rotate vheight quiet returnmp returnfitimage : bool)
  : result F (fit_return F * option (list F)) :=
  parinfo <- peakfit_setup moments data params circle fixed limitedmin limitedmax
               usemoment minpars maxpars rotate vheight ;;
  let vheight := true in
  if negb autoderiv then raise NotImplementedError else
  m <- mpfit (mpfitfun peakfunc circle rotate vheight data err) parinfo quiet ;;
  m <- after_fit circle rotate m ;;
  let returns := shape_return returnmp return_error m in
  if returnfitimage
  then twodp <- twodpeak (mp_params (mp m)) circle rotate vheight ;;
       ret (returns, Some (peak_image peakfunc twodp (ma_shape data)))
  else ret (returns, None).

End Peakfit.

(** ** Multimode Laguerre-Gauss fit driver *)

(** [l.pop(i)] for [0 <= i]. *)
Definition list_pop {F A} (i : nat) (l : list A) : result F (A * list A) :=
  match nth_error l i with
  | Some a => ret (a, firstn i l ++ skipn (S i) l)
  | None => raise (IndexError "pop index out of range")
  end.

(** [str(k)] for a non-negative int. *)
Definition str_of_nat (k : nat) : string := NilEmpty.string_of_uint (Nat.to_uint k).

Section MultimodeFit.
Context {F : Type} `{Float F} `{Trig F}.

(** The closure [rotpeak] of [mm_laguerregauss_2d] (lines 311-328) at one
    point.  Its body sums [laguerre_gauss2d] terms, which are complex numbers
    built with SciPy's [genlaguerre]; the drivers take it as a parameter, and
    [mm_rotpeak_at] below gives the body. *)
Variable mm_rotpeak : mm_params (F:=F) -> F -> F -> F.

Definition mm_image (env : mm_params (F:=F)) (shape : nat * nat) : list F :=
  map (fun '(i, j) => mm_rotpeak env (of_int (Z.of_nat i)) (of_int (Z.of_nat j)))
      (indices shape).

(** [mpfitfun(data, err)] of [mm_laguerregauss2d_fit], lines 471-476. *)
Definition mm_mpfitfun (max_p max_l : nat) (circle rotate vheight : bool)
  (data : masked_array F) (err : option (list F)) : residual_fn F (list F) :=
  fun p =>
    twodp <- mm_laguerregauss_2d p max_p max_l circle rotate vheight ;;
    delta <- ma_div_err (ma_sub data (mm_image twodp (ma_shape data))) err ;;
    ret (0%Z, compressed delta).

(** [modenum], line 429: [itertools.product(range(max_p+1), range(max_l+1))]. *)
Definition modenum (max_p max_l : nat) : list (nat * nat) :=
  list_prod (seq 0 (max_p + 1)) (seq 0 (max_l + 1)).

(** [f"MODEAMP {modenum[i]}"] *)
Definition modeamp_name (pl : nat * nat) : string :=
  "MODEAMP (" ++ str_of_nat (fst pl) ++ ", " ++ str_of_nat (snd pl) ++ ")".

(** Lines 425-455: the start values and the amplitude array.  [amps] is
    [np.repeat(0, amplen)], an array of integers, so a moment amplitude
    stored into it is cast.  The cast [to_int] is total here; NumPy raises
    [OverflowError] or [ValueError] where the float is infinite,
    not-a-number or out of the range of the integer type, and what is
    stated of this function holds for the floats it casts. *)
Definition mm_start
  (moments : masked_array F -> bool -> bool -> bool -> result F (list F))
  (data : masked_array F) (max_p max_l : nat) (params : list F) (circle : bool)
  (fixed : list bool) (usemoment : list bool) (rotate vheight : bool)
  : result F (list F * list Z * list bool) :=
  let amplen := ((max_p + 1) * (max_l + 1))%nat in
  let amps := repeat 0%Z amplen in
  '(params, amps) <-
    (if existsb (fun b => b) usemoment && (length params =? length usemoment)%nat
     then moms <- moments data circle rotate vheight ;;
          '(a, moms) <- list_pop (if vheight then 1 else 0)%nat moms ;;
          let amps := list_set 0 (to_int a) amps in
          params <- assign_masked params usemoment moms ;;
          ret (params, amps)
     else if (length params =? 0)%nat
          then params <- moments data circle rotate vheight ;;
               '(a, params) <- list_pop (if vheight then 1 else 0)%nat params ;;
               ret (params, list_set 0 (to_int a) amps)
          else ret (params, amps)) ;;
  if negb vheight
  then fixed <- setitem fixed 0 true ;;
       ret (of_int 0 :: params, amps, fixed)
  else ret (params, amps, fixed).

(** One round of the loop of lines 462-464, on the integer array.  A limit
    stored into the array is cast by [to_int], total here; NumPy raises
    where the limit is infinite, not-a-number or out of the range of the
    integer type. *)
Definition clamp_amp (minamp maxamp : F) (limitedampmin limitedampmax : bool) (a : Z) : Z :=
  let a := if fltb maxamp (of_int a) && limitedampmax then to_int maxamp else a in
  if fltb (of_int a) minamp && limitedampmin then to_int minamp else a.

(** One dictionary of the loop of lines 501-504, where [n0] is the source's
    [n = parinfo[-1]['n'] + 1]: the value is read at [params[n+1]] in every
    round. *)
Definition modeamp_entry (params : list F) (n0 : nat) (minamp maxamp : F)
  (limitedampmin limitedampmax : bool) (i : nat) (pl : nat * nat)
  : result F (parinfo F bool) :=
  v <- getitem params (n0 + 1) ;;
  ret {| n := n0 + i; value := v; limits := (minamp, maxamp);
         limited := (limitedampmin, limitedampmax); fixed := false;
         parname := modeamp_name pl; error := 0 |}.

(** Lines 478-504 of [mm_laguerregauss2d_fit]. *)
Definition mm_parinfo (max_p max_l : nat) (circle rotate vheight : bool)
  (params : list F) (amps : list Z) (minpars maxpars : list F)
  (limitedmin limitedmax fixed : list bool) (minamp maxamp : F)
  (limitedampmin limitedampmax : bool) : result F (list (parinfo F bool)) :=
  let entry i name :=
    parinfo_entry i name params minpars maxpars limitedmin limitedmax fixed in
  parinfo <- collect [entry 1%nat "XSHIFT"; entry 2%nat "YSHIFT"; entry 3%nat "XWIDTH"] ;;
  parinfo <- (if vheight
              then e <- entry 0%nat "HEIGHT" ;; ret (e :: parinfo)
              else ret parinfo) ;;
  parinfo <- (if negb circle then
                e <- entry 4%nat "YWIDTH" ;;
                let parinfo := parinfo ++ [e] in
                if rotate
                then e <- entry 5%nat "ROTATION" ;; ret (parinfo ++ [e])
                else ret parinfo
              else ret parinfo) ;;
  last_entry <- getitem parinfo (length parinfo - 1) ;;
  let n0 := (n last_entry + 1)%nat in
  modes <- collect (map (fun '(i, pl) =>
                           modeamp_entry params n0 minamp maxamp
                             limitedampmin limitedampmax i pl)
                        (combine (seq 0 (length amps)) (modenum max_p max_l))) ;;
  ret (parinfo ++ modes).

(** Lines 425-504: everything before the solver runs. *)
Definition mm_setup
  (moments : masked_array F -> bool -> bool -> bool -> result F (list F))
  (data : masked_array F) (max_p max_l : nat) (params : list F) (circle : bool)
  (fixed : list bool) (limitedmin limitedmax : list bool) (usemoment : list bool)
  (minpars maxpars : list F) (minamp maxamp : F) (limitedampmin limitedampmax : bool)
  (rotate vheight : bool) : result F (list F * list Z * list (parinfo F bool)) :=
  '(params, amps, fixed) <- mm_start moments data max_p max_l params circle fixed
                              usemoment rotate vheight ;;
  let vheight := true in
  params <- clamp_params minpars maxpars limitedmin limitedmax params ;;
  let amps := map (clamp_amp minamp maxamp limitedampmin limitedampmax) amps in
  let params := params ++ map of_int amps in
  parinfo <- mm_parinfo max_p max_l circle rotate vheight params amps minpars maxpars
               limitedmin limitedmax fixed minamp maxamp limitedampmin limitedampmax ;;
  ret (params, amps, parinfo).

(** [mm_laguerregauss2d_fit], lines 422-534. *)
Definition mm_laguerregauss2d_fit
  (moments : masked_array F -> bool -> bool -> bool -> result F (list F))
  (mpfit : solver F F bool (list F))
  (data : masked_array F) (max_p max_l : nat) (err : option (list F))
  (params : list F) (autoderiv return_error circle : bool) (fixed : list bool)
  (limitedmin limitedmax : list bool) (usemoment : list bool)
  (minpars maxpars : list F) (minamp maxamp : F) (limitedampmin limitedampmax : bool)
  (rotate vheight quiet returnmp returnfitimage : bool)
  : result F (fit_return F * option (list F)) :=
  '(params, amps, parinfo) <- mm_setup moments data max_p max_l params circle fixed
                                limitedmin limitedmax usemoment minpars maxpars
                                minamp maxamp limitedampmin limitedampmax
                                rotate vheight ;;
  let vheight := true in
  if negb autoderiv then raise NotImplementedError else
  m <- mpfit (mm_mpfitfun max_p max_l circle rotate vheight data err) parinfo quiet ;;
  m <- after_fit circle rotate m ;;
  let returns := shape_return returnmp return_error m in
  if returnfitimage
  then twodp <- mm_laguerregauss_2d (mp_params (mp m)) max_p max_l circle rotate vheight ;;
       ret (returns, Some (mm_image twodp (ma_shape data)))
  else ret (returns, None).

End MultimodeFit.

(** ** Multimode closure *)

Section MultimodeModel.
Context {F : Type} `{Float F} `{Trig F}.

(** The complex numbers of [laguerre_gauss2d] (lines 336-355, built on
    SciPy's [genlaguerre]) and the operations the closure applies to them. *)
Variable C : Type.
Variable laguerre_gauss2d : F -> F -> nat -> nat -> C.
Variable scale : F -> C -> C.       (* float(amp) * z *)
Variable shift : F -> C -> C.       (* height + z, for the float height *)
Variable cadd : C -> C -> C.
Variable abs_sq : C -> F.           (* np.abs(g)**2 *)

(** [amps[p]] for [max_l == 0], [amps[p,l]] on the reshaped array
    otherwise. *)
Definition mode_amp (max_l : nat) (amps : list F) (p l : nat) : result F F :=
  if (max_l =? 0)%nat then getitem amps p
  else if (l <? max_l + 1)%nat then getitem amps (p * (max_l + 1) + l)
       else raise (IndexError "index is out of bounds for axis 1").

(** The closure [rotpeak] of [mm_laguerregauss_2d], lines 311-328, at one
    point.  [g] starts as the float [height] and is complex from the first
    round of the loops on. *)
Definition mm_rotpeak_at (max_p max_l : nat) (env : mm_params (F:=F)) (x y : F)
  : result F F :=
  let '(xp, yp) :=
    match mm_rotate_on env, mm_rota env with
    | true, Some rota =>
        (fdiv (fsub (fsub (fmul x (np_cos rota)) (fmul y (np_sin rota))) (mm_rcen_x env))
              (mm_width_x env),
         fdiv (fsub (fadd (fmul x (np_sin rota)) (fmul y (np_cos rota))) (mm_rcen_y env))
              (mm_width_y env))
    | _, _ => (fdiv x (mm_width_x env), fdiv y (mm_width_y env))
    end in
  g <- fold_left (fun acc '(p, l) =>
                    g <- acc ;;
                    amp <- mode_amp max_l (mm_amps env) p l ;;
                    let term := scale amp (laguerre_gauss2d xp yp p l) in
                    ret (inr (match g with
                              | inl h => shift h term
                              | inr z => cadd z term
                              end) : F + C)%type)
                 (modenum max_p max_l) (ret (inl (mm_height env))) ;;
  ret (match g with
       | inl h => fmul (fabs h) (fabs h)
       | inr z => abs_sq z
       end).

End MultimodeModel.

(** ** Moment estimator *)

(** The NumPy reductions [onedmoments] calls on one-dimensional arrays. *)
Class NumPy (F : Type) : Type := {
  np_sum : list F -> F;
  np_mean : list F -> F;
  np_std : list F -> F;
  np_min : list F -> F;        (* of a non-empty array *)
  np_max : list F -> F;        (* of a non-empty array *)
  np_argmin : list F -> nat;
  np_argmax : list F -> nat
}.

Section Moments.
Context {F : Type} `{Float F} `{NumPy F}.

(** [a op b] on two one-dimensional arrays, with NumPy's broadcasting of an
    array of one element. *)
Definition broadcast2 (op : F -> F -> F) (a b : list F) : result F (list F) :=
  if (length a =? length b)%nat then ret (map (fun '(x, y) => op x y) (combine a b))
  else match a, b with
       | [x], _ => ret (map (op x) b)
       | _, [y] => ret (map (fun x => op x y) a)
       | _, _ => raise (NumpyValueError "operands could not be broadcast together")
       end.

(** [a[mask]] for a boolean array [mask]. *)
Definition bool_index (a : list F) (mask : list bool) : result F (list F) :=
  if (length a =? length mask)%nat
  then ret (map fst (filter snd (combine a mask)))
  else raise (IndexError "boolean index did not match indexed array").

(** The literal [0.5]. *)
Definition half : F := fdiv (of_int 1) (of_int 2).

(** [onedmoments], lines 704-728: the four estimates
    [(height, amplitude, xcen, width_x)]. *)
Definition onedmoments_estimates (Xax data : list F) (estimator : list F -> F)
  (negamp : option bool) : result F (F * F * F * F) :=
  let dx := np_mean (map (fun '(a, b) => fsub a b) (combine (tl Xax) (removelast Xax))) in
  let integral := np_sum (map (fun d => fmul d dx) data) in
  let height := estimator data in
  let base := fmul (fmul height (of_int (Z.of_nat (length Xax)))) dx in
  let above := filter (fun d => fltb height d) data in
  let Lpeakintegral :=
    fsub (fsub integral base) (np_sum (map (fun d => fmul d dx) above)) in
  if (length data =? 0)%nat
  then raise (NumpyValueError "zero-size array to reduction operation minimum")
  else
  let Lamplitude := fsub (np_min data) height in
  let Lwidth_x := fmul half (fabs (fdiv Lpeakintegral Lamplitude)) in
  let below := filter (fun d => fltb d height) data in
  let Hpeakintegral :=
    fsub (fsub integral base) (np_sum (map (fun d => fmul d dx) below)) in
  let Hamplitude := fsub (np_max data) height in
  let Hwidth_x := fmul half (fabs (fdiv Hpeakintegral Hamplitude)) in
  let mean := np_mean data in
  lower <- bool_index Xax (map (fun d => fltb d mean) data) ;;
  let Lstddev := np_std lower in
  upper <- bool_index Xax (map (fun d => fltb mean d) data) ;;
  let Hstddev := np_std upper in
  let low := (xcen <- getitem Xax (np_argmin data) ;;
              ret (height, Lamplitude, xcen, Lwidth_x)) in
  let high := (xcen <- getitem Xax (np_argmax data) ;;
               ret (height, Hamplitude, xcen, Hwidth_x)) in
  match negamp with
  | Some true => low
  | None => if fltb Hstddev Lstddev then high else low
  | Some false => high
  end.

(** [onedmoments(Xax, data, vheight, estimator, negamp)], lines 704-738
    (the [veryverbose] printing apart). *)
Definition onedmoments (Xax data : list F) (vheight : bool) (estimator : list F -> F)
  (negamp : option bool) : result F (list F) :=
  '(height, amplitude, xcen, width_x) <- onedmoments_estimates Xax data estimator negamp ;;
  let mylist := [amplitude; xcen; width_x] in
  if isnan width_x || isnan height || isnan amplitude
  then raise SomethingIsNan
  else ret (if vheight then height :: mylist else mylist).

End Moments.

(** ** One-dimensional peak and its fit driver *)

(** The Python objects that reach [onedpeak]: a float, a one-dimensional
    array, or a peak function, given by the scalar kernel
    [(x, width) -> value] of the ufunc. *)
Inductive pyobj (F : Type) : Type :=
| Num (x : F)
| Arr (a : list F)
| Callable (f : F -> F -> F).

Arguments Callable {F} f.

Section OneD.
Context {F : Type} `{Float F} `{NumPy F}.

(** [a op b] for the arithmetic operators, with broadcasting. *)
Definition py_binop (op : F -> F -> F) (a b : pyobj F) : result F (pyobj F) :=
  match a, b with
  | Num x, Num y => ret (Num (op x y))
  | Arr x, Num y => ret (Arr (map (fun v => op v y) x))
  | Num x, Arr y => ret (Arr (map (op x) y))
  | Arr x, Arr y => r <- broadcast2 op x y ;; ret (Arr r)
  | _, _ => raise (TypeError "unsupported operand type(s)")
  end.

(** [callee(arg, w)] *)
Definition py_call (callee : pyobj F) (arg w : pyobj F) : result F (pyobj F) :=
  match callee with
  | Callable f =>
      match arg, w with
      | Num x, Num v => ret (Num (f x v))
      | Arr x, Num v => ret (Arr (map (fun xi => f xi v) x))
      | _, _ => raise (TypeError "peak function applied outside its signature")
      end
  | Num _ => raise (TypeError "'float' object is not callable")
  | Arr _ => raise (TypeError "'numpy.ndarray' object is not callable")
  end.

(** [onedpeak(peakfunc, x, H, A, dx, w)], line 746:
    [H+A*peakfunc((x-dx), w)]. *)
Definition onedpeak (peakfunc x H A dx w : pyobj F) : result F (pyobj F) :=
  shifted <- py_binop fsub x dx ;;
  g <- py_call peakfunc shifted w ;;
  scaled <- py_binop fmul A g ;;
  py_binop fadd H scaled.

(** A call of [onedpeak] with positional arguments only. *)
Definition call_onedpeak (args : list (pyobj F)) : result F (pyobj F) :=
  match args with
  | [a1; a2; a3; a4; a5; a6] => onedpeak a1 a2 a3 a4 a5 a6
  | _ => raise (TypeError "onedpeak() takes 6 positional arguments")
  end.

(** [mpfitfun(peakfunc, x, y, err)] of [onedpeakfit], lines 790-795: the
    function [f], which calls [onedpeak(x, *p, peakfunc)]. *)
Definition oned_mpfitfun (peakfunc : F -> F -> F) (x y : list F) (err : option (list F))
  : residual_fn F (pyobj F) :=
  fun p =>
    g <- call_onedpeak (Arr x :: map (@Num F) p ++ [Callable peakfunc]) ;;
    delta <- py_binop fsub (Arr y) g ;;
    match err with
    | None => ret (0%Z, delta)
    | Some e => q <- py_binop fdiv delta (Arr e) ;; ret (0%Z, q)
    end.

(** [np.arange(k)] *)
Definition arange (k : nat) : list F := map (fun i => of_int (Z.of_nat i)) (seq 0 k).

(** [onedpeakfit], lines 790-838, for the defaults [shh=True] and
    [veryverbose=False] (nothing is printed).  It returns
    [(mpp, model, mpperr, chi2)]. *)
Definition onedpeakfit
  (median : list F -> F)
  (mpfit : solver F F bool (pyobj F))
  (peakfunc : F -> F -> F) (xax : option (list F)) (data : list F)
  (err : option (list F)) (params : list F) (fixed : list bool)
  (limitedmin limitedmax : list bool) (minpars maxpars : list F)
  (quiet vheight : bool) (negamp : option bool) (usemoments : bool)
  : result F (list F * pyobj F * list F * F) :=
  let xax := match xax with
             | None => arange (length data)
             | Some x => x
             end in
  '(height, fixed) <- (if negb vheight
                       then h <- getitem params 0 ;;
                            fixed <- setitem fixed 0 true ;;
                            ret (Some h, fixed)
                       else ret (None, fixed)) ;;
  params <- (if usemoments
             then params <- onedmoments xax data vheight median negamp ;;
                  ret (match height with
                       | Some h => h :: params
                       | None => params
                       end)
             else ret params) ;;
  let entry i name :=
    parinfo_entry i name params minpars maxpars limitedmin limitedmax fixed in
  parinfo <- collect [entry 0%nat "HEIGHT"; entry 1%nat "AMPLITUDE";
                      entry 2%nat "SHIFT"; entry 3%nat "WIDTH"] ;;
  m <- mpfit (oned_mpfitfun peakfunc xax data err) parinfo quiet ;;
  let mpp := mp_params m in
  if (mp_status m =? 0)%Z then raise (PlainException (mp_errmsg m)) else
  model <- call_onedpeak (Callable peakfunc :: Arr xax :: map (@Num F) mpp) ;;
  ret (mpp, model, mp_perror m, mp_fnorm m).

End OneD.

(** ** Multi-peak driver *)

(** An element of a per-peak configuration list: a bool or a number. *)
Inductive pyval (F : Type) : Type :=
| PBool (b : bool)
| PNum (x : F).

Arguments PBool {F} b.

(** The six lists [multipeakfit] normalizes, in the order of its loop. *)
Inductive which_list : Type :=
| Params | Fixed | Limitedmin | Limitedmax | Minpars | Maxpars.

Definition which_eqb (a b : which_list) : bool :=
  match a, b with
  | Params, Params | Fixed, Fixed | Limitedmin, Limitedmin
  | Limitedmax, Limitedmax | Minpars, Minpars | Maxpars, Maxpars => true
  | _, _ => false
  end.

Record peak_lists (F : Type) : Type := {
  pl_params : list (pyval F);
  pl_fixed : list (pyval F);
  pl_limitedmin : list (pyval F);
  pl_limitedmax : list (pyval F);
  pl_minpars : list (pyval F);
  pl_maxpars : list (pyval F)
}.

Definition get_list {F} (w : which_list) (st : peak_lists F) : list (pyval F) :=
  match w with
  | Params => pl_params st
  | Fixed => pl_fixed st
  | Limitedmin => pl_limitedmin st
  | Limitedmax => pl_limitedmax st
  | Minpars => pl_minpars st
  | Maxpars => pl_maxpars st
  end.

Definition set_list {F} (w : which_list) (l : list (pyval F)) (st : peak_lists F)
  : peak_lists F :=
  match w with
  | Params => {| pl_params := l; pl_fixed := pl_fixed st;
                 pl_limitedmin := pl_limitedmin st; pl_limitedmax := pl_limitedmax st;
                 pl_minpars := pl_minpars st; pl_maxpars := pl_maxpars st |}
  | Fixed => {| pl_params := pl_params st; pl_fixed := l;
                pl_limitedmin := pl_limitedmin st; pl_limitedmax := pl_limitedmax st;
                pl_minpars := pl_minpars st; pl_maxpars := pl_maxpars st |}
  | Limitedmin => {| pl_params := pl_params st; pl_fixed := pl_fixed st;
                     pl_limitedmin := l; pl_limitedmax := pl_limitedmax st;
                     pl_minpars := pl_minpars st; pl_maxpars := pl_maxpars st |}
  | Limitedmax => {| pl_params := pl_params st; pl_fixed := pl_fixed st;
                     pl_limitedmin := pl_limitedmin st; pl_limitedmax := l;
                     pl_minpars := pl_minpars st; pl_maxpars := pl_maxpars st |}
  | Minpars => {| pl_params := pl_params st; pl_fixed := pl_fixed st;
                  pl_limitedmin := pl_limitedmin st; pl_limitedmax := pl_limitedmax st;
                  pl_minpars := l; pl_maxpars := pl_maxpars st |}
  | Maxpars => {| pl_params := pl_params st; pl_fixed := pl_fixed st;
                  pl_limitedmin := pl_limitedmin st; pl_limitedmax := pl_limitedmax st;
                  pl_minpars := pl_minpars st; pl_maxpars := l |}
  end.

(** [l * k] for a list and a non-negative int. *)
Definition list_times {A} (l : list A) (k : nat) : list A := concat (repeat l k).

Section MultiPeak.
Context {F : Type} `{Float F} `{NumPy F}.

(** The number a list element compares as: [True == 1], [False == 0]. *)
Definition py_num (v : pyval F) : F :=
  match v with
  | PBool b => of_int (if b then 1 else 0)
  | PNum x => x
  end.

(** [a == b] on list elements. *)
Definition py_eqb (a b : pyval F) : bool :=
  match a, b with
  | PBool x, PBool y => Bool.eqb x y
  | _, _ => feqb (py_num a) (py_num b)
  end.

(** [a == b] on two lists that are different objects. *)
Fixpoint pylist_eqb (a b : list (pyval F)) : bool :=
  match a, b with
  | [], [] => true
  | x :: a', y :: b' => py_eqb x y && pylist_eqb a' b'
  | _, _ => false
  end.

(** [parlist == other] inside the loop, where [parlist] is the list named
    [w]: a list is equal to itself, and the six lists are taken to be six
    different objects. *)
Definition parlist_is (w other : which_list) (st : peak_lists F) : bool :=
  if which_eqb w other then true
  else pylist_eqb (get_list w st) (get_list other st).

(** The defaults written at lines 935-941. *)
Definition default_params : list (pyval F) := [PNum (of_int 1); PNum (of_int 0); PNum (of_int 1)].
Definition default_flags : list (pyval F) := [PBool false; PBool false; PBool false].
Definition default_limitedmin : list (pyval F) := [PBool false; PBool false; PBool true].
Definition default_limits : list (pyval F) := [PNum (of_int 0); PNum (of_int 0); PNum (of_int 0)].

(** One round of the loop of lines 928-941, for the list named [w]. *)
Definition fix_length (npeak : nat) (st : peak_lists F) (w : which_list) : peak_lists F :=
  let parlist := get_list w st in
  if negb (length parlist =? 3 * npeak)%nat then
    if (length parlist =? 3)%nat then set_list w (list_times parlist npeak) st
    else if parlist_is w Params st then set_list w (list_times default_params npeak) st
    else if parlist_is w Fixed st || parlist_is w Limitedmax st
         then set_list w (list_times default_flags npeak) st
    else if parlist_is w Limitedmin st
         then set_list w (list_times default_limitedmin npeak) st
    else if parlist_is w Minpars st || parlist_is w Maxpars st
         then set_list w (list_times default_limits npeak) st
    else st
  else st.

(** Lines 921-922: the peak count inferred from [len(params)]. *)
Definition infer_npeak (npeak : nat) (params : list (pyval F)) : nat :=
  if negb (length params =? npeak)%nat && (npeak <? length params / 3)%nat
  then (length params / 3)%nat
  else npeak.

(** Lines 928-941. *)
Definition normalize_lists (npeak : nat) (st : peak_lists F) : peak_lists F :=
  fold_left (fix_length npeak) [Params; Fixed; Limitedmin; Limitedmax; Minpars; Maxpars] st.

(** [[pars[ii] for ii in range(k, len(pars), 3)]] for [k = 0, 1, 2] at once:
    the complete triples of [pars]. *)
Fixpoint triples (pars : list F) : list (F * F * F) :=
  match pars with
  | a :: dx :: sigma :: rest => (a, dx, sigma) :: triples rest
  | _ => []
  end.

(** [n_peak(peakfunc, pars=pars)], lines 854-867, as every call in this file
    makes it ([a], [dx] and [sigma] left at [None]). *)
Definition n_peak (peakfunc : F -> F -> F) (pars : list F)
  : result F (list F -> list F) :=
  if (length pars mod 3 =? 0)%nat then
    ret (fun x =>
           fold_left (fun v '(a, dx, sigma) =>
                        map (fun '(vi, xi) => fadd vi (fmul a (peakfunc (fsub xi dx) sigma)))
                            (combine v x))
                     (triples pars) (repeat (of_int 0) (length x)))
  else raise (TypeError "object of type 'NoneType' has no len()").

(** [mpfitfun(x, y, err)] of [multipeakfit], lines 943-948. *)
Definition multi_mpfitfun (peakfunc : F -> F -> F) (x y : list F) (err : option (list F))
  : residual_fn F (list F) :=
  fun p =>
    g <- n_peak peakfunc p ;;
    delta <- broadcast2 fsub y (g x) ;;
    match err with
    | None => ret (0%Z, delta)
    | Some e => q <- broadcast2 fdiv delta e ;; ret (0%Z, q)
    end.

(** [parnames[ii % 3]+str(ii % 3)] *)
Definition multi_parname (ii : nat) : string :=
  match (ii mod 3)%nat with
  | 0%nat => "AMPLITUDE"
  | 1%nat => "SHIFT"
  | _ => "WIDTH"
  end ++ str_of_nat (ii mod 3).

(** Lines 955-959. *)
Definition multi_parinfo (st : peak_lists F)
  : result F (list (parinfo (pyval F) (pyval F))) :=
  collect (map (fun ii =>
                  v <- getitem (pl_params st) ii ;;
                  lo <- getitem (pl_minpars st) ii ;;
                  hi <- getitem (pl_maxpars st) ii ;;
                  lmin <- getitem (pl_limitedmin st) ii ;;
                  lmax <- getitem (pl_limitedmax st) ii ;;
                  fx <- getitem (pl_fixed st) ii ;;
                  ret {| n := ii; value := v; limits := (lo, hi);
                         limited := (lmin, lmax); fixed := fx;
                         parname := multi_parname ii; error := ii |})
               (seq 0 (length (pl_params st)))).

(** [multipeakfit], lines 921-959: everything before the solver runs. *)
Definition multipeakfit_setup (npeak : nat) (lists : peak_lists F)
  : result F (list (parinfo (pyval F) (pyval F))) :=
  let npeak := infer_npeak npeak (pl_params lists) in
  multi_parinfo (normalize_lists npeak lists).

(** [xax] after lines 797-798 and 950-951. *)
Definition default_xax (xax : option (list F)) (data : list F) : list F :=
  match xax with
  | None => arange (length data)
  | Some x => x
  end.

(** [multipeakfit], lines 921-980, for the defaults [shh=True] and
    [veryverbose=False] (nothing is printed).  It returns
    [(mpp, model, mpperr, chi2)]. *)
Definition multipeakfit
  (mpfit : solver F (pyval F) (pyval F) (list F))
  (peakfunc : F -> F -> F) (xax : option (list F)) (data : list F) (npeak : nat)
  (err : option (list F)) (lists : peak_lists F) (quiet : bool)
  : result F (list F * list F * list F * F) :=
  parinfo <- multipeakfit_setup npeak lists ;;
  let xax := default_xax xax data in
  m <- mpfit (multi_mpfitfun peakfunc xax data err) parinfo quiet ;;
  let mpp := mp_params m in
  if (mp_status m =? 0)%Z then raise (PlainException (mp_errmsg m)) else
  g <- n_peak peakfunc mpp ;;
  ret (mpp, g xax, mp_perror m, mp_fnorm m).

End MultiPeak.

(** ** Cube driver *)

(** A data cube whose last axis is the spectral one: [spectra] holds, for
    every index of the first axis, the spectra along the second axis. *)
Record cube (F : Type) : Type := {
  cube_shape : nat * nat * nat;
  spectra : list (list (list F))
}.

(** The seven maps [collapse_peakfit] fills. *)
Record fit_maps (F : Type) : Type := {
  width_arr : list (list F);
  offset_arr : list (list F);
  amp_arr : list (list F);
  chi2_arr : list (list F);
  width_err : list (list F);
  offset_err : list (list F);
  amp_err : list (list F)
}.

Section Collapse.
Context {F : Type} `{Float F} `{NumPy F}.

(** [cube[:, i, j]] after [cube.swapaxes(0, 2)]. *)
Definition spectrum_at (c : cube F) (i j : nat) : list F :=
  nth i (nth j (spectra c) []) [].

(** [np.zeros(shape) + np.nan] *)
Definition nan_map (rows cols : nat) : list (list F) :=
  repeat (repeat (fadd (of_int 0) fnan) cols) rows.

(** [a[i, j] = x] for [i], [j] in range. *)
Definition set_cell (a : list (list F)) (i j : nat) (x : F) : list (list F) :=
  list_set i (list_set j x (nth i a [])) a.

(** Lines 986-988: the median of the standard deviations of the spectra
    that are neither zero nor nan. *)
Definition mean_std_of (median : list F -> F) (c : cube F) : F :=
  let '(na, nb, _) := cube_shape c in
  let std_coll := map (fun '(a, b) => np_std (spectrum_at c b a)) (indices (na, nb)) in
  let std_coll := map (fun s => if feqb s (of_int 0) then fnan else s) std_coll in
  median (filter (fun s => feqb s s) std_coll).

(** [np.abs(extremum(spectrum)) > mean_std*nsigcut], line 1010. *)
Definition significant (negamp : bool) (mean_std nsigcut : F) (spectrum : list F) : bool :=
  let extremum := if negamp then np_min else np_max in
  fltb (fmul mean_std nsigcut) (fabs (extremum spectrum)).

(** One round of the inner loop, lines 1010-1021. *)
Definition collapse_step
  (median : list F -> F) (mpfit : solver F F bool (pyobj F))
  (peakfunc : F -> F -> F) (c : cube F) (xax : list F) (negamp usemoments : bool)
  (mean_std nsigcut mppsigcut : F)
  (params : list F) (fixed : list bool) (limitedmin limitedmax : list bool)
  (minpars maxpars : list F) (quiet vheight : bool)
  (maps : fit_maps F) (ij : nat * nat) : result F (fit_maps F) :=
  let '(i, j) := ij in
  let '(_, _, nspec) := cube_shape c in
  let spectrum := spectrum_at c i j in
  if significant negamp mean_std nsigcut spectrum then
    '(mpp, _, mpperr, chi2) <-
      onedpeakfit median mpfit peakfunc (Some xax) spectrum
        (Some (map (fun one => fmul one mean_std) (repeat (of_int 1) nspec)))
        params fixed limitedmin limitedmax minpars maxpars quiet vheight
        (Some negamp) usemoments ;;
    amp <- getitem mpp 1 ;;
    amperr <- getitem mpperr 1 ;;
    if fltb (fmul amperr mppsigcut) (fabs amp) then
      width <- getitem mpp 3 ;;
      offset <- getitem mpp 2 ;;
      widtherr <- getitem mpperr 3 ;;
      offseterr <- getitem mpperr 2 ;;
      ret {| width_arr := set_cell (width_arr maps) i j width;
             offset_arr := set_cell (offset_arr maps) i j offset;
             amp_arr := set_cell (amp_arr maps) i j amp;
             chi2_arr := set_cell (chi2_arr maps) i j chi2;
             width_err := set_cell (width_err maps) i j widtherr;
             offset_err := set_cell (offset_err maps) i j offseterr;
             amp_err := set_cell (amp_err maps) i j amperr |}
    else ret maps
  else ret maps.

(** [collapse_peakfit], lines 985-1033, for [axis=2]; the keyword arguments
    handed on to [onedpeakfit] are written out.  Nothing printed is
    modelled, but the message of lines 1003-1005 reduces the cube along the
    spectral axis, which NumPy refuses when that axis is empty.  The rows of
    the maps follow the second axis of the cube and the columns the first. *)
Definition collapse_peakfit
  (median : list F -> F) (mpfit : solver F F bool (pyobj F))
  (peakfunc : F -> F -> F) (c : cube F) (xax : option (list F))
  (negamp usemoments : bool) (nsigcut mppsigcut : F) (return_errors : bool)
  (params : list F) (fixed : list bool) (limitedmin limitedmax : list bool)
  (minpars maxpars : list F) (quiet vheight : bool)
  : result F (list (list (list F))) :=
  let '(na, nb, nspec) := cube_shape c in
  let mean_std := mean_std_of median c in
  let blank := nan_map nb na in
  let maps := {| width_arr := blank; offset_arr := blank; amp_arr := blank;
                 chi2_arr := blank; width_err := blank; offset_err := blank;
                 amp_err := blank |} in
  let xax := match xax with
             | None => arange nspec
             | Some x => x
             end in
  if (nspec =? 0)%nat
  then raise (NumpyValueError
                (if negamp
                 then "zero-size array to reduction operation minimum"
                 else "zero-size array to reduction operation maximum"))
  else
  maps <- fold_left (fun acc ij =>
                       maps <- acc ;;
                       collapse_step median mpfit peakfunc c xax negamp usemoments
                         mean_std nsigcut mppsigcut params fixed limitedmin limitedmax
                         minpars maxpars quiet vheight maps ij)
                    (indices (nb, na)) (ret maps) ;;
  ret (if return_errors
       then [width_arr maps; offset_arr maps; amp_arr maps;
             width_err maps; offset_err maps; amp_err maps; chi2_arr maps]
       else [width_arr maps; offset_arr maps; amp_arr maps; chi2_arr maps]).

End Collapse.

(** ** Vocabulary of the properties *)

(** The scalar fields of a parameter vector. *)
Inductive field : Type :=
| Height | Amplitude | CenterX | CenterY | Width | WidthX | WidthY | Rotation.

(** The order of the fields as the specification words it, for the
    single-peak decoders and ([multimode]) for the multimode decoder, whose
    amplitudes sit in the tail: height, amplitude, center_y, center_x, the
    shared width or the two widths, the rotation angle. *)
Definition spec_field_order (multimode circle rotate vheight : bool) : list field :=
  (if vheight then [Height] else []) ++
  (if multimode then [] else [Amplitude]) ++
  [CenterY; CenterX] ++
  (if circle then [Width]
   else [WidthX; WidthY] ++ (if rotate then [Rotation] else [])).

(** The order in which the decoders pop: [twodpeak] takes center_y before
    center_x (line 184), [mm_laguerregauss_2d] center_x before center_y
    (line 285). *)
Definition popped_field_order (multimode circle rotate vheight : bool) : list field :=
  (if vheight then [Height] else []) ++
  (if multimode then [CenterX; CenterY] else [Amplitude; CenterY; CenterX]) ++
  (if circle then [Width]
   else [WidthX; WidthY] ++ (if rotate then [Rotation] else [])).

Section Vocabulary.
Context {F : Type} `{Float F} `{Trig F}.

(** The scalar [x] of the vector ended up as the field [f] of [env]. *)
Definition reads (env : peak_params (F:=F)) (f : field) (x : F) : Prop :=
  match f with
  | Height => height env = x
  | Amplitude => amplitude env = x
  | CenterX => center_x env = x
  | CenterY => center_y env = x
  | Width => width_x env = x /\ width_y env = x
  | WidthX => width_x env = x
  | WidthY => width_y env = x
  | Rotation => rota env = Some (radians x)
  end.

Definition mm_reads (env : mm_params (F:=F)) (f : field) (x : F) : Prop :=
  match f with
  | Height => mm_height env = x
  | Amplitude => False
  | CenterX => mm_center_x env = x
  | CenterY => mm_center_y env = x
  | Width => mm_width_x env = x /\ mm_width_y env = x
  | WidthX => mm_width_x env = x
  | WidthY => mm_width_y env = x
  | Rotation => mm_rota env = Some (radians x)
  end.

(** The center a closure subtracts is the decoded center, rotated by the
    angle when there is one. *)
Definition prerotated (cx cy : F) (angle : option F) (rx ry : F) : Prop :=
  match angle with
  | Some a => rx = fsub (fmul cx (np_cos a)) (fmul cy (np_sin a)) /\
              ry = fadd (fmul cx (np_sin a)) (fmul cy (np_cos a))
  | None => rx = cx /\ ry = cy
  end.

(** Two cells with the same mask bit and, when unmasked, the same value. *)
Definition cell_agrees (c1 c2 : F * bool) : Prop :=
  snd c1 = snd c2 /\ (snd c1 = false -> fst c1 = fst c2).

(** Two masked arrays with identical masks and identical values at every
    unmasked position. *)
Definition same_unmasked (d1 d2 : masked_array F) : Prop :=
  ma_shape d1 = ma_shape d2 /\ Forall2 cell_agrees (ma_cells d1) (ma_cells d2).

(** A solver that sees its residual function only through the values the
    function returns. *)
Definition extensional {V B R} (mpfit : solver F V B R) : Prop :=
  forall f g pinfo quiet,
    (forall p, f p = g p) -> mpfit f pinfo quiet = mpfit g pinfo quiet.

(** The per-peak defaults of the six lists of [multipeakfit]. *)
Definition default_of (w : which_list) : list (pyval F) :=
  match w with
  | Params => default_params
  | Fixed | Limitedmax => default_flags
  | Limitedmin => default_limitedmin
  | Minpars | Maxpars => default_limits
  end.

(** The normalization of one list as the specification words it: a list of
    length [3n] stays, a list of length 3 is replicated [n] times, any other
    list is replaced by its own defaults replicated [n] times. *)
Definition spec_normalized (npeak : nat) (w : which_list) (l : list (pyval F))
  : list (pyval F) :=
  if (length l =? 3 * npeak)%nat then l
  else if (length l =? 3)%nat then list_times l npeak
  else list_times (default_of w) npeak.

(** The lists whose comparison comes, in the chain of lines 934-940, before
    a comparison that selects the defaults of [w]. *)
Definition compared_before (w : which_list) : list which_list :=
  match w with
  | Params => []
  | Fixed | Limitedmax => [Params]
  | Limitedmin => [Params; Fixed; Limitedmax]
  | Minpars | Maxpars => [Params; Fixed; Limitedmax; Limitedmin]
  end.

(** The lists of [st], each replicated [k] times. *)
Definition replicate_all (k : nat) (st : peak_lists F) : peak_lists F :=
  {| pl_params := list_times (pl_params st) k;
     pl_fixed := list_times (pl_fixed st) k;
     pl_limitedmin := list_times (pl_limitedmin st) k;
     pl_limitedmax := list_times (pl_limitedmax st) k;
     pl_minpars := list_times (pl_minpars st) k;
     pl_maxpars := list_times (pl_maxpars st) k |}.

(** Stand-ins for the collaborators, for closed examples: a solver run that
    ends with a given result, a solver that stops before its first iteration,
    and a moment estimator with a given answer. *)
Definition solver_returning {V B R} (m : mpfit_result F) : solver F V B R :=
  fun _ _ _ => inr m.

Definition mpfit_no_iteration : solver F F bool (list F) :=
  fun f pinfo quiet =>
    let p := map (fun e => value e) pinfo in
    '(_, r) <- f p ;;
    let nfree := length (filter (fun e => negb (fixed e)) pinfo) in
    let unfit := (length r <? nfree)%nat in
    ret {| mp_params := p;
           mp_perror := map (fun _ => of_int 0) pinfo;
           mp_fnorm := fold_left (fun acc x => fadd acc (fmul x x)) r (of_int 0);
           mp_dof := (Z.of_nat (length r) - Z.of_nat nfree)%Z;
           mp_scalars := NumPyScalars;
           mp_status := if unfit then 0%Z else 5%Z;
           mp_errmsg := if unfit
                        then "ERROR: number of parameters must not exceed data"
                        else "" |}.

Definition moments_giving (answer : list F)
  : masked_array F -> bool -> bool -> bool -> result F (list F) :=
  fun _ _ _ _ => inr answer.

End Vocabulary.

(** ** Vocabulary of the further properties *)

(** The names of the records of [peakfit], in the order of the list handed
    to the solver. *)
Definition peakfit_parnames (circle rotate : bool) : list string :=
  ["HEIGHT"; "AMPLITUDE"; "XSHIFT"; "YSHIFT"; "XWIDTH"] ++
  (if circle then [] else "YWIDTH" :: (if rotate then ["ROTATION"] else [])).

Section FurtherVocabulary.
Context {F : Type} `{Float F}.

(** What one round of the loop of lines 617-619 leaves at its index: the
    upper limit is applied first, the lower limit to the outcome. *)
Definition clamp_one (lo hi : F) (lmin lmax : bool) (p : F) : F :=
  let p := if fltb hi p && lmax then hi else p in
  if fltb p lo && lmin then lo else p.

(** The record [e] holds entry [n e] of each of the six lists. *)
Definition entry_of_lists (params minpars maxpars : list F)
  (limitedmin limitedmax fixed0 : list bool) (e : parinfo F bool) : Prop :=
  nth_error params (n e) = Some (value e) /\
  nth_error minpars (n e) = Some (fst (limits e)) /\
  nth_error maxpars (n e) = Some (snd (limits e)) /\
  nth_error limitedmin (n e) = Some (fst (limited e)) /\
  nth_error limitedmax (n e) = Some (snd (limited e)) /\
  nth_error fixed0 (n e) = Some (fixed e).

(** The entry of a record of [multipeakfit] that comes from the list named
    [w]. *)
Definition record_field (w : which_list) (e : parinfo (pyval F) (pyval F)) : pyval F :=
  match w with
  | Params => value e
  | Fixed => fixed e
  | Limitedmin => fst (limited e)
  | Limitedmax => snd (limited e)
  | Minpars => fst (limits e)
  | Maxpars => snd (limits e)
  end.

(** The fitted parameters in a driver's return value, whatever its shape. *)
Definition returned_params (r : fit_return F) : list F :=
  match r with
  | ReturnMp m => mp_params (mp m)
  | ReturnParamsError p _ => p
  | ReturnParams p => p
  end.

(** A stand-in for the solver that calls its residual function once, at the
    start values, and stops there. *)
Definition mpfit_first_call {R : Type} : solver F F bool R :=
  fun f pinfo quiet =>
    let p := map (fun e => value e) pinfo in
    '(_, _) <- f p ;;
    ret {| mp_params := p;
           mp_perror := map (fun _ => of_int 0) pinfo;
           mp_fnorm := of_int 0;
           mp_dof := 0%Z;
           mp_scalars := NumPyScalars;
           mp_status := 5%Z;
           mp_errmsg := "" |}.

(** The reduced chi-square the code reports: with Python numbers the
    quotient, or not-a-number at zero degrees of freedom; with a NumPy scalar
    the IEEE quotient at every divisor, zero included. *)
Definition reported_chi2n (kind : scalar_kind) (fnorm : F) (dof : Z) : F :=
  match kind with
  | PythonNumbers => if (dof =? 0)%Z then fnan else fdiv fnorm (of_int dof)
  | NumPyScalars => fdiv fnorm (of_int dof)
  end.


(** A solver lets the exception of a residual function that always raises
    reach its caller. *)
Definition propagates {V B R : Type} (mpfit : solver F V B R) : Prop :=
  forall f pinfo q, (forall p, exists e, f p = inl e) -> exists e, mpfit f pinfo q = inl e.

End FurtherVocabulary.

(** ** IEEE binary64 instance *)

(** The interface at Rocq's primitive binary64 floats, the format of a
    Python float.  The operations IEEE 754 defines are the primitive ones;
    the remainder and the integer cast are computed exactly through
    [Prim2SF]. *)
Module Binary64.
Import Floats.

(** [float(z)]: the nearest float, ties to even. *)
Definition float_of_Z (z : Z) : float :=
  SF2Prim (binary_normalize prec emax z 0 false).

(** C's [fmod]: the exact remainder, with the sign of [a]. *)
Definition c_fmod (a b : float) : float :=
  match Prim2SF a, Prim2SF b with
  | S754_nan, _ | _, S754_nan => nan
  | S754_infinity _, _ => nan
  | _, S754_zero _ => nan
  | S754_zero _, _ => a
  | S754_finite _ _ _, S754_infinity _ => a
  | S754_finite sa ma ea, S754_finite _ mb eb =>
      let e := Z.min ea eb in
      let r := Z.rem (Z.pos ma * 2 ^ (ea - e)) (Z.pos mb * 2 ^ (eb - e)) in
      SF2Prim (binary_normalize prec emax (if sa then - r else r)%Z e sa)
  end.

(** NumPy's [remainder] on floats: [fmod] moved to the sign of [b]. *)
Definition float_mod (a b : float) : float :=
  let m := c_fmod a b in
  if is_zero b then m
  else if is_nan m then m
  else if is_zero m then (if get_sign b then neg_zero else zero)
  else if Bool.eqb (ltb b zero) (ltb m zero) then m
  else add m b.

(** The cast of a float stored into an [int64] array: truncation, and the
    "integer indefinite" value for nan and the infinities. *)
Definition float_to_int (a : float) : Z :=
  match Prim2SF a with
  | S754_zero _ => 0
  | S754_finite s m e =>
      let q := if (0 <=? e)%Z then (Z.pos m * 2 ^ e)%Z else (Z.pos m / 2 ^ (- e))%Z in
      if s then (- q)%Z else q
  | _ => (- 2 ^ 63)%Z
  end.

(** [np.finfo(float).tiny] *)
Definition tiny : float := 0x1p-1022%float.

(** The mask numpy.ma's [true_divide] adds: a quotient that is not finite,
    or [abs(a) * tiny >= abs(b)]. *)
Definition float_div_masks (a b : float) : bool :=
  negb (is_finite (div a b)) || leb (abs b) (mul (abs a) tiny).

#[export] Instance float_ops : Float float := {|
  of_int := float_of_Z;
  fadd := add;
  fsub := sub;
  fmul := mul;
  fdiv := div;
  fmod := float_mod;
  fabs := abs;
  fltb := ltb;
  feqb := eqb;
  isnan := is_nan;
  fnan := nan;
  to_int := float_to_int;
  ma_div_masks := float_div_masks
|}.

(** Horner evaluation of [c0 + z*(c1 + z*(c2 + ...))]. *)
Fixpoint horner (coeffs : list float) (z : float) : float :=
  match coeffs with
  | [] => zero
  | c :: rest => add c (mul z (horner rest z))
  end.

(** [k!] *)
Definition Z_fact (k : nat) : Z := fold_left Z.mul (map Z.of_nat (seq 1 k)) 1%Z.

(** [1/k!] for the even and for the odd [k] up to 21, signs alternating. *)
Definition inverse_factorials (odd : bool) : list float :=
  map (fun i => let k := (2 * i + (if odd then 1 else 0))%nat in
                div (float_of_Z (if Nat.even i then 1 else -1))
                    (float_of_Z (Z_fact k)))
      (seq 0 11).

(** Maclaurin polynomials of degree 20 and 21.  The primitive floats have
    no trigonometric functions; these stand for the C library's in the
    closed examples, and are exact at [0]. *)
Definition series_cos (x : float) : float := horner (inverse_factorials false) (mul x x).
Definition series_sin (x : float) : float :=
  mul x (horner (inverse_factorials true) (mul x x)).

#[export] Instance float_trig : Trig float := {|
  np_pi := 0x1.921fb54442d18p+1%float;
  np_cos := series_cos;
  np_sin := series_sin
|}.

(** [min] and [max] as NumPy reduces them: a nan wins. *)
Definition nan_min (a b : float) : float :=
  if is_nan a then a else if is_nan b then b else if ltb b a then b else a.
Definition nan_max (a b : float) : float :=
  if is_nan a then a else if is_nan b then b else if ltb a b then b else a.

Definition float_sum (l : list float) : float := fold_left add l zero.
Definition float_mean (l : list float) : float :=
  div (float_sum l) (float_of_Z (Z.of_nat (length l))).
Definition float_std (l : list float) : float :=
  let m := float_mean l in
  sqrt (float_mean (map (fun x => let d := abs (sub x m) in mul d d) l)).
Definition float_min (l : list float) : float := fold_left nan_min (tl l) (hd nan l).
Definition float_max (l : list float) : float := fold_left nan_max (tl l) (hd nan l).

(** The first index holding [v] (a nan matches a nan). *)
Fixpoint first_index (v : float) (l : list float) : nat :=
  match l with
  | [] => 0
  | x :: rest => if eqb x v || (is_nan x && is_nan v) then 0 else S (first_index v rest)
  end.

(** Sequential reductions; NumPy adds long arrays pairwise, which rounds
    differently from eight elements on. *)
#[export] Instance float_numpy : NumPy float := {|
  np_sum := float_sum;
  np_mean := float_mean;
  np_std := float_std;
  np_min := float_min;
  np_max := float_max;
  np_argmin := fun l => first_index (float_min l) l;
  np_argmax := fun l => first_index (float_max l) l
|}.

Fixpoint insert_sorted (x : float) (l : list float) : list float :=
  match l with
  | [] => [x]
  | y :: rest => if ltb y x then y :: insert_sorted x rest else x :: l
  end.

(** [numpy.ma.median] of an unmasked array without nan. *)
Definition median (l : list float) : float :=
  let s := fold_right insert_sorted [] l in
  let k := length s in
  if Nat.even k
  then div (add (nth (k / 2 - 1) s nan) (nth (k / 2) s nan)) two
  else nth (k / 2) s nan.

(** A Lorentzian peak of unit height, as a kernel for [onedpeak] and
    [n_peak]... *)
Definition lorentz (x w : float) : float :=
  div one (add one (mul (div x w) (div x w))).

(** ...and its two-dimensional form, as a kernel for [twodpeak]. *)
Definition lorentz2d (x y wx wy : float) : float :=
  div one (add (add one (mul (div x wx) (div x wx))) (mul (div y wy) (div y wy))).

End Binary64.

(** ** Inputs of the closed examples *)

Module Fixtures.
Import Floats.
Import Binary64.
Local Open Scope float_scope.

(** A 2 x 2 image, and a 3 x 3 image with its first pixel masked, holding
    one million there in one copy and zero in the other. *)
Definition image : masked_array float :=
  {| ma_shape := (2%nat, 2%nat);
     ma_cells := [(1, false); (0.5, false); (0.5, false); (0.25, false)] |}.
Definition masked_million : masked_array float :=
  {| ma_shape := (3%nat, 3%nat);
     ma_cells := [(1000000, true); (0.5, false); (0.25, false);
                  (0.5, false); (0.25, false); (0.125, false);
                  (0.25, false); (0.125, false); (0.0625, false)] |}.
Definition masked_zero : masked_array float :=
  {| ma_shape := (3%nat, 3%nat);
     ma_cells := [(0, true); (0.5, false); (0.25, false);
                  (0.5, false); (0.25, false); (0.125, false);
                  (0.25, false); (0.125, false); (0.0625, false)] |}.

(** The default arguments of [peakfit]... *)
Definition fixed7 : list bool := repeat false 7.
Definition limitedmin7 : list bool := [false; false; false; false; true; true; true].
Definition limitedmax7 : list bool := [false; false; false; false; false; false; true].
Definition minpars7 : list float := repeat 0 7.
Definition maxpars7 : list float := [0; 0; 0; 0; 0; 0; 180].

(** ...of [mm_laguerregauss2d_fit]... *)
Definition fixed6 : list bool := repeat false 6.
Definition limitedmin6 : list bool := [false; true; true; true; true; true].
Definition limitedmax6 : list bool := [false; false; false; false; false; true].
Definition unlimited6 : list bool := repeat false 6.
Definition minpars6 : list float := repeat 0 6.
Definition maxpars6 : list float := [0; 0; 0; 0; 0; 180].

(** ...and of [multipeakfit]. *)
Definition default_lists : peak_lists float :=
  {| pl_params := default_params; pl_fixed := default_flags;
     pl_limitedmin := default_limitedmin; pl_limitedmax := default_flags;
     pl_minpars := default_limits; pl_maxpars := default_limits |}.

(** The defaults, but one-element [limitedmin] and [limitedmax] lists. *)
Definition clashing_lists : peak_lists float :=
  {| pl_params := default_params; pl_fixed := default_flags;
     pl_limitedmin := [PBool false]; pl_limitedmax := [PBool false];
     pl_minpars := default_limits; pl_maxpars := default_limits |}.

(** A multimode closure that is never evaluated in the examples. *)
Definition no_rotpeak : mm_params (F:=float) -> float -> float -> float :=
  fun _ _ _ => 0.

(** An image of six pixels, as many as [peakfit] has parameters without
    rotation. *)
Definition six_pixels : masked_array float :=
  {| ma_shape := (2%nat, 3%nat);
     ma_cells := [(1, false); (0.5, false); (0.25, false);
                  (0.5, false); (0.25, false); (0.125, false)] |}.

(** Solver results: a multimode fit that ended at 200 degrees with a last
    amplitude of 190; a result with status -16 and a message; a status 0
    without message; a fit with no degree of freedom left, its cost a NumPy
    scalar, and the same with a cost that is a Python float; a failure with
    status 0 and its message. *)
Definition fit_at_200_degrees : mpfit_result float :=
  {| mp_params := [0; 5; 5; 2; 3; 200; 1; 190];
     mp_perror := repeat 0 8; mp_fnorm := 0; mp_dof := 10;
     mp_scalars := NumPyScalars; mp_status := 1; mp_errmsg := "" |}.
Definition overflow_failure : mpfit_result float :=
  {| mp_params := [1; 0; 1]; mp_perror := [0; 0; 0]; mp_fnorm := 0; mp_dof := 0;
     mp_scalars := NumPyScalars; mp_status := (-16)%Z;
     mp_errmsg := "ERROR: parameter or function value(s) have become infinite" |}.
Definition silent_status_zero : mpfit_result float :=
  {| mp_params := [1; 0; 1]; mp_perror := [0; 0; 0]; mp_fnorm := 0; mp_dof := 0;
     mp_scalars := NumPyScalars; mp_status := 0; mp_errmsg := "" |}.
Definition no_degrees_of_freedom : mpfit_result float :=
  {| mp_params := [0; 1; 0; 0; 1; 1]; mp_perror := repeat 0 6; mp_fnorm := 3;
     mp_dof := 0; mp_scalars := NumPyScalars; mp_status := 1; mp_errmsg := "" |}.
Definition python_zero_dof : mpfit_result float :=
  {| mp_params := [0; 1; 0; 0; 1; 1]; mp_perror := repeat 0 6; mp_fnorm := 3;
     mp_dof := 0; mp_scalars := PythonNumbers; mp_status := 1; mp_errmsg := "" |}.

End Fixtures.

(** ** Inputs of the further examples *)

Module MoreFixtures.
Import Floats.
Import Binary64.
Local Open Scope float_scope.

(** Two cubes with three channels: one pixel without signal, and two pixels
    with a peak in the middle channel. *)
Definition flat_cube : cube float :=
  {| cube_shape := (1%nat, 1%nat, 3%nat); spectra := [[[0; 0; 0]]] |}.
Definition peaked_cube : cube float :=
  {| cube_shape := (1%nat, 2%nat, 3%nat); spectra := [[[0; 1; 0]; [0; 0.5; 0]]] |}.

(** The default arguments of [onedpeakfit]. *)
Definition params4 : list float := [0; 1; 0; 1].
Definition fixed4 : list bool := repeat false 4.
Definition limitedmin4 : list bool := [false; false; false; true].
Definition limitedmax4 : list bool := repeat false 4.
Definition limits4 : list float := repeat 0 4.

(** Complex numbers as pairs, and a mode profile without SciPy: stand-ins
    for the closure of the multimode model. *)
Definition pair_scale (a : float) (z : float * float) : float * float :=
  (a * fst z, a * snd z).
Definition pair_shift (h : float) (z : float * float) : float * float :=
  (h + fst z, snd z).
Definition pair_add (z w : float * float) : float * float :=
  (fst z + fst w, snd z + snd w).
Definition pair_abs_sq (z : float * float) : float :=
  fst z * fst z + snd z * snd z.
Definition toy_mode (x y : float) (p l : nat) : float * float :=
  (lorentz2d x y 1 1 * float_of_Z (Z.of_nat (p + 1)), float_of_Z (Z.of_nat l)).

End MoreFixtures.

(** * Properties *)

(** One [bind] of a hypothesis is split into the computation that returned
    and the one that raised. *)
Ltac step_bind Hyp :=
  match type of Hyp with
  | context [bind ?m _] =>
      let E := fresh "E" in
      destruct m eqn:E; cbn [bind] in Hyp; [try discriminate Hyp|]
  end.

(** Case analysis on the first elements of a vector. *)
Ltac split_vector v :=
  do 9 (try (destruct v as [|? v]; cbn [length] in *; try lia)).

(** ** Parameter codec *)

Section CodecProperties.
Context {F : Type} `{Float F} `{Trig F}.

Lemma twodpeak_residual (circle rotate vheight : bool) (v : list F) :
  (length (popped_field_order false circle rotate vheight) < length v)%nat ->
  twodpeak v circle rotate vheight =
  inl (ResidualParameters
         (skipn (length (popped_field_order false circle rotate vheight)) v)
         v circle (rotate && negb circle) vheight).
Proof.
  intros Hlen.
  destruct circle, rotate, vheight; cbn in Hlen; split_vector v; reflexivity.
Qed.

Lemma mm_decode_fields_residual (old amps : list F) (shape : list nat)
  (circle rotate vheight : bool) (v : list F) :
  (length (popped_field_order true circle rotate vheight) < length v)%nat ->
  mm_decode_fields old amps shape circle rotate vheight v =
  inl (ResidualParameters
         (skipn (length (popped_field_order true circle rotate vheight)) v)
         old circle (rotate && negb circle) vheight).
Proof.
  intros Hlen.
  destruct circle, rotate, vheight; cbn in Hlen; split_vector v; reflexivity.
Qed.

Lemma length_tail_slice {A} (k : nat) (l : list A) :
  (k <= length l)%nat -> length (tail_slice k l) = k.
Proof. intros Hk. unfold tail_slice. rewrite length_skipn. lia. Qed.

Lemma length_del_tail {A} (k : nat) (l : list A) :
  length (del_tail k l) = (length l - k)%nat.
Proof. unfold del_tail. rewrite length_firstn. lia. Qed.

Lemma mm_take_amps_enough (max_p max_l : nat) (v : list F) :
  ((max_p + 1) * (max_l + 1) <= length v)%nat ->
  exists shape,
    mm_take_amps max_p max_l v =
    inr ((max_p + 1) * (max_l + 1), tail_slice ((max_p + 1) * (max_l + 1)) v, shape)%nat.
Proof.
  intros Hlen. unfold mm_take_amps.
  destruct (max_l =? 0)%nat eqn:E.
  - apply Nat.eqb_eq in E. subst max_l.
    replace ((max_p + 1) * (0 + 1))%nat with (max_p + 1)%nat in * by lia.
    eexists. reflexivity.
  - rewrite length_tail_slice by exact Hlen. rewrite Nat.eqb_refl.
    eexists. reflexivity.
Qed.

(** C1.  Under every combination of [circle], [rotate] and [vheight], a
    vector longer than the fields of the layout makes the single-peak decoder
    raise the "still input parameters" error, and a vector longer than the
    fields plus the [(max_p+1)*(max_l+1)] amplitudes makes the multimode
    decoder raise it.  The error carries the scalars left in the working
    copy, the vector as given, and the flags ([rotate] as the [circle]
    branch left it).  One extra trailing value is the case of a vector one
    longer than the layout. *)
Theorem residual_parameters_raise (circle rotate vheight : bool)
  (max_p max_l : nat) (v : list F) :
  ((length (popped_field_order false circle rotate vheight) < length v)%nat ->
   twodpeak v circle rotate vheight =
   inl (ResidualParameters
          (skipn (length (popped_field_order false circle rotate vheight)) v)
          v circle (rotate && negb circle) vheight)) /\
  ((length (popped_field_order true circle rotate vheight)
    + (max_p + 1) * (max_l + 1) < length v)%nat ->
   mm_laguerregauss_2d v max_p max_l circle rotate vheight =
   inl (ResidualParameters
          (skipn (length (popped_field_order true circle rotate vheight))
                 (del_tail ((max_p + 1) * (max_l + 1)) v))
          v circle (rotate && negb circle) vheight)).
Proof.
  split.
  - apply twodpeak_residual.
  - intros Hlen. unfold mm_laguerregauss_2d.
    destruct (@mm_take_amps_enough max_p max_l v) as [shape ->]; [lia|].
    cbn [bind].
    rewrite mm_decode_fields_residual; [reflexivity|].
    rewrite length_del_tail. lia.
Qed.

Lemma spec_order_single (circle rotate vheight : bool) :
  spec_field_order false circle rotate vheight =
  popped_field_order false circle rotate vheight.
Proof. destruct circle, rotate, vheight; reflexivity. Qed.

Lemma twodpeak_in_order (circle rotate vheight : bool) (v : list F) :
  length v = length (popped_field_order false circle rotate vheight) ->
  exists env,
    twodpeak v circle rotate vheight = inr env /\
    Forall2 (reads env) (popped_field_order false circle rotate vheight) v /\
    rotate_on env = rotate && negb circle /\
    (vheight = false -> height env = of_int 0) /\
    prerotated (center_x env) (center_y env) (rota env) (rcen_x env) (rcen_y env).
Proof.
  intros Hlen.
  destruct circle, rotate, vheight; cbn in Hlen; split_vector v;
    (eexists; split; [reflexivity|]; cbn;
     repeat split; try discriminate; repeat constructor; cbn; auto).
Qed.

Lemma mm_decode_fields_in_order (old amps : list F) (shape : list nat)
  (circle rotate vheight : bool) (v : list F) :
  length v = length (popped_field_order true circle rotate vheight) ->
  exists env,
    mm_decode_fields old amps shape circle rotate vheight v = inr (env, []) /\
    mm_amps env = amps /\
    Forall2 (mm_reads env) (popped_field_order true circle rotate vheight) v /\
    mm_rotate_on env = rotate && negb circle /\
    (vheight = false -> mm_height env = of_int 0) /\
    prerotated (mm_center_x env) (mm_center_y env) (mm_rota env)
               (mm_rcen_x env) (mm_rcen_y env).
Proof.
  intros Hlen.
  destruct circle, rotate, vheight; cbn in Hlen; split_vector v;
    (eexists; split; [reflexivity|]; cbn;
     repeat split; try discriminate; repeat constructor; cbn; auto).
Qed.

(** C2, amended.  A vector of the length of the layout is decoded, and its
    scalars become the fields in this order.  Single-peak decoder: height
    (only with [vheight], else the height is 0), amplitude, center_y,
    center_x, one shared width with [circle] (rotation then off) or width_x
    and width_y, then with [rotate] the angle in degrees, kept in radians
    and used to rotate the center.  Multimode decoder: the amplitudes are
    the [(max_p+1)*(max_l+1)] last scalars, and the rest is height,
    center_x, center_y (in that order), the width or the two widths, the
    angle. *)
Theorem decoders_pop_in_order (circle rotate vheight : bool)
  (max_p max_l : nat) (v : list F) :
  (length v = length (spec_field_order false circle rotate vheight) ->
   exists env,
     twodpeak v circle rotate vheight = inr env /\
     Forall2 (reads env) (spec_field_order false circle rotate vheight) v /\
     rotate_on env = rotate && negb circle /\
     (vheight = false -> height env = of_int 0) /\
     prerotated (center_x env) (center_y env) (rota env) (rcen_x env) (rcen_y env)) /\
  (length v = (length (popped_field_order true circle rotate vheight)
               + (max_p + 1) * (max_l + 1))%nat ->
   exists env,
     mm_laguerregauss_2d v max_p max_l circle rotate vheight = inr env /\
     mm_amps env = tail_slice ((max_p + 1) * (max_l + 1)) v /\
     Forall2 (mm_reads env) (popped_field_order true circle rotate vheight)
             (del_tail ((max_p + 1) * (max_l + 1)) v) /\
     mm_rotate_on env = rotate && negb circle /\
     (vheight = false -> mm_height env = of_int 0) /\
     prerotated (mm_center_x env) (mm_center_y env) (mm_rota env)
                (mm_rcen_x env) (mm_rcen_y env)).
Proof.
  split.
  - rewrite spec_order_single. apply twodpeak_in_order.
  - intros Hlen. unfold mm_laguerregauss_2d.
    destruct (@mm_take_amps_enough max_p max_l v) as [shape ->]; [lia|].
    cbn [bind].
    destruct (@mm_decode_fields_in_order v
                (tail_slice ((max_p + 1) * (max_l + 1)) v) shape
                circle rotate vheight (del_tail ((max_p + 1) * (max_l + 1)) v))
      as (env & -> & Hamps & Hrest).
    + rewrite length_del_tail. lia.
    + exists env. cbn. split; [reflexivity|]. split; assumption.
Qed.


End CodecProperties.

(** ** Masked residual *)

Section MaskProperties.
Context {F : Type} `{Float F} `{Trig F}.

Lemma agrees_length (cs1 cs2 : list (F * bool)) :
  Forall2 cell_agrees cs1 cs2 -> length cs1 = length cs2.
Proof. induction 1; cbn; congruence. Qed.

Lemma agrees_sub (cs1 cs2 : list (F * bool)) (model : list F) :
  Forall2 cell_agrees cs1 cs2 ->
  Forall2 cell_agrees
    (map (fun '((v, m), x) => (if m : bool then v else fsub v x, m)) (combine cs1 model))
    (map (fun '((v, m), x) => (if m : bool then v else fsub v x, m)) (combine cs2 model)).
Proof.
  intros Hag. revert model.
  induction Hag as [|[v1 m1] [v2 m2] cs1 cs2 [Hm Hv] _ IH]; intros [|x model]; cbn;
    try constructor; auto.
  cbn in Hm, Hv. subst m2. split; cbn; [reflexivity|].
  intros ->. rewrite (Hv eq_refl). reflexivity.
Qed.

Lemma agrees_div_cell (c1 c2 : F * bool) (e : F) :
  cell_agrees c1 c2 -> cell_agrees (ma_div_cell c1 e) (ma_div_cell c2 e).
Proof.
  destruct c1 as [v1 m1], c2 as [v2 m2]. intros [Hm Hv]. cbn in Hm, Hv. subst m2.
  destruct m1; cbn.
  - split; cbn; [reflexivity|discriminate].
  - rewrite (Hv eq_refl). split; reflexivity.
Qed.

Lemma agrees_div_scalar (cs1 cs2 : list (F * bool)) (e : F) :
  Forall2 cell_agrees cs1 cs2 ->
  Forall2 cell_agrees (map (fun c => ma_div_cell c e) cs1)
                      (map (fun c => ma_div_cell c e) cs2).
Proof. induction 1; cbn; constructor; auto using agrees_div_cell. Qed.

Lemma agrees_div_array (cs1 cs2 : list (F * bool)) (e : list F) :
  Forall2 cell_agrees cs1 cs2 ->
  Forall2 cell_agrees (map (fun '(c, x) => ma_div_cell c x) (combine cs1 e))
                      (map (fun '(c, x) => ma_div_cell c x) (combine cs2 e)).
Proof.
  intros Hag. revert e.
  induction Hag; intros [|x0 e]; cbn; constructor; auto using agrees_div_cell.
Qed.

Lemma agrees_compressed (cs1 cs2 : list (F * bool)) :
  Forall2 cell_agrees cs1 cs2 ->
  map fst (filter (fun c => negb (snd c)) cs1) =
  map fst (filter (fun c => negb (snd c)) cs2).
Proof.
  induction 1 as [|[v1 m1] [v2 m2] cs1 cs2 [Hm Hv] _ IH]; cbn; [reflexivity|].
  cbn in Hm, Hv. subst m2. destruct m1; cbn; [exact IH|].
  rewrite (Hv eq_refl), IH. reflexivity.
Qed.

(** The residual of a data array against a model image depends on the
    data through its unmasked cells only. *)
Lemma residual_same_unmasked (d1 d2 : masked_array F) (model : list F)
  (err : option (list F)) :
  same_unmasked d1 d2 ->
  (delta <- ma_div_err (ma_sub d1 model) err ;; ret (0%Z, compressed delta)) =
  (delta <- ma_div_err (ma_sub d2 model) err ;; @ret F _ (0%Z, compressed delta)).
Proof.
  intros [Hshape Hcells].
  pose proof (agrees_sub model Hcells) as Hsub.
  unfold ma_div_err, ma_sub. cbn [ma_cells ma_shape].
  destruct err as [e|].
  - rewrite (agrees_length Hsub).
    destruct (length e =? _)%nat; [|reflexivity].
    cbn. unfold compressed. cbn [ma_cells].
    rewrite (agrees_compressed (agrees_div_array e Hsub)). reflexivity.
  - cbn. unfold compressed. cbn [ma_cells].
    rewrite (agrees_compressed (agrees_div_scalar (of_int 1) Hsub)). reflexivity.
Qed.

Lemma mpfitfun_same_unmasked (peakfunc : F -> F -> F -> F -> F)
  (circle rotate vheight : bool) (d1 d2 : masked_array F) (err : option (list F)) :
  same_unmasked d1 d2 ->
  forall p, mpfitfun peakfunc circle rotate vheight d1 err p =
            mpfitfun peakfunc circle rotate vheight d2 err p.
Proof.
  intros Hsame p. unfold mpfitfun.
  destruct (twodpeak p circle rotate vheight) as [e|twodp]; [reflexivity|].
  cbn [bind]. destruct Hsame as [Hshape Hcells]. rewrite Hshape.
  apply residual_same_unmasked. split; assumption.
Qed.

(** C4.  For two masked arrays with identical masks and identical values at
    every unmasked position, the residual function [peakfit] builds returns
    the same output (or raises the same error) at every parameter vector and
    under every flag combination; and [peakfit] itself returns the same
    result for both, given a solver that sees the residual function through
    its values only and a moment estimator that answers the same for both
    arrays (it is consulted only when start values are missing). *)
Theorem peakfit_ignores_masked_values
  (moments : masked_array F -> bool -> bool -> bool -> result F (list F))
  (mpfit : solver F F bool (list F))
  (peakfunc : F -> F -> F -> F -> F) (d1 d2 : masked_array F) (err : option (list F))
  (params : list F) (autoderiv return_error circle : bool) (fixed : list bool)
  (limitedmin limitedmax : list bool) (usemoment : list bool)
  (minpars maxpars : list F) (rotate vheight quiet returnmp returnfitimage : bool) :
  same_unmasked d1 d2 ->
  extensional mpfit ->
  moments d1 circle rotate vheight = moments d2 circle rotate vheight ->
  (forall c r h p, mpfitfun peakfunc c r h d1 err p = mpfitfun peakfunc c r h d2 err p) /\
  peakfit moments mpfit peakfunc d1 err params autoderiv return_error circle fixed
          limitedmin limitedmax usemoment minpars maxpars rotate vheight quiet
          returnmp returnfitimage =
  peakfit moments mpfit peakfunc d2 err params autoderiv return_error circle fixed
          limitedmin limitedmax usemoment minpars maxpars rotate vheight quiet
          returnmp returnfitimage.
Proof.
  intros Hsame Hext Hmom. split.
  - intros c r h. apply mpfitfun_same_unmasked. exact Hsame.
  - assert (Hsetup :
      peakfit_setup moments d1 params circle fixed limitedmin limitedmax usemoment
                    minpars maxpars rotate vheight =
      peakfit_setup moments d2 params circle fixed limitedmin limitedmax usemoment
                    minpars maxpars rotate vheight).
    { unfold peakfit_setup, peakfit_start. rewrite Hmom. reflexivity. }
    unfold peakfit. rewrite Hsetup.
    destruct (peakfit_setup moments d2 _ _ _ _ _ _ _ _ _ _) as [e|pinfo];
      [reflexivity|].
    cbn [bind]. destruct autoderiv; [|reflexivity]. cbn [negb].
    rewrite (Hext _ _ pinfo quiet
               (mpfitfun_same_unmasked peakfunc circle rotate true err Hsame)).
    destruct Hsame as [-> _]. reflexivity.
Qed.

Lemma mpfit_no_iteration_extensional : extensional (mpfit_no_iteration (F:=F)).
Proof.
  intros f g pinfo quiet Hfg. unfold mpfit_no_iteration. rewrite Hfg. reflexivity.
Qed.

End MaskProperties.

(** ** After the solver *)

Section FitProperties.
Context {F : Type} `{Float F} `{Trig F}.

Lemma reduced_chi2_value (kind : scalar_kind) (fnorm : F) (dof : Z) :
  reduced_chi2 kind fnorm dof = inr (reported_chi2n kind fnorm dof).
Proof.
  unfold reduced_chi2, py_truediv, reported_chi2n.
  destruct kind; [destruct (dof =? 0)%Z|]; reflexivity.
Qed.

(** What [after_fit] returns when it returns. *)
Lemma after_fit_inv (circle rotate : bool) (m : mpfit_result F) (ft : fitted F) :
  after_fit circle rotate m = inr ft ->
  mp_errmsg m = "" /\
  (if negb circle && rotate
   then mp_params m <> [] /\
        mp_params (mp ft) =
        removelast (mp_params m) ++ [fmod (last (mp_params m) (of_int 0)) (of_int 180)]
   else mp_params (mp ft) = mp_params m) /\
  mp_perror (mp ft) = mp_perror m /\
  mp_fnorm (mp ft) = mp_fnorm m /\ mp_dof (mp ft) = mp_dof m /\
  chi2 ft = mp_fnorm m /\
  chi2n ft = reported_chi2n (mp_scalars m) (mp_fnorm m) (mp_dof m).
Proof.
  unfold after_fit. intros Hft.
  destruct (String.eqb (mp_errmsg m) "") eqn:Emsg; cbn [negb] in Hft; [|discriminate].
  apply String.eqb_eq in Emsg. rewrite reduced_chi2_value in Hft.
  destruct (negb circle && rotate).
  - unfold wrap_last in Hft. destruct (mp_params m) eqn:Ep; [discriminate|].
    cbn [bind] in Hft. injection Hft as <-. cbn.
    repeat split; auto; discriminate.
  - cbn [bind] in Hft. injection Hft as <-. cbn. repeat split; auto.
Qed.



(** [a[-1] %= 180.0] leaves every entry but the last. *)
Lemma wrap_last_entries (l l' : list F) :
  wrap_last l = inr l' ->
  length l' = length l /\
  nth_error l' (length l - 1) = Some (fmod (last l (of_int 0)) (of_int 180)) /\
  (forall i, i <> (length l - 1)%nat -> nth_error l' i = nth_error l i).
Proof.
  intros Hl.
  assert (Hne : l <> []) by (intros ->; discriminate Hl).
  assert (Hl' : l' = removelast l ++ [fmod (last l (of_int 0)) (of_int 180)]).
  { unfold wrap_last in Hl. destruct l; [contradiction|].
    injection Hl as <-. reflexivity. }
  clear Hl. subst l'.
  assert (Hpos : (0 < length l)%nat) by (destruct l; [contradiction|cbn; lia]).
  assert (Hrem : length (removelast l) = (length l - 1)%nat).
  { rewrite removelast_firstn_len, length_firstn. lia. }
  split; [rewrite length_app, Hrem; cbn; lia|]. split.
  - rewrite nth_error_app2 by (rewrite Hrem; lia).
    rewrite Hrem, Nat.sub_diag. reflexivity.
  - intros i Hi.
    destruct (Nat.lt_ge_cases i (length l - 1)) as [Hlt|Hge].
    + rewrite nth_error_app1 by (rewrite Hrem; exact Hlt).
      rewrite (app_removelast_last (of_int 0) Hne) at 2.
      rewrite nth_error_app1 by (rewrite Hrem; exact Hlt). reflexivity.
    + transitivity (@None F); [|symmetry]; apply nth_error_None.
      * rewrite length_app, Hrem. cbn. lia.
      * lia.
Qed.

(** An elliptical, rotated fit: [after_fit] wraps the last entry of the
    solver's vector and returns the others as they are.  In the vector of
    [peakfit], [height, amplitude, x, y, width_x, width_y, rota], the last
    entry is the angle. *)
Lemma after_fit_wraps_last_entry (m : mpfit_result F) (ft : fitted F) :
  after_fit false true m = inr ft ->
  nth_error (mp_params (mp ft)) (length (mp_params m) - 1)
  = Some (fmod (last (mp_params m) (of_int 0)) (of_int 180)) /\
  (forall i, i <> (length (mp_params m) - 1)%nat ->
             nth_error (mp_params (mp ft)) i = nth_error (mp_params m) i).
Proof.
  unfold after_fit. intros Hft.
  destruct (negb (String.eqb (mp_errmsg m) "")); [discriminate|].
  cbn [negb andb] in Hft. step_bind Hft.
  rewrite reduced_chi2_value in Hft. cbn [bind] in Hft. injection Hft as <-.
  cbn [mp mp_params].
  match goal with E : wrap_last _ = inr _ |- _ =>
    destruct (wrap_last_entries _ E) as (_ & Hlast & Hothers) end.
  split; assumption.
Qed.

(** In the vector of [mm_laguerregauss2d_fit], [height, x, y, width_x,
    width_y, rota, amplitudes...], the angle is entry 5 and is followed by
    at least one amplitude: [after_fit] returns it as the solver left it. *)
Lemma mm_rotation_entry_untouched (m : mpfit_result F) (ft : fitted F) :
  after_fit false true m = inr ft ->
  (6 < length (mp_params m))%nat ->
  nth_error (mp_params (mp ft)) 5 = nth_error (mp_params m) 5.
Proof.
  intros Hft Hlen.
  destruct (after_fit_wraps_last_entry _ Hft) as [_ Hothers].
  apply Hothers. lia.
Qed.

(** Without a message, and with a last entry to wrap where one is wrapped,
    [after_fit] returns: the chi-square is the final cost and the reduced
    chi-square is [reported_chi2n]. *)
Lemma after_fit_returns (circle rotate : bool) (m : mpfit_result F) :
  mp_errmsg m = "" ->
  (negb circle && rotate = true -> mp_params m <> []) ->
  exists ft,
    after_fit circle rotate m = inr ft /\
    chi2 ft = mp_fnorm m /\
    chi2n ft = reported_chi2n (mp_scalars m) (mp_fnorm m) (mp_dof m).
Proof.
  intros Hmsg Hlast. unfold after_fit. rewrite Hmsg. cbn [String.eqb negb].
  rewrite reduced_chi2_value.
  destruct (negb circle && rotate).
  - unfold wrap_last. destruct (mp_params m); [exfalso; exact (Hlast eq_refl eq_refl)|].
    cbn [bind]. eexists. repeat split.
  - cbn [bind]. eexists. repeat split.
Qed.

(** X23.  What the two image drivers report when the fit went through.  Let
    the set-up succeed and the solver return [m] with an empty message (and
    a non-empty vector where the last entry is wrapped).  Then [peakfit] and
    [mm_laguerregauss2d_fit], asked for the solver object and no fitted
    image, return it and raise nothing; the reported [chi2] is the final
    cost [mp_fnorm m]; the reported [chi2n] is [mp_fnorm m / mp_dof m] when
    [mp_dof m] is not zero; at zero degrees of freedom it is not-a-number
    when cost and degrees of freedom are Python numbers, and the IEEE
    quotient [mp_fnorm m / 0] when the cost is a NumPy scalar, for which the
    division does not raise and the except clause of lines 674-677 and
    520-523 does not run. *)
Theorem drivers_report_chi_square
  (moments : masked_array F -> bool -> bool -> bool -> result F (list F))
  (mpfit : solver F F bool (list F))
  (mm_rotpeak : mm_params (F:=F) -> F -> F -> F)
  (peakfunc : F -> F -> F -> F -> F) (data : masked_array F) (max_p max_l : nat)
  (err : option (list F))
  (params : list F) (return_error circle : bool) (fixed : list bool)
  (limitedmin limitedmax : list bool) (usemoment : list bool)
  (minpars maxpars : list F) (minamp maxamp : F) (limitedampmin limitedampmax : bool)
  (rotate vheight quiet : bool) (m : mpfit_result F) :
  mp_errmsg m = "" ->
  (negb circle && rotate = true -> mp_params m <> []) ->
  (forall pinfo,
      peakfit_setup moments data params circle fixed limitedmin limitedmax usemoment
                    minpars maxpars rotate vheight = inr pinfo ->
      mpfit (mpfitfun peakfunc circle rotate true data err) pinfo quiet = inr m ->
      exists ft,
        peakfit moments mpfit peakfunc data err params true return_error circle fixed
                limitedmin limitedmax usemoment minpars maxpars rotate vheight quiet
                true false = inr (ReturnMp ft, None) /\
        chi2 ft = mp_fnorm m /\
        chi2n ft = reported_chi2n (mp_scalars m) (mp_fnorm m) (mp_dof m)) /\
  (forall start amps pinfo,
      mm_setup moments data max_p max_l params circle fixed limitedmin limitedmax
               usemoment minpars maxpars minamp maxamp limitedampmin limitedampmax
               rotate vheight = inr (start, amps, pinfo) ->
      mpfit (mm_mpfitfun mm_rotpeak max_p max_l circle rotate true data err)
            pinfo quiet = inr m ->
      exists ft,
        mm_laguerregauss2d_fit mm_rotpeak moments mpfit data max_p max_l err params
                true return_error circle fixed limitedmin limitedmax usemoment
                minpars maxpars minamp maxamp limitedampmin limitedampmax
                rotate vheight quiet true false = inr (ReturnMp ft, None) /\
        chi2 ft = mp_fnorm m /\
        chi2n ft = reported_chi2n (mp_scalars m) (mp_fnorm m) (mp_dof m)) /\
  (mp_dof m <> 0%Z ->
   reported_chi2n (mp_scalars m) (mp_fnorm m) (mp_dof m)
   = fdiv (mp_fnorm m) (of_int (mp_dof m))) /\
  (mp_dof m = 0%Z ->
   reported_chi2n (mp_scalars m) (mp_fnorm m) (mp_dof m)
   = match mp_scalars m with
     | PythonNumbers => fnan
     | NumPyScalars => fdiv (mp_fnorm m) (of_int 0)
     end).
Proof.
  intros Hmsg Hlast.
  destruct (after_fit_returns circle rotate m Hmsg Hlast) as (ft & Hft & Hchi2 & Hchi2n).
  split; [|split; [|split]].
  - intros pinfo Hsetup Hrun. exists ft. split; [|split; assumption].
    unfold peakfit. rewrite Hsetup. cbn [bind negb]. rewrite Hrun. cbn [bind].
    rewrite Hft. cbn [bind]. reflexivity.
  - intros start amps pinfo Hsetup Hrun. exists ft. split; [|split; assumption].
    unfold mm_laguerregauss2d_fit. rewrite Hsetup. cbn [bind negb]. rewrite Hrun.
    cbn [bind]. rewrite Hft. cbn [bind]. reflexivity.
  - intros Hdof. unfold reported_chi2n. apply Z.eqb_neq in Hdof. rewrite Hdof.
    destruct (mp_scalars m); reflexivity.
  - intros Hdof. unfold reported_chi2n. rewrite Hdof. destruct (mp_scalars m); reflexivity.
Qed.



End FitProperties.

(** ** Moment estimator and one-dimensional residual *)

Section MomentProperties.
Context {F : Type} `{Float F} `{NumPy F}.

Lemma bool_index_mask (a : list F) (f : F -> bool) (data : list F) :
  length a = length data ->
  exists r, bool_index a (map f data) = @inr (pyerror F) _ r.
Proof.
  intros Hlen. unfold bool_index. rewrite length_map, Hlen, Nat.eqb_refl.
  eexists. reflexivity.
Qed.

Lemma getitem_in_range {A} (l : list A) (i : nat) :
  (i < length l)%nat -> exists a, getitem l i = @inr (pyerror F) _ a.
Proof.
  intros Hi. unfold getitem.
  destruct (nth_error l i) eqn:E; [eexists; reflexivity|].
  apply nth_error_None in E. lia.
Qed.

(** On a non-empty array with an abscissa of the same length the four
    estimates are computed: nothing before the nan test raises. *)
Lemma onedmoments_estimates_total (Xax data : list F) (estimator : list F -> F)
  (negamp : option bool) :
  data <> [] -> length Xax = length data ->
  (np_argmin data < length data)%nat -> (np_argmax data < length data)%nat ->
  exists t, onedmoments_estimates Xax data estimator negamp = inr t.
Proof.
  intros Hne Hlen Hmin Hmax. unfold onedmoments_estimates.
  destruct data as [|d data]; [contradiction|]. cbn [length Nat.eqb].
  destruct (bool_index_mask Xax (fun x => fltb x (np_mean (d :: data))) (d :: data) Hlen)
    as [lower ->].
  destruct (bool_index_mask Xax (fun x => fltb (np_mean (d :: data)) x) (d :: data) Hlen)
    as [upper ->].
  cbn [bind].
  destruct (@getitem_in_range _ Xax (np_argmin (d :: data))) as [lo ->]; [lia|].
  destruct (@getitem_in_range _ Xax (np_argmax (d :: data))) as [hi ->]; [lia|].
  cbn [bind].
  destruct negamp as [[|]|]; [| |destruct (fltb _ _)]; eexists; reflexivity.
Qed.

(** C9.  For a non-empty data array with an abscissa of the same length
    (and NumPy's [argmin] and [argmax] answering an index of the array),
    [onedmoments] computes its four estimates; it raises exactly when the
    width, the height or the amplitude is not-a-number, and the error is then
    "something is nan"; otherwise it returns [height, amplitude, center,
    width], the height only with [vheight]. *)
Theorem onedmoments_nan_check (Xax data : list F) (vheight : bool)
  (estimator : list F -> F) (negamp : option bool) :
  data <> [] -> length Xax = length data ->
  (np_argmin data < length data)%nat -> (np_argmax data < length data)%nat ->
  exists height amplitude xcen width_x,
    onedmoments_estimates Xax data estimator negamp
    = inr (height, amplitude, xcen, width_x) /\
    ((exists e, onedmoments Xax data vheight estimator negamp = inl e) <->
     isnan width_x = true \/ isnan height = true \/ isnan amplitude = true) /\
    (isnan width_x = true \/ isnan height = true \/ isnan amplitude = true ->
     onedmoments Xax data vheight estimator negamp = inl SomethingIsNan) /\
    (isnan width_x = false /\ isnan height = false /\ isnan amplitude = false ->
     onedmoments Xax data vheight estimator negamp
     = inr (if vheight then [height; amplitude; xcen; width_x]
            else [amplitude; xcen; width_x])).
Proof.
  intros Hne Hlen Hmin Hmax.
  destruct (onedmoments_estimates_total Xax estimator negamp Hne Hlen Hmin Hmax)
    as [[[[height amplitude] xcen] width_x] Hest].
  exists height, amplitude, xcen, width_x. split; [exact Hest|].
  unfold onedmoments. rewrite Hest. cbn [bind].
  destruct (isnan width_x), (isnan height), (isnan amplitude); cbn;
    repeat split; intros; try reflexivity; try tauto;
      try (eexists; reflexivity);
      repeat match goal with
             | Hx : exists _, _ |- _ => destruct Hx
             | Hx : _ \/ _ |- _ => destruct Hx
             | Hx : _ /\ _ |- _ => destruct Hx
             end; try discriminate; auto.
Qed.

Lemma oned_mpfitfun_type_error (peakfunc : F -> F -> F) (x y : list F)
  (err : option (list F)) (p : list F) :
  oned_mpfitfun peakfunc x y err p =
  inl (TypeError (if (length p =? 4)%nat
                  then "'numpy.ndarray' object is not callable"
                  else "onedpeak() takes 6 positional arguments")).
Proof.
  unfold oned_mpfitfun.
  do 6 (try (destruct p as [|? p])); reflexivity.
Qed.

(** C10.  The residual function [onedpeakfit] hands to the solver raises a
    [TypeError] at every parameter vector, for every abscissa, data, error
    array and peak function; [collapse_peakfit] calls [onedpeakfit] for every
    pixel it fits (lines 1012-1014), so each of those fits is covered.  It calls [onedpeak(x, *p, peakfunc)]: with four
    parameters the abscissa array is bound to [peakfunc] and [p[0]] to [x],
    and the body calls the array; with any other count the call is refused
    for its number of arguments.  No residual vector is produced. *)
Theorem onedpeakfit_residual_raises (peakfunc : F -> F -> F) (x y : list F)
  (err : option (list F)) (p : list F) :
  oned_mpfitfun peakfunc x y err p =
  inl (TypeError (if (length p =? 4)%nat
                  then "'numpy.ndarray' object is not callable"
                  else "onedpeak() takes 6 positional arguments")).
Proof. apply oned_mpfitfun_type_error. Qed.

(** Every call of [onedpeakfit] that reaches a solver which evaluates the
    residual function, and lets its exceptions through, raises. *)
Lemma onedpeakfit_never_returns (median : list F -> F)
  (mpfit : solver F F bool (pyobj F))
  (peakfunc : F -> F -> F) (xax : option (list F)) (data : list F)
  (err : option (list F)) (params : list F) (fixed : list bool)
  (limitedmin limitedmax : list bool) (minpars maxpars : list F)
  (quiet vheight : bool) (negamp : option bool) (usemoments : bool) :
  (forall f pinfo q, (forall p, exists e, f p = inl e) -> exists e, mpfit f pinfo q = inl e) ->
  exists e, onedpeakfit median mpfit peakfunc xax data err params fixed
                        limitedmin limitedmax minpars maxpars quiet vheight
                        negamp usemoments = inl e.
Proof.
  intros Hprop. unfold onedpeakfit.
  repeat match goal with
         | |- exists e, bind (mpfit _ _ _) _ = inl e => fail 1
         | |- exists e, bind ?m _ = inl e =>
             destruct m as [e0|?]; [exists e0; reflexivity|]; cbn [bind]
         | |- exists e, match ?p with pair _ _ => _ end = inl e => destruct p
         end.
  match goal with
  | |- context [mpfit ?f ?pi ?q] => destruct (Hprop f pi q) as [e He]
  end.
  - intros p. rewrite oned_mpfitfun_type_error. eexists. reflexivity.
  - rewrite He. exists e. reflexivity.
Qed.

End MomentProperties.

(** ** Multi-peak lists and mode metadata *)

Section NormalizeProperties.
Context {F : Type} `{Float F}.

Lemma length_list_times {A} (l : list A) (k : nat) :
  length (list_times l k) = (k * length l)%nat.
Proof.
  unfold list_times. induction k as [|k IH]; cbn; [reflexivity|].
  rewrite length_app, IH. reflexivity.
Qed.

Lemma pylist_eqb_length (a b : list (pyval F)) :
  pylist_eqb a b = true -> length a = length b.
Proof.
  revert b. induction a as [|x a IH]; intros [|y b]; cbn; try discriminate; auto.
  intros Heq. apply andb_prop in Heq. destruct Heq as [_ Heq]. f_equal. auto.
Qed.

Lemma pylist_eqb_other_length (a b : list (pyval F)) :
  length a <> length b -> pylist_eqb a b = false.
Proof.
  intros Hne. destruct (pylist_eqb a b) eqn:E; [|reflexivity].
  apply pylist_eqb_length in E. contradiction.
Qed.

Lemma get_set_same (w : which_list) (l : list (pyval F)) (st : peak_lists F) :
  get_list w (set_list w l st) = l.
Proof. destruct w; reflexivity. Qed.

Lemma get_set_other (w w' : which_list) (l : list (pyval F)) (st : peak_lists F) :
  w <> w' -> get_list w' (set_list w l st) = get_list w' st.
Proof. destruct w, w'; intros Hne; try reflexivity; contradiction. Qed.

(** A round of the loop touches the list of its turn only. *)
Lemma fix_length_other (npeak : nat) (st : peak_lists F) (w w' : which_list) :
  w <> w' -> get_list w' (fix_length npeak st w) = get_list w' st.
Proof.
  intros Hne. unfold fix_length.
  repeat match goal with
         | |- context [if ?c then _ else _] => destruct c
         end; auto using get_set_other.
Qed.

(** A round of the loop normalizes its list as specified when the list,
    if it is of a wrong length, does not compare equal to a list whose
    defaults differ. *)
Lemma fix_length_self (npeak : nat) (st : peak_lists F) (w : which_list) :
  (length (get_list w st) <> 3 * npeak -> length (get_list w st) <> 3 ->
   forall w', In w' (compared_before w) ->
              pylist_eqb (get_list w st) (get_list w' st) = false)%nat ->
  get_list w (fix_length npeak st w) = spec_normalized npeak w (get_list w st).
Proof.
  intros Hcmp. unfold fix_length, spec_normalized.
  destruct (length (get_list w st) =? 3 * npeak)%nat eqn:E;
    cbn [negb]; [reflexivity|].
  apply Nat.eqb_neq in E.
  destruct (length (get_list w st) =? 3)%nat eqn:E3; [apply get_set_same|].
  apply Nat.eqb_neq in E3. specialize (Hcmp E E3).
  unfold parlist_is.
  destruct w; cbn [which_eqb orb compared_before In] in *;
    try rewrite (Hcmp Params) by tauto; try rewrite (Hcmp Fixed) by tauto;
    try rewrite (Hcmp Limitedmax) by tauto; try rewrite (Hcmp Limitedmin) by tauto;
    rewrite ?orb_true_r; cbn [orb]; apply get_set_same.
Qed.

(** After its round a list has length [3*npeak], whatever it compared
    equal to. *)
Lemma fix_length_length (npeak : nat) (st : peak_lists F) (w : which_list) :
  length (get_list w (fix_length npeak st w)) = (3 * npeak)%nat.
Proof.
  unfold fix_length.
  destruct (length (get_list w st) =? 3 * npeak)%nat eqn:E;
    cbn [negb]; [apply Nat.eqb_eq; exact E|].
  destruct (length (get_list w st) =? 3)%nat eqn:E3.
  - apply Nat.eqb_eq in E3. rewrite get_set_same, length_list_times, E3. lia.
  - unfold parlist_is.
    destruct w; cbn [which_eqb orb]; rewrite ?orb_true_r;
      repeat match goal with
             | |- context [if ?c then _ else _] => destruct c
             end; rewrite get_set_same, length_list_times; cbn; lia.
Qed.

(** A list of length [3*npeak] keeps that length through every round. *)
Lemma fix_length_keeps (npeak : nat) (st : peak_lists F) (w w' : which_list) :
  length (get_list w' st) = (3 * npeak)%nat ->
  length (get_list w' (fix_length npeak st w)) = (3 * npeak)%nat.
Proof.
  intros Hlen.
  destruct (which_eqb w w') eqn:E.
  - assert (w = w') by (destruct w, w'; try discriminate; reflexivity). subst w'.
    apply fix_length_length.
  - rewrite fix_length_other; [exact Hlen|].
    intros ->. destruct w'; discriminate.
Qed.

Lemma length_spec_normalized (npeak : nat) (w : which_list) (l : list (pyval F)) :
  length (spec_normalized npeak w l) = (3 * npeak)%nat.
Proof.
  unfold spec_normalized.
  destruct (length l =? 3 * npeak)%nat eqn:E1; [apply Nat.eqb_eq; exact E1|].
  destruct (length l =? 3)%nat eqn:E2.
  - apply Nat.eqb_eq in E2. rewrite length_list_times, E2. lia.
  - rewrite length_list_times. destruct w; cbn; lia.
Qed.

(** Lines 928-941 normalize every list as specified, unless [limitedmin]
    is of a wrong length and compares equal to [limitedmax]. *)
Lemma normalize_lists_spec (npeak : nat) (st : peak_lists F) (w : which_list) :
  (w = Limitedmin ->
   length (pl_limitedmin st) = 3 * npeak \/ length (pl_limitedmin st) = 3 \/
   pylist_eqb (pl_limitedmin st) (pl_limitedmax st) = false)%nat ->
  get_list w (normalize_lists npeak st) = spec_normalized npeak w (get_list w st).
Proof.
  intros Hclash. unfold normalize_lists. cbn [fold_left].
  set (st1 := fix_length npeak st Params).
  set (st2 := fix_length npeak st1 Fixed).
  set (st3 := fix_length npeak st2 Limitedmin).
  set (st4 := fix_length npeak st3 Limitedmax).
  set (st5 := fix_length npeak st4 Minpars).
  assert (Lp1 : length (get_list Params st1) = (3 * npeak)%nat)
    by apply fix_length_length.
  assert (Lp2 : length (get_list Params st2) = (3 * npeak)%nat)
    by (apply fix_length_keeps; exact Lp1).
  assert (Lp3 : length (get_list Params st3) = (3 * npeak)%nat)
    by (apply fix_length_keeps; exact Lp2).
  assert (Lp4 : length (get_list Params st4) = (3 * npeak)%nat)
    by (apply fix_length_keeps; exact Lp3).
  assert (Lp5 : length (get_list Params st5) = (3 * npeak)%nat)
    by (apply fix_length_keeps; exact Lp4).
  assert (Lf2 : length (get_list Fixed st2) = (3 * npeak)%nat)
    by apply fix_length_length.
  assert (Lf3 : length (get_list Fixed st3) = (3 * npeak)%nat)
    by (apply fix_length_keeps; exact Lf2).
  assert (Lf4 : length (get_list Fixed st4) = (3 * npeak)%nat)
    by (apply fix_length_keeps; exact Lf3).
  assert (Lf5 : length (get_list Fixed st5) = (3 * npeak)%nat)
    by (apply fix_length_keeps; exact Lf4).
  assert (Ln3 : length (get_list Limitedmin st3) = (3 * npeak)%nat)
    by apply fix_length_length.
  assert (Ln4 : length (get_list Limitedmin st4) = (3 * npeak)%nat)
    by (apply fix_length_keeps; exact Ln3).
  assert (Ln5 : length (get_list Limitedmin st5) = (3 * npeak)%nat)
    by (apply fix_length_keeps; exact Ln4).
  assert (Lx4 : length (get_list Limitedmax st4) = (3 * npeak)%nat)
    by apply fix_length_length.
  assert (Lx5 : length (get_list Limitedmax st5) = (3 * npeak)%nat)
    by (apply fix_length_keeps; exact Lx4).
  destruct w.
  - unfold st5, st4, st3, st2. rewrite !fix_length_other by discriminate.
    apply fix_length_self. intros _ _ w' [].
  - unfold st5, st4, st3. rewrite !fix_length_other by discriminate.
    fold st2. unfold st2. rewrite fix_length_self.
    + unfold st1. rewrite fix_length_other by discriminate. reflexivity.
    + intros Hlen _ w' [<-|[]]. apply pylist_eqb_other_length.
      rewrite Lp1. exact Hlen.
  - unfold st5, st4. rewrite !fix_length_other by discriminate.
    fold st3. unfold st3. rewrite fix_length_self.
    + unfold st2, st1. rewrite !fix_length_other by discriminate. reflexivity.
    + intros Hlen Hlen3 w' [<-|[<-|[<-|[]]]].
      * apply pylist_eqb_other_length. rewrite Lp2. exact Hlen.
      * apply pylist_eqb_other_length. rewrite Lf2. exact Hlen.
      * unfold st2, st1 in *. rewrite !fix_length_other in * by discriminate.
        destruct (Hclash eq_refl) as [Hl|[Hl|Hl]];
          [contradiction|contradiction|exact Hl].
  - unfold st5. rewrite !fix_length_other by discriminate.
    fold st4. unfold st4. rewrite fix_length_self.
    + unfold st3, st2, st1. rewrite !fix_length_other by discriminate. reflexivity.
    + intros Hlen _ w' [<-|[]]. apply pylist_eqb_other_length.
      rewrite Lp3. exact Hlen.
  - rewrite fix_length_other by discriminate.
    unfold st5. rewrite fix_length_self.
    + unfold st4, st3, st2, st1. rewrite !fix_length_other by discriminate.
      reflexivity.
    + intros Hlen _ w' [<-|[<-|[<-|[<-|[]]]]]; apply pylist_eqb_other_length.
      * rewrite Lp4. exact Hlen.
      * rewrite Lf4. exact Hlen.
      * rewrite Lx4. exact Hlen.
      * rewrite Ln4. exact Hlen.
  - rewrite fix_length_self.
    + unfold st5, st4, st3, st2, st1. rewrite !fix_length_other by discriminate.
      reflexivity.
    + intros Hlen _ w' [<-|[<-|[<-|[<-|[]]]]]; apply pylist_eqb_other_length.
      * rewrite Lp5. exact Hlen.
      * rewrite Lf5. exact Hlen.
      * rewrite Lx5. exact Hlen.
      * rewrite Ln5. exact Hlen.
Qed.

Lemma peak_lists_ext (a b : peak_lists F) :
  (forall w, get_list w a = get_list w b) -> a = b.
Proof.
  intros Hall. destruct a, b.
  pose proof (Hall Params). pose proof (Hall Fixed). pose proof (Hall Limitedmin).
  pose proof (Hall Limitedmax). pose proof (Hall Minpars). pose proof (Hall Maxpars).
  cbn in *. congruence.
Qed.

(** A call with six lists of length 3 hands the solver what the call with
    the same lists written out [npeak] times hands it. *)
Lemma replicated_call_matches_manual (npeak : nat) (st : peak_lists F) :
  (0 < npeak)%nat ->
  (forall w, length (get_list w st) = 3%nat) ->
  multipeakfit_setup npeak st = multipeakfit_setup npeak (replicate_all npeak st).
Proof.
  intros Hpos Hlen.
  assert (Hrep : forall w, get_list w (replicate_all npeak st)
                           = list_times (get_list w st) npeak)
    by (intros []; reflexivity).
  assert (Hspec : forall w, spec_normalized npeak w (get_list w st)
                            = list_times (get_list w st) npeak).
  { intros w. unfold spec_normalized. rewrite (Hlen w).
    destruct (3 =? 3 * npeak)%nat eqn:E; [|reflexivity].
    apply Nat.eqb_eq in E. replace npeak with 1%nat by lia.
    unfold list_times. cbn. rewrite app_nil_r. reflexivity. }
  unfold multipeakfit_setup, infer_npeak.
  change (pl_params st) with (get_list Params st).
  change (pl_params (replicate_all npeak st))
    with (get_list Params (replicate_all npeak st)).
  rewrite Hrep, length_list_times, (Hlen Params).
  replace (npeak * 3 / 3)%nat with npeak by (symmetry; apply Nat.div_mul; lia).
  cbn [Nat.div Nat.divmod fst].
  replace (npeak <? 1)%nat with false by (symmetry; apply Nat.ltb_ge; lia).
  rewrite Nat.ltb_irrefl, !andb_false_r.
  f_equal. apply peak_lists_ext. intros w.
  rewrite !normalize_lists_spec.
  - rewrite Hspec, Hrep. unfold spec_normalized.
    rewrite length_list_times, (Hlen w).
    replace (npeak * 3 =? 3 * npeak)%nat with true
      by (symmetry; apply Nat.eqb_eq; lia).
    reflexivity.
  - intros _. left.
    change (pl_limitedmin (replicate_all npeak st))
      with (get_list Limitedmin (replicate_all npeak st)).
    rewrite Hrep, length_list_times, (Hlen Limitedmin). lia.
  - intros _. right. left. exact (Hlen Limitedmin).
Qed.

End NormalizeProperties.

Section ModeProperties.
Context {F : Type} `{Float F} `{Trig F}.

Lemma collect_map {A B} (f : A -> result F B) (l : list A) (r : list B) :
  collect (map f l) = inr r -> Forall2 (fun a b => f a = inr b) l r.
Proof.
  revert r. induction l as [|a l IH]; cbn; intros r Hr.
  - injection Hr as <-. constructor.
  - destruct (f a) as [e|b] eqn:Ea; cbn [bind] in Hr; [discriminate|].
    destruct (collect (map f l)) as [e|r'] eqn:Er; cbn [bind] in Hr; [discriminate|].
    injection Hr as <-. constructor; auto.
Qed.

(** The records [mm_parinfo] appends for the modes: one for every
    enumerated mode index, in row-major order, with the amplitude limits and
    flags and the name of its mode; every one of them starts at the same
    value, [params[n0+1]]. *)
Lemma mm_parinfo_modes (max_p max_l : nat) (circle rotate vheight : bool)
  (params : list F) (amps : list Z) (minpars maxpars : list F)
  (limitedmin limitedmax fixed : list bool) (minamp maxamp : F)
  (limitedampmin limitedampmax : bool) (pinfo : list (parinfo F bool)) :
  mm_parinfo max_p max_l circle rotate vheight params amps minpars maxpars
             limitedmin limitedmax fixed minamp maxamp limitedampmin limitedampmax
  = inr pinfo ->
  exists base modes n0 v,
    pinfo = base ++ modes /\
    (modes <> [] -> nth_error params (n0 + 1) = Some v) /\
    Forall2 (fun '(i, pl) e =>
               e = {| n := n0 + i; value := v; limits := (minamp, maxamp);
                      limited := (limitedampmin, limitedampmax); fixed := false;
                      parname := modeamp_name pl; error := 0 |})
            (combine (seq 0 (length amps)) (modenum max_p max_l)) modes.
Proof.
  unfold mm_parinfo. intros Hp.
  repeat step_bind Hp.
  injection Hp as <-.
  match goal with E : collect (map _ _) = inr ?ms |- _ =>
    apply collect_map in E; rename E into Hmodes; rename ms into modes end.
  match goal with E : getitem _ _ = inr ?le |- _ => rename le into last_entry end.
  match goal with |- exists b ms _ _, ?b0 ++ _ = _ /\ _ => exists b0, modes end.
  exists (n last_entry + 1)%nat.
  unfold modeamp_entry, getitem in Hmodes.
  destruct (nth_error params (n last_entry + 1 + 1)) as [v|] eqn:Ev.
  - exists v. split; [reflexivity|]. split; [reflexivity|].
    clear -Hmodes Ev.
    induction Hmodes as [|[i pl] e' ? ? Hhd _ IH]; constructor; [|exact IH].
    cbv [bind ret] in Hhd. injection Hhd as <-. reflexivity.
  - exists (of_int 0). split; [reflexivity|].
    assert (Hnil : modes = []).
    { destruct Hmodes as [|[i pl] e' ? ? Hhd _]; [reflexivity|]. discriminate. }
    subst modes. split; [intros Hne; contradiction|].
    inversion Hmodes. constructor.
Qed.

End ModeProperties.

(** * Further properties *)

(** Every [bind] that returned is split into its two computations. *)
Ltac invert_binds :=
  repeat match goal with
         | Hb : bind ?m _ = inr _ |- _ =>
             let E := fresh "E" in
             destruct m eqn:E; cbn [bind] in Hb; [discriminate Hb|]
         | Hb : inr _ = inr _ |- _ => inversion Hb; clear Hb; subst
         end.

(** ** Lists and indexing *)

Section ListFacts.
Context {F : Type}.

Lemma length_list_set {A} (i : nat) (x : A) (l : list A) :
  length (list_set i x l) = length l.
Proof.
  revert i. induction l as [|a l IH]; intros [|i]; cbn; auto.
Qed.

Lemma nth_error_list_set_same {A} (i : nat) (x : A) (l : list A) :
  (i < length l)%nat -> nth_error (list_set i x l) i = Some x.
Proof.
  revert i. induction l as [|a l IH]; intros [|i]; cbn; intros Hi; try lia; auto.
  apply IH. lia.
Qed.

Lemma nth_error_list_set_other {A} (i j : nat) (x : A) (l : list A) :
  i <> j -> nth_error (list_set i x l) j = nth_error l j.
Proof.
  revert i j. induction l as [|a l IH]; intros [|i] [|j] Hne; cbn; auto; try congruence.
Qed.

Lemma getitem_some {A} (l : list A) (i : nat) (a : A) :
  nth_error l i = Some a -> getitem l i = @inr (pyerror F) _ a.
Proof. unfold getitem. intros ->. reflexivity. Qed.

Lemma getitem_inr {A} (l : list A) (i : nat) (a : A) :
  getitem l i = @inr (pyerror F) _ a -> nth_error l i = Some a.
Proof. unfold getitem. destruct (nth_error l i); intros Hg; inversion Hg; reflexivity. Qed.

Lemma getitem_inl {A} (l : list A) (i : nat) (e : pyerror F) :
  getitem l i = inl e -> e = IndexError "index out of range" /\ (length l <= i)%nat.
Proof.
  unfold getitem. destruct (nth_error l i) eqn:E; intros Hg; inversion Hg.
  split; [reflexivity|]. apply nth_error_None. exact E.
Qed.

Lemma tail_slice_app {A} (hd t : list A) :
  tail_slice (length t) (hd ++ t) = t /\ del_tail (length t) (hd ++ t) = hd.
Proof.
  unfold tail_slice, del_tail. rewrite length_app.
  replace (length hd + length t - length t)%nat with (length hd) by lia.
  split.
  - rewrite skipn_app, Nat.sub_diag, skipn_all. reflexivity.
  - rewrite firstn_app, Nat.sub_diag, firstn_all. cbn. apply app_nil_r.
Qed.

Lemma in_indices (i j rows cols : nat) :
  In (i, j) (indices (rows, cols)) <-> (i < rows)%nat /\ (j < cols)%nat.
Proof.
  unfold indices. cbn [fst snd]. rewrite in_flat_map. split.
  - intros (i' & Hi' & Hin). apply in_map_iff in Hin.
    destruct Hin as (j' & Heq & Hj'). inversion Heq. subst.
    apply in_seq in Hi', Hj'. lia.
  - intros [Hi Hj]. exists i. split; [apply in_seq; lia|].
    apply in_map_iff. exists j. split; [reflexivity|apply in_seq; lia].
Qed.

Lemma fold_raised {A B} (f : A -> B -> result F A) (l : list B) (e : pyerror F) :
  fold_left (fun acc b => a <- acc ;; f a b) l (inl e) = inl e.
Proof. induction l as [|b l IH]; cbn [fold_left bind]; auto. Qed.

Lemma collect_total {A B} (f : A -> result F B) (l : list A) :
  (forall a, In a l -> exists b, f a = inr b) ->
  exists r, collect (map f l) = inr r.
Proof.
  induction l as [|a l IH]; intros Hall.
  - exists []. reflexivity.
  - destruct (Hall a (or_introl eq_refl)) as [b Hb].
    destruct IH as [r Hr]; [intros a' Ha'; apply Hall; right; exact Ha'|].
    exists (b :: r). cbn [map collect]. rewrite Hb, Hr. reflexivity.
Qed.

Lemma Forall2_nth_error_seq {B} (P : nat -> B -> Prop) (k : nat) (r : list B) (s : nat) :
  Forall2 P (seq s k) r ->
  length r = k /\ forall i e, nth_error r i = Some e -> P (s + i)%nat e.
Proof.
  revert s r. induction k as [|k IH]; intros s r Hf; cbn [seq] in Hf.
  - inversion Hf. subst. split; [reflexivity|]. intros [|i] e; discriminate.
  - inversion Hf as [|a b l l' Hab Hrest]. subst.
    destruct (IH _ _ Hrest) as [Hlen Hnth]. split; [cbn; lia|].
    intros [|i] e He; cbn in He.
    + inversion He. subst. rewrite Nat.add_0_r. exact Hab.
    + replace (s + S i)%nat with (S s + i)%nat by lia. apply Hnth. exact He.
Qed.

End ListFacts.

(** ** Accepted vectors *)

Section DecoderAcceptance.
Context {F : Type} `{Float F} `{Trig F}.

Lemma twodpeak_short (circle rotate vheight : bool) (v : list F) :
  (length v < length (popped_field_order false circle rotate vheight))%nat ->
  twodpeak v circle rotate vheight = inl (IndexError "pop from empty list").
Proof.
  intros Hlen.
  destruct circle, rotate, vheight; cbn in Hlen; split_vector v; reflexivity.
Qed.

Lemma mm_decode_fields_short (old amps : list F) (shape : list nat)
  (circle rotate vheight : bool) (v : list F) :
  (length v < length (popped_field_order true circle rotate vheight))%nat ->
  mm_decode_fields old amps shape circle rotate vheight v
  = inl (IndexError "pop from empty list").
Proof.
  intros Hlen.
  destruct circle, rotate, vheight; cbn in Hlen; split_vector v; reflexivity.
Qed.

Lemma twodpeak_accepts (circle rotate vheight : bool) (v : list F) :
  (exists env, twodpeak v circle rotate vheight = inr env) <->
  length v = length (popped_field_order false circle rotate vheight).
Proof.
  split.
  - intros [env Henv].
    destruct (Nat.lt_trichotomy (length v)
                (length (popped_field_order false circle rotate vheight)))
      as [Hlt|[Heq|Hgt]]; [|exact Heq|].
    + rewrite twodpeak_short in Henv by exact Hlt. discriminate.
    + rewrite twodpeak_residual in Henv by exact Hgt. discriminate.
  - intros Hlen. destruct (twodpeak_in_order circle rotate vheight v Hlen)
      as (env & Henv & _). eauto.
Qed.

Lemma mm_accepts (circle rotate vheight : bool) (max_p max_l : nat) (v : list F) :
  (exists env, mm_laguerregauss_2d v max_p max_l circle rotate vheight = inr env) <->
  length v = (length (popped_field_order true circle rotate vheight)
              + (max_p + 1) * (max_l + 1))%nat.
Proof.
  split.
  - intros [env Henv].
    destruct (Nat.lt_trichotomy (length v)
                (length (popped_field_order true circle rotate vheight)
                 + (max_p + 1) * (max_l + 1)))
      as [Hlt|[Heq|Hgt]]; [|exact Heq|].
    + exfalso.
      assert (0 < length (popped_field_order true circle rotate vheight))%nat
        by (destruct circle, rotate, vheight; cbn; lia).
      unfold mm_laguerregauss_2d, mm_take_amps in Henv.
      destruct (max_l =? 0)%nat eqn:El.
      * apply Nat.eqb_eq in El. subst max_l. unfold ret in Henv. cbn [bind] in Henv.
        rewrite mm_decode_fields_short in Henv; [discriminate|].
        rewrite length_del_tail. lia.
      * destruct (length (tail_slice _ v) =? _)%nat; [|discriminate].
        unfold ret in Henv. cbn [bind] in Henv.
        rewrite mm_decode_fields_short in Henv; [discriminate|].
        rewrite length_del_tail. lia.
    + exfalso. unfold mm_laguerregauss_2d in Henv.
      destruct (@mm_take_amps_enough _ max_p max_l v) as [shape Hs]; [lia|].
      rewrite Hs in Henv. cbn [bind] in Henv.
      rewrite mm_decode_fields_residual in Henv; [discriminate|].
      rewrite length_del_tail. lia.
  - intros Hlen. unfold mm_laguerregauss_2d.
    destruct (@mm_take_amps_enough _ max_p max_l v) as [shape ->]; [lia|].
    cbn [bind].
    destruct (@mm_decode_fields_in_order _ _ _ v
                (tail_slice ((max_p + 1) * (max_l + 1)) v) shape
                circle rotate vheight (del_tail ((max_p + 1) * (max_l + 1)) v))
      as (env & -> & _).
    + rewrite length_del_tail. lia.
    + exists env. reflexivity.
Qed.

(** X1.  The decoders accept the vectors of exactly the length of the
    layout (for the multimode decoder: the fields and the
    [(max_p+1)*(max_l+1)] amplitudes) and no other; the single-peak decoder
    fails on a shorter vector with the [IndexError] of a pop from an empty
    list. *)
Theorem decoders_accept_exact_length (circle rotate vheight : bool)
  (max_p max_l : nat) (v : list F) :
  ((exists env, twodpeak v circle rotate vheight = inr env) <->
   length v = length (popped_field_order false circle rotate vheight)) /\
  ((length v < length (popped_field_order false circle rotate vheight))%nat ->
   twodpeak v circle rotate vheight = inl (IndexError "pop from empty list")) /\
  ((exists env, mm_laguerregauss_2d v max_p max_l circle rotate vheight = inr env) <->
   length v = (length (popped_field_order true circle rotate vheight)
               + (max_p + 1) * (max_l + 1))%nat).
Proof.
  split; [apply twodpeak_accepts|].
  split; [apply twodpeak_short|apply mm_accepts].
Qed.

Lemma twodpeak_circle (v : list F) (rotate vheight : bool) :
  twodpeak v true rotate vheight = twodpeak v true false vheight.
Proof.
  destruct rotate, vheight; do 5 (try (destruct v as [|? v])); reflexivity.
Qed.

End DecoderAcceptance.

(** ** Clamping of the start values *)

Section ClampProperties.
Context {F : Type} `{Float F} `{Trig F}.

Lemma clamp_step_value (minpars maxpars : list F) (limitedmin limitedmax : list bool)
  (ps : list F) (k : nat) (p lo hi : F) (lmin lmax : bool) :
  nth_error ps k = Some p -> nth_error minpars k = Some lo ->
  nth_error maxpars k = Some hi -> nth_error limitedmin k = Some lmin ->
  nth_error limitedmax k = Some lmax ->
  clamp_step minpars maxpars limitedmin limitedmax ps k
  = inr (list_set k (clamp_one lo hi lmin lmax p) ps).
Proof.
  intros Hp Hlo Hhi Hlmin Hlmax.
  assert (Hk : (k < length ps)%nat) by (apply nth_error_Some; congruence).
  assert (Hsame : list_set k p ps = ps).
  { clear - Hp. revert k Hp. induction ps as [|a ps IH]; intros [|k]; cbn; intros Hp;
      try congruence. f_equal. auto. }
  assert (Hset2 : forall x y, list_set k x (list_set k y ps) = list_set k x ps).
  { clear. intros x y. revert k. induction ps as [|a ps IH]; intros [|k]; cbn; auto.
    f_equal. auto. }
  unfold clamp_step, clamp_one.
  rewrite (getitem_some _ _ Hp), (getitem_some _ _ Hhi). cbn [bind].
  destruct (fltb hi p) eqn:E1.
  - rewrite (getitem_some _ _ Hlmax). cbn [bind ret andb].
    destruct lmax.
    + rewrite (getitem_some _ _ (nth_error_list_set_same hi ps Hk)).
      rewrite (getitem_some _ _ Hlo). cbn [bind].
      destruct (fltb hi lo) eqn:E2.
      * rewrite (getitem_some _ _ Hlmin). cbn [bind ret andb].
        destruct lmin; [rewrite Hset2|]; reflexivity.
      * cbn [andb]. reflexivity.
    + rewrite (getitem_some _ _ Hp), (getitem_some _ _ Hlo). cbn [bind].
      destruct (fltb p lo) eqn:E2.
      * rewrite (getitem_some _ _ Hlmin). cbn [bind ret andb].
        destruct lmin; [|rewrite Hsame]; reflexivity.
      * cbn [andb]. rewrite Hsame. reflexivity.
  - cbn [bind ret andb].
    rewrite (getitem_some _ _ Hp), (getitem_some _ _ Hlo). cbn [bind].
    destruct (fltb p lo) eqn:E2.
    + rewrite (getitem_some _ _ Hlmin). cbn [bind ret andb].
      destruct lmin; [|rewrite Hsame]; reflexivity.
    + cbn [andb]. rewrite Hsame. reflexivity.
Qed.

Lemma clamp_step_raises (minpars maxpars : list F) (limitedmin limitedmax : list bool)
  (ps : list F) (k : nat) (e : pyerror F) :
  clamp_step minpars maxpars limitedmin limitedmax ps k = inl e ->
  e = IndexError "index out of range".
Proof.
  unfold clamp_step. intros Hs.
  repeat match type of Hs with
         | context [bind (getitem ?l ?i) _] =>
             let E := fresh "E" in
             destruct (getitem l i) eqn:E; cbn [bind] in Hs;
             [apply getitem_inl in E; destruct E as [-> _]; congruence|]
         | context [if ?b then _ else _] => destruct b; cbn [bind ret] in Hs
         | _ => unfold ret in Hs; cbn [bind] in Hs
         end; try discriminate.
Qed.

Lemma clamp_step_returns (minpars maxpars : list F) (limitedmin limitedmax : list bool)
  (ps r : list F) (k : nat) :
  clamp_step minpars maxpars limitedmin limitedmax ps k = inr r ->
  (k < length maxpars)%nat /\ (k < length minpars)%nat /\ length r = length ps.
Proof.
  unfold clamp_step. intros Hs.
  step_bind Hs. step_bind Hs.
  apply getitem_inr in E0.
  assert (k < length maxpars)%nat by (apply nth_error_Some; congruence).
  step_bind Hs. step_bind Hs. step_bind Hs.
  apply getitem_inr in E3.
  assert (k < length minpars)%nat by (apply nth_error_Some; congruence).
  assert (length l = length ps).
  { destruct (fltb f0 f); [step_bind E1|]; unfold ret in E1; inversion E1; subst.
    - destruct b; [apply length_list_set|reflexivity].
    - reflexivity. }
  repeat split; auto.
  destruct (fltb f1 f2); [step_bind Hs|]; unfold ret in Hs; inversion Hs; subst.
  - destruct b; [rewrite length_list_set|]; assumption.
  - assumption.
Qed.

Lemma clamp_fold_values (minpars maxpars : list F) (limitedmin limitedmax : list bool)
  (params : list F) (k : nat) :
  (length params <= length minpars)%nat -> (length params <= length maxpars)%nat ->
  (length params <= length limitedmin)%nat -> (length params <= length limitedmax)%nat ->
  (k <= length params)%nat ->
  exists r,
    fold_left (fun acc i => ps <- acc ;;
                 clamp_step minpars maxpars limitedmin limitedmax ps i)
              (seq 0 k) (ret params) = inr r /\
    length r = length params /\
    (forall i, (k <= i)%nat -> nth_error r i = nth_error params i) /\
    (forall i p lo hi lmin lmax, (i < k)%nat ->
       nth_error params i = Some p -> nth_error minpars i = Some lo ->
       nth_error maxpars i = Some hi -> nth_error limitedmin i = Some lmin ->
       nth_error limitedmax i = Some lmax ->
       nth_error r i = Some (clamp_one lo hi lmin lmax p)).
Proof.
  intros Hmin Hmax Hlmin Hlmax.
  induction k as [|k IH]; intros Hk.
  - exists params. cbn. repeat split; auto. intros; lia.
  - destruct IH as (r & Hr & Hlen & Hrest & Hdone); [lia|].
    rewrite seq_S, fold_left_app, Hr. cbn [fold_left bind Nat.add].
    destruct (nth_error params k) as [p|] eqn:Ep;
      [|apply nth_error_None in Ep; lia].
    destruct (nth_error minpars k) as [lo|] eqn:Elo;
      [|apply nth_error_None in Elo; lia].
    destruct (nth_error maxpars k) as [hi|] eqn:Ehi;
      [|apply nth_error_None in Ehi; lia].
    destruct (nth_error limitedmin k) as [lmin|] eqn:Elmin;
      [|apply nth_error_None in Elmin; lia].
    destruct (nth_error limitedmax k) as [lmax|] eqn:Elmax;
      [|apply nth_error_None in Elmax; lia].
    assert (Hrk : nth_error r k = Some p) by (rewrite Hrest by lia; exact Ep).
    erewrite clamp_step_value by eassumption.
    eexists. split; [reflexivity|]. split; [|split].
    + rewrite length_list_set. exact Hlen.
    + intros i Hi. rewrite nth_error_list_set_other by lia. apply Hrest. lia.
    + intros i p' lo' hi' lmin' lmax' Hi Hp' Hlo' Hhi' Hlmin' Hlmax'.
      destruct (Nat.eq_dec i k) as [->|Hne].
      * rewrite nth_error_list_set_same by lia.
        congruence.
      * rewrite nth_error_list_set_other by lia.
        apply Hdone; auto. lia.
Qed.

Lemma clamp_fold_returns (minpars maxpars : list F) (limitedmin limitedmax : list bool)
  (params : list F) (k : nat) (r : list F) :
  fold_left (fun acc i => ps <- acc ;;
               clamp_step minpars maxpars limitedmin limitedmax ps i)
            (seq 0 k) (ret params) = inr r ->
  (k <= length maxpars)%nat /\ (k <= length minpars)%nat /\ length r = length params.
Proof.
  revert r. induction k as [|k IH]; intros r.
  - cbn. unfold ret. intros Hr. inversion Hr. subst. repeat split; lia.
  - rewrite seq_S, fold_left_app. cbn [fold_left Nat.add]. intros Hr.
    step_bind Hr. destruct (IH _ eq_refl) as (? & ? & ?).
    apply clamp_step_returns in Hr. destruct Hr as (? & ? & ?).
    repeat split; lia.
Qed.

Lemma clamp_fold_raises (minpars maxpars : list F) (limitedmin limitedmax : list bool)
  (params : list F) (k : nat) (e : pyerror F) :
  fold_left (fun acc i => ps <- acc ;;
               clamp_step minpars maxpars limitedmin limitedmax ps i)
            (seq 0 k) (ret params) = inl e ->
  e = IndexError "index out of range".
Proof.
  induction k as [|k IH].
  - cbn. discriminate.
  - rewrite seq_S, fold_left_app. cbn [fold_left Nat.add]. intros Hr.
    destruct (fold_left _ (seq 0 k) (ret params)) eqn:E; cbn [bind] in Hr.
    + inversion Hr. subst. apply IH. reflexivity.
    + eapply clamp_step_raises. exact Hr.
Qed.

(** X3.  When the four limit lists are at least as long as the start
    vector, the clamping loop of [peakfit] returns a vector of the same
    length in which every entry is clamped on its own: to the upper limit
    when it lies above it and that limit is on, then to the lower limit when
    the outcome lies below it and that limit is on. *)
Theorem clamp_params_pointwise (minpars maxpars : list F)
  (limitedmin limitedmax : list bool) (params : list F) :
  (length params <= length minpars)%nat -> (length params <= length maxpars)%nat ->
  (length params <= length limitedmin)%nat -> (length params <= length limitedmax)%nat ->
  exists r,
    clamp_params minpars maxpars limitedmin limitedmax params = inr r /\
    length r = length params /\
    (forall i p lo hi lmin lmax,
       nth_error params i = Some p -> nth_error minpars i = Some lo ->
       nth_error maxpars i = Some hi -> nth_error limitedmin i = Some lmin ->
       nth_error limitedmax i = Some lmax ->
       nth_error r i = Some (clamp_one lo hi lmin lmax p)).
Proof.
  intros Hmin Hmax Hlmin Hlmax.
  destruct (@clamp_fold_values minpars maxpars limitedmin limitedmax params
              (length params) Hmin Hmax Hlmin Hlmax (Nat.le_refl _))
    as (r & Hr & Hlen & _ & Hdone).
  exists r. split; [exact Hr|]. split; [exact Hlen|].
  intros i p lo hi lmin lmax Hp. apply Hdone; auto.
  apply nth_error_Some. congruence.
Qed.

Lemma clamp_params_short_limits (minpars maxpars : list F)
  (limitedmin limitedmax : list bool) (params : list F) :
  (length maxpars < length params \/ length minpars < length params)%nat ->
  clamp_params minpars maxpars limitedmin limitedmax params
  = inl (IndexError "index out of range").
Proof.
  intros Hshort. unfold clamp_params.
  destruct (fold_left _ (seq 0 (length params)) (ret params)) eqn:E.
  - apply clamp_fold_raises in E. congruence.
  - apply clamp_fold_returns in E. lia.
Qed.

(** X4.  When no start value is asked of the moments, a start vector
    longer than [minpars] or [maxpars] makes [peakfit] and
    [mm_laguerregauss2d_fit] raise [IndexError], whatever the solver is: the
    clamping loop reads the limits at every index of the vector. *)
Theorem long_start_vector_raises
  (moments : masked_array F -> bool -> bool -> bool -> result F (list F))
  (mpfit : solver F F bool (list F))
  (mm_rotpeak : mm_params (F:=F) -> F -> F -> F)
  (peakfunc : F -> F -> F -> F -> F) (data : masked_array F) (max_p max_l : nat)
  (err : option (list F))
  (params : list F) (autoderiv return_error circle : bool) (fixed : list bool)
  (limitedmin limitedmax usemoment : list bool)
  (minpars maxpars : list F) (minamp maxamp : F) (limitedampmin limitedampmax : bool)
  (rotate vheight quiet returnmp returnfitimage : bool) :
  existsb (fun b => b) usemoment = false ->
  (length maxpars < length params \/ length minpars < length params)%nat ->
  (exists what,
     peakfit moments mpfit peakfunc data err params autoderiv return_error circle fixed
             limitedmin limitedmax usemoment minpars maxpars rotate vheight quiet
             returnmp returnfitimage = inl (IndexError what)) /\
  (exists what,
     mm_laguerregauss2d_fit mm_rotpeak moments mpfit data max_p max_l err params
             autoderiv return_error circle fixed limitedmin limitedmax usemoment
             minpars maxpars minamp maxamp limitedampmin limitedampmax
             rotate vheight quiet returnmp returnfitimage = inl (IndexError what)).
Proof.
  intros Hu Hshort.
  assert (Hne : (length params =? 0)%nat = false) by (apply Nat.eqb_neq; lia).
  split.
  - unfold peakfit, peakfit_setup, peakfit_start.
    rewrite Hu. cbn [andb]. rewrite Hne. cbn [bind ret].
    destruct vheight; cbn [negb].
    + unfold ret. cbn [bind].
      rewrite clamp_params_short_limits by exact Hshort. cbn [bind]. eauto.
    + unfold setitem. destruct (0 <? length fixed)%nat; cbn [bind ret raise]; [|eauto].
      unfold ret. cbn [bind].
      rewrite clamp_params_short_limits by (cbn [length]; lia). cbn [bind]. eauto.
  - unfold mm_laguerregauss2d_fit, mm_setup, mm_start.
    rewrite Hu. cbn [andb]. rewrite Hne. cbn [bind ret].
    destruct vheight; cbn [negb].
    + unfold ret. cbn [bind].
      rewrite clamp_params_short_limits by exact Hshort. cbn [bind]. eauto.
    + unfold setitem. destruct (0 <? length fixed)%nat; cbn [bind ret raise]; [|eauto].
      unfold ret. cbn [bind].
      rewrite clamp_params_short_limits by (cbn [length]; lia). cbn [bind]. eauto.
Qed.

End ClampProperties.

(** ** Records and start values of the two-dimensional drivers *)

Section SetupProperties.
Context {F : Type} `{Float F} `{Trig F}.

Lemma nth_error_some_lt {A} (l : list A) (i : nat) (a : A) :
  nth_error l i = Some a -> (i < length l)%nat.
Proof. intros Hn. apply nth_error_Some. congruence. Qed.

Lemma parinfo_entry_inv (i : nat) (name : string) (params minpars maxpars : list F)
  (limitedmin limitedmax fixed : list bool) (e : parinfo F bool) :
  parinfo_entry i name params minpars maxpars limitedmin limitedmax fixed = inr e ->
  n e = i /\ parname e = name /\
  entry_of_lists params minpars maxpars limitedmin limitedmax fixed e.
Proof.
  unfold parinfo_entry. intros He.
  repeat step_bind He. unfold ret in He. inversion He. subst e. clear He.
  repeat match goal with
         | Hg : getitem _ _ = inr _ |- _ => apply getitem_inr in Hg
         end.
  unfold entry_of_lists. cbn. repeat split; assumption.
Qed.

Lemma parinfo_entry_total (i : nat) (name : string) (params minpars maxpars : list F)
  (limitedmin limitedmax fixed : list bool) :
  (i < length params)%nat -> (i < length minpars)%nat -> (i < length maxpars)%nat ->
  (i < length limitedmin)%nat -> (i < length limitedmax)%nat ->
  (i < length fixed)%nat ->
  exists e, parinfo_entry i name params minpars maxpars limitedmin limitedmax fixed
            = inr e.
Proof.
  intros H1 H2 H3 H4 H5 H6. unfold parinfo_entry.
  destruct (nth_error params i) as [v|] eqn:E1; [|apply nth_error_None in E1; lia].
  destruct (nth_error minpars i) as [lo|] eqn:E2; [|apply nth_error_None in E2; lia].
  destruct (nth_error maxpars i) as [hi|] eqn:E3; [|apply nth_error_None in E3; lia].
  destruct (nth_error limitedmin i) as [lmin|] eqn:E4;
    [|apply nth_error_None in E4; lia].
  destruct (nth_error limitedmax i) as [lmax|] eqn:E5;
    [|apply nth_error_None in E5; lia].
  destruct (nth_error fixed i) as [fx|] eqn:E6; [|apply nth_error_None in E6; lia].
  rewrite (getitem_some _ _ E1), (getitem_some _ _ E2), (getitem_some _ _ E3),
    (getitem_some _ _ E4), (getitem_some _ _ E5), (getitem_some _ _ E6).
  unfold ret. cbn [bind]. eexists. reflexivity.
Qed.

Lemma peakfit_parinfo_inv (circle rotate : bool) (params minpars maxpars : list F)
  (limitedmin limitedmax fixed : list bool) (pinfo : list (parinfo F bool)) :
  peakfit_parinfo circle rotate true params minpars maxpars limitedmin limitedmax fixed
  = inr pinfo ->
  map (fun e => parname e) pinfo = peakfit_parnames circle rotate /\
  map (fun e => n e) pinfo = seq 0 (length pinfo) /\
  Forall (entry_of_lists params minpars maxpars limitedmin limitedmax fixed) pinfo.
Proof.
  unfold peakfit_parinfo. cbn [collect]. unfold ret. intros Hp.
  destruct circle, rotate; cbn [negb] in Hp; invert_binds;
    repeat match goal with
           | He : parinfo_entry _ _ _ _ _ _ _ _ = inr _ |- _ =>
               apply parinfo_entry_inv in He; destruct He as (? & ? & ?)
           end;
    cbn; (repeat split; try congruence);
    repeat (apply Forall_cons; [assumption|]); apply Forall_nil.
Qed.

(** X5.  [peakfit] builds its records exactly when each of the six lists
    has an entry for every name of the layout (5 with [circle], 6 without
    rotation, 7 with it).  The records are then in the order of the
    parameter vector, HEIGHT first although it is put in last; record number
    [i] is named by the layout and holds entry [i] of each list. *)
Theorem peakfit_parinfo_records (circle rotate : bool) (params minpars maxpars : list F)
  (limitedmin limitedmax fixed : list bool) :
  let k := length (peakfit_parnames circle rotate) in
  ((exists pinfo,
      peakfit_parinfo circle rotate true params minpars maxpars
                      limitedmin limitedmax fixed = inr pinfo) <->
   (k <= length params /\ k <= length minpars /\ k <= length maxpars /\
    k <= length limitedmin /\ k <= length limitedmax /\ k <= length fixed)%nat) /\
  (forall pinfo,
     peakfit_parinfo circle rotate true params minpars maxpars
                     limitedmin limitedmax fixed = inr pinfo ->
     map (fun e => parname e) pinfo = peakfit_parnames circle rotate /\
     map (fun e => n e) pinfo = seq 0 (length pinfo) /\
     Forall (entry_of_lists params minpars maxpars limitedmin limitedmax fixed) pinfo).
Proof.
  cbv zeta. split; [|intros pinfo; apply peakfit_parinfo_inv].
  split.
  - intros [pinfo Hp]. apply peakfit_parinfo_inv in Hp.
    destruct Hp as (Hnames & Hnum & Hall).
    assert (Hlen : length pinfo = length (peakfit_parnames circle rotate))
      by (rewrite <- Hnames; symmetry; apply length_map).
    assert (Hlast : exists e, nth_error pinfo (length pinfo - 1) = Some e).
    { destruct (nth_error pinfo (length pinfo - 1)) eqn:E; [eauto|].
      apply nth_error_None in E.
      destruct circle, rotate; cbn in Hlen; lia. }
    destruct Hlast as [e He].
    assert (Hn : n e = (length pinfo - 1)%nat).
    { apply (map_nth_error (fun e => n e)) in He. rewrite Hnum in He.
      pose proof (nth_error_some_lt _ _ He) as Hlt. rewrite length_seq in Hlt.
      rewrite nth_error_seq in He.
      apply Nat.ltb_lt in Hlt. rewrite Hlt in He. injection He as He. lia. }
    pose proof (proj1 (Forall_forall _ _) Hall e (nth_error_In _ _ He))
      as (H1 & H2 & H3 & H4 & H5 & H6).
    rewrite Hn, Hlen in H1, H2, H3, H4, H5, H6.
    apply nth_error_some_lt in H1, H2, H3, H4, H5, H6.
    lia.
  - intros (H1 & H2 & H3 & H4 & H5 & H6).
    unfold peakfit_parinfo. cbn [collect].
    destruct circle, rotate; cbn [peakfit_parnames app length] in *; cbn [negb];
      repeat match goal with
             | |- context [parinfo_entry ?i ?nm ?a ?b ?c ?d ?e ?f] =>
                 destruct (@parinfo_entry_total i nm a b c d e f) as [? ->];
                 [lia|lia|lia|lia|lia|lia|]; cbn [bind ret]
             end;
      unfold ret; cbn [bind]; eexists; reflexivity.
Qed.

(** X6.  In [peakfit], for a start vector the decoder accepts, the value
    of the record named YSHIFT is the center subtracted from the first
    argument of the closure, the row index of the image, and the value of
    the record named XSHIFT the one subtracted from the second, the column
    index: without rotation the model at [(x, y)] is
    [height + amplitude * peakfunc(x - YSHIFT, y - XSHIFT, width_x, width_y)]. *)
Theorem shift_labels_follow_image_axes (peakfunc : F -> F -> F -> F -> F)
  (circle rotate : bool) (params minpars maxpars : list F)
  (limitedmin limitedmax fixed : list bool) (pinfo : list (parinfo F bool))
  (env : peak_params (F:=F)) :
  peakfit_parinfo circle rotate true params minpars maxpars limitedmin limitedmax fixed
  = inr pinfo ->
  twodpeak params circle rotate true = inr env ->
  exists ex ey,
    In ex pinfo /\ parname ex = "XSHIFT" /\
    In ey pinfo /\ parname ey = "YSHIFT" /\
    (rotate && negb circle = false ->
     forall x y,
       rotpeak peakfunc env x y =
       fadd (height env)
            (fmul (amplitude env)
                  (peakfunc (fsub x (value ey)) (fsub y (value ex))
                            (width_x env) (width_y env)))).
Proof.
  intros Hp Henv.
  assert (Hv : exists h a cy cx rest, params = h :: a :: cy :: cx :: rest /\
                 height env = h /\ amplitude env = a /\
                 (rotate && negb circle = false ->
                  rotate_on env = false /\ rcen_x env = cx /\ rcen_y env = cy)).
  { destruct circle, rotate;
      do 8 (try (destruct params as [|? params])); cbn in Henv;
      try discriminate Henv; inversion Henv; subst env; cbn;
      do 5 eexists; (split; [reflexivity|]); repeat split; try reflexivity;
      try discriminate. }
  destruct Hv as (h & a & cy & cx & rest & -> & Hh & Ha & Hrot).
  unfold peakfit_parinfo in Hp. cbn [collect] in Hp. unfold ret in Hp.
  assert (Hxy : exists ex ey,
             In ex pinfo /\ parname ex = "XSHIFT" /\ value ex = cy /\
             In ey pinfo /\ parname ey = "YSHIFT" /\ value ey = cx).
  { destruct circle, rotate; cbn [negb] in Hp; invert_binds;
      repeat match goal with
             | He : parinfo_entry _ _ _ _ _ _ _ _ = inr _ |- _ =>
                 apply parinfo_entry_inv in He;
                 destruct He as (? & ? & ? & _)
             end;
      match goal with
      | Hx : parname ?ex = "XSHIFT", Hy : parname ?ey = "YSHIFT" |- _ =>
          exists ex, ey
      end;
      repeat match goal with
             | Hn : n ?e = _, Hv : nth_error _ (n ?e) = _ |- _ =>
                 rewrite Hn in Hv; cbn in Hv
             end;
      cbn [In app]; repeat split; try tauto; congruence. }
  destruct Hxy as (ex & ey & Hinx & Hnx & Hvx & Hiny & Hny & Hvy).
  exists ex, ey. repeat split; try assumption.
  intros Hoff x y. destruct (Hrot Hoff) as (Hro & Hrx & Hry).
  unfold rotpeak. rewrite Hro, Hrx, Hry, Hvx, Hvy. reflexivity.
Qed.

(** X7.  With start values given and none asked of the moments, a call of
    [peakfit] or of [mm_laguerregauss2d_fit] with [vheight=False] is the
    call with [vheight=True] on the start vector with a zero put in front
    and with [fixed[0]] set: the limit lists are read in the layout with the
    height in both. *)
Theorem vheight_off_is_fixed_zero_height
  (moments : masked_array F -> bool -> bool -> bool -> result F (list F))
  (mpfit : solver F F bool (list F))
  (mm_rotpeak : mm_params (F:=F) -> F -> F -> F)
  (peakfunc : F -> F -> F -> F -> F) (data : masked_array F) (max_p max_l : nat)
  (err : option (list F))
  (params : list F) (autoderiv return_error circle : bool) (fixed : list bool)
  (limitedmin limitedmax : list bool) (usemoment : list bool)
  (minpars maxpars : list F) (minamp maxamp : F) (limitedampmin limitedampmax : bool)
  (rotate quiet returnmp returnfitimage : bool) :
  params <> [] -> fixed <> [] -> existsb (fun b => b) usemoment = false ->
  peakfit moments mpfit peakfunc data err params autoderiv return_error circle fixed
          limitedmin limitedmax usemoment minpars maxpars rotate false quiet
          returnmp returnfitimage =
  peakfit moments mpfit peakfunc data err (of_int 0 :: params) autoderiv return_error
          circle (list_set 0 true fixed)
          limitedmin limitedmax usemoment minpars maxpars rotate true quiet
          returnmp returnfitimage /\
  mm_laguerregauss2d_fit mm_rotpeak moments mpfit data max_p max_l err params
          autoderiv return_error circle fixed limitedmin limitedmax usemoment
          minpars maxpars minamp maxamp limitedampmin limitedampmax
          rotate false quiet returnmp returnfitimage =
  mm_laguerregauss2d_fit mm_rotpeak moments mpfit data max_p max_l err
          (of_int 0 :: params)
          autoderiv return_error circle (list_set 0 true fixed) limitedmin limitedmax
          usemoment minpars maxpars minamp maxamp limitedampmin limitedampmax
          rotate true quiet returnmp returnfitimage.
Proof.
  intros Hp Hf Hu.
  unfold peakfit, peakfit_setup, peakfit_start,
    mm_laguerregauss2d_fit, mm_setup, mm_start.
  rewrite Hu. cbn [andb length Nat.eqb].
  destruct params as [|p params]; [contradiction|].
  destruct fixed as [|b fixed]; [contradiction|].
  split; reflexivity.
Qed.

(** X2.  With [circle] the flag [rotate] is without effect: the decoder
    answers the same with it and without it, error message included, and so
    does [peakfit], for a solver that sees the residual function through its
    values and a moment estimator that answers the same. *)
Theorem circle_makes_rotate_inert
  (moments : masked_array F -> bool -> bool -> bool -> result F (list F))
  (mpfit : solver F F bool (list F))
  (peakfunc : F -> F -> F -> F -> F) (data : masked_array F) (err : option (list F))
  (params : list F) (autoderiv return_error : bool) (fixed : list bool)
  (limitedmin limitedmax : list bool) (usemoment : list bool)
  (minpars maxpars : list F) (rotate vheight quiet returnmp returnfitimage : bool) :
  extensional mpfit ->
  moments data true rotate vheight = moments data true false vheight ->
  (forall v h, twodpeak v true rotate h = twodpeak v true false h) /\
  peakfit moments mpfit peakfunc data err params autoderiv return_error true fixed
          limitedmin limitedmax usemoment minpars maxpars rotate vheight quiet
          returnmp returnfitimage =
  peakfit moments mpfit peakfunc data err params autoderiv return_error true fixed
          limitedmin limitedmax usemoment minpars maxpars false vheight quiet
          returnmp returnfitimage.
Proof.
  intros Hext Hmom. split; [intros; apply twodpeak_circle|].
  assert (Hsetup : forall r,
    peakfit_setup moments data params true fixed limitedmin limitedmax usemoment
                  minpars maxpars rotate vheight = r ->
    peakfit_setup moments data params true fixed limitedmin limitedmax usemoment
                  minpars maxpars false vheight = r).
  { intros r <-. unfold peakfit_setup, peakfit_start. rewrite Hmom.
    unfold peakfit_parinfo. reflexivity. }
  unfold peakfit.
  rewrite (Hsetup _ eq_refl).
  destruct (peakfit_setup moments data params true fixed limitedmin limitedmax
              usemoment minpars maxpars rotate vheight) as [e|pinfo];
    cbn [bind]; [reflexivity|].
  destruct autoderiv; cbn [negb]; [|reflexivity].
  rewrite (Hext (mpfitfun peakfunc true rotate true data err)
                (mpfitfun peakfunc true false true data err) pinfo quiet).
  - destruct (mpfit _ pinfo quiet) as [e|m]; cbn [bind]; [reflexivity|].
    unfold after_fit. cbn [negb andb].
    destruct (negb (mp_errmsg m =? "")); [reflexivity|].
    cbn [bind ret].
    destruct (reduced_chi2 _ (mp_fnorm m) (mp_dof m)); cbn [bind]; [reflexivity|].
    destruct returnfitimage; [|reflexivity].
    unfold ret. cbn [bind mp mp_params]. rewrite twodpeak_circle. reflexivity.
  - intros p. unfold mpfitfun. rewrite twodpeak_circle. reflexivity.
Qed.

(** X8.  When [peakfit] returns from a rotated elliptical fit, the seven
    records it handed to the solver end with ROTATION, and the parameters it
    returns, in each of the three shapes of its return value, are the
    solver's with the last entry taken modulo 180 and every other entry
    unchanged. *)
Theorem peakfit_wraps_rotation_entry
  (moments : masked_array F -> bool -> bool -> bool -> result F (list F))
  (mpfit : solver F F bool (list F))
  (peakfunc : F -> F -> F -> F -> F) (data : masked_array F) (err : option (list F))
  (params : list F) (autoderiv return_error : bool) (fixed : list bool)
  (limitedmin limitedmax : list bool) (usemoment : list bool)
  (minpars maxpars : list F) (vheight quiet returnmp returnfitimage : bool)
  (r : fit_return F) (image : option (list F)) :
  peakfit moments mpfit peakfunc data err params autoderiv return_error false fixed
          limitedmin limitedmax usemoment minpars maxpars true vheight quiet
          returnmp returnfitimage = inr (r, image) ->
  exists pinfo m,
    mpfit (mpfitfun peakfunc false true true data err) pinfo quiet = inr m /\
    map (fun e => parname e) pinfo = peakfit_parnames false true /\
    nth_error (returned_params r) (length (mp_params m) - 1)
    = Some (fmod (last (mp_params m) (of_int 0)) (of_int 180)) /\
    forall i, i <> (length (mp_params m) - 1)%nat ->
              nth_error (returned_params r) i = nth_error (mp_params m) i.
Proof.
  unfold peakfit. intros Hfit.
  destruct (peakfit_setup _ _ _ _ _ _ _ _ _ _ _ _) as [e|pinfo] eqn:Hsetup;
    cbn [bind] in Hfit; [discriminate|].
  destruct autoderiv; cbn [negb] in Hfit; [|discriminate].
  destruct (mpfit _ pinfo quiet) as [e|m] eqn:Hm; cbn [bind] in Hfit; [discriminate|].
  destruct (after_fit false true m) as [e|ft] eqn:Hft; cbn [bind] in Hfit;
    [discriminate|].
  exists pinfo, m. split; [exact Hm|]. split.
  - unfold peakfit_setup in Hsetup.
    destruct (peakfit_start _ _ _ _ _ _ _ _) as [e|[ps fx]];
      cbn [bind] in Hsetup; [discriminate|].
    invert_binds.
    match goal with
    | Hp : peakfit_parinfo _ _ _ _ _ _ _ _ _ = inr _ |- _ =>
        apply peakfit_parinfo_inv in Hp; apply Hp
    end.
  - assert (Hr : returned_params r = mp_params (mp ft)).
    { destruct returnfitimage; invert_binds; unfold ret in Hfit;
        injection Hfit as <- _;
        unfold shape_return; destruct returnmp, return_error; reflexivity. }
    rewrite Hr. apply after_fit_wraps_last_entry. exact Hft.
Qed.

Lemma length_compressed_div (cells : list (F * bool)) (model : list F)
  (e : F) :
  (length (filter (fun c => negb (snd c))
             (map (fun c => ma_div_cell c e)
                  (map (fun '((v, m), x) => (if m : bool then v else fsub v x, m))
                       (combine cells model))))
   <= length (filter (fun c => negb (snd c)) cells))%nat.
Proof.
  revert model. induction cells as [|[v m] cells IH]; intros model; [cbn; lia|].
  destruct model as [|x model].
  - cbn [combine map filter length]. lia.
  - cbn [combine map filter ma_div_cell snd].
    specialize (IH model).
    destruct m; cbn [orb negb length].
    + exact IH.
    + destruct (ma_div_masks (fsub v x) e); cbn [negb length]; lia.
Qed.

(** X9.  Called without an error array, the residual function of
    [peakfit] returns exactly on the vectors of the length of the layout;
    its status is then 0 and it holds at most one residual for each unmasked
    cell of the data. *)
Theorem mpfitfun_defined_on_layout (peakfunc : F -> F -> F -> F -> F)
  (circle rotate vheight : bool) (data : masked_array F) (p : list F) :
  ((exists res, mpfitfun peakfunc circle rotate vheight data None p = inr res) <->
   length p = length (popped_field_order false circle rotate vheight)) /\
  (forall status res,
     mpfitfun peakfunc circle rotate vheight data None p = inr (status, res) ->
     status = 0%Z /\
     (length res <= length (filter (fun c => negb (snd c)) (ma_cells data)))%nat).
Proof.
  unfold mpfitfun. split.
  - rewrite <- (twodpeak_accepts circle rotate vheight p).
    split.
    + intros [res Hres]. destruct (twodpeak p circle rotate vheight); [discriminate|].
      eauto.
    + intros [env ->]. cbn [bind ma_div_err]. unfold ret. cbn [bind]. eauto.
  - intros status res Hres.
    destruct (twodpeak p circle rotate vheight) as [e|env]; [discriminate|].
    cbn [bind ma_div_err] in Hres. unfold ret in Hres. cbn [bind] in Hres.
    injection Hres as <- <-. split; [reflexivity|].
    unfold compressed, ma_sub. cbn [ma_cells]. rewrite length_map.
    apply length_compressed_div.
Qed.

Lemma modeamp_numbers (params : list F) (n0 : nat) (minamp maxamp : F)
  (limitedampmin limitedampmax : bool) (pls : list (nat * nat)) :
  forall (s k : nat) (modes : list (parinfo F bool)),
    Forall2 (fun a e =>
               (let '(i, pl) := a in
                modeamp_entry params n0 minamp maxamp limitedampmin limitedampmax i pl)
               = inr e)
            (combine (seq s k) pls) modes ->
    map (fun e => n e) modes = seq (n0 + s) (length modes) /\
    length modes = Nat.min k (length pls).
Proof.
  induction pls as [|pl pls IH]; intros s k modes Hf.
  - rewrite combine_nil in Hf. inversion Hf. subst. split; [reflexivity|].
    cbn. lia.
  - destruct k as [|k]; cbn [seq combine] in Hf.
    + inversion Hf. subst. split; reflexivity.
    + inversion Hf as [|a e l modes' He Hrest]. subst.
      destruct (IH _ _ _ Hrest) as [Hn Hl].
      unfold modeamp_entry in He. invert_binds.
      unfold ret in He. injection He as <-.
      cbn [map length n]. rewrite Hn, Hl. cbn [seq Nat.min length].
      split; [|reflexivity].
      replace (n0 + S s)%nat with (S (n0 + s)) by lia. reflexivity.
Qed.

(** X10.  When [mm_laguerregauss2d_fit] builds its records for an
    amplitude array of [(max_p+1)*(max_l+1)] entries, there is one record
    for every field of the layout and one for every mode, and every record
    is numbered by its place in the list. *)
Theorem mm_parinfo_numbering (max_p max_l : nat) (circle rotate : bool)
  (params : list F) (amps : list Z) (minpars maxpars : list F)
  (limitedmin limitedmax fixed : list bool) (minamp maxamp : F)
  (limitedampmin limitedampmax : bool) (pinfo : list (parinfo F bool)) :
  mm_parinfo max_p max_l circle rotate true params amps minpars maxpars
             limitedmin limitedmax fixed minamp maxamp limitedampmin limitedampmax
  = inr pinfo ->
  length amps = ((max_p + 1) * (max_l + 1))%nat ->
  map (fun e => n e) pinfo = seq 0 (length pinfo) /\
  length pinfo = (length (popped_field_order true circle rotate true)
                  + (max_p + 1) * (max_l + 1))%nat.
Proof.
  intros Hp Hamps. unfold mm_parinfo in Hp. cbn [collect] in Hp. unfold ret in Hp.
  assert (Hmodes : length (modenum max_p max_l) = ((max_p + 1) * (max_l + 1))%nat)
    by (unfold modenum; rewrite length_prod, !length_seq; reflexivity).
  destruct circle, rotate; cbn [negb] in Hp; invert_binds;
    repeat match goal with
           | He : parinfo_entry _ _ _ _ _ _ _ _ = inr _ |- _ =>
               apply parinfo_entry_inv in He; destruct He as (? & _)
           end;
    match goal with
    | Hg : getitem _ _ = inr _ |- _ =>
        cbn [app length Nat.sub] in Hg; unfold getitem in Hg;
        cbn [nth_error] in Hg; injection Hg as <-
    end;
    match goal with
    | Hc : collect (map _ _) = inr _ |- _ =>
        apply collect_map in Hc; cbv beta in Hc; apply modeamp_numbers in Hc;
        destruct Hc as [Hn Hl]
    end;
    rewrite Hamps, Hmodes, Nat.min_id in Hl;
    rewrite map_app, length_app, Hn, Hl;
    cbn [map length app popped_field_order];
    repeat match goal with
           | Hi : n _ = _ |- _ => rewrite Hi
           end;
    (split; [|reflexivity]); cbn [Nat.add seq]; reflexivity.
Qed.

End SetupProperties.

Section ModeStartValues.
Context {F : Type} `{Float F} `{Trig F}.




End ModeStartValues.

(** ** Closure of the multimode model *)

Section ClosureProperties.
Context {F : Type} `{Float F} `{Trig F}.
Variable C : Type.
Variable laguerre_gauss2d : F -> F -> nat -> nat -> C.
Variable scale : F -> C -> C.
Variable shift : F -> C -> C.
Variable cadd : C -> C -> C.
Variable abs_sq : C -> F.

Lemma mm_decoded_amps (v : list F) (max_p max_l : nat) (circle rotate vheight : bool)
  (env : mm_params (F:=F)) :
  mm_laguerregauss_2d v max_p max_l circle rotate vheight = inr env ->
  length (mm_amps env) = ((max_p + 1) * (max_l + 1))%nat.
Proof.
  unfold mm_laguerregauss_2d, mm_take_amps. intros Henv.
  destruct (max_l =? 0)%nat eqn:El.
  - apply Nat.eqb_eq in El. subst max_l. unfold ret in Henv. cbn [bind] in Henv.
    destruct (Nat.lt_ge_cases (length v) (max_p + 1)) as [Hlt|Hge].
    + rewrite mm_decode_fields_short in Henv; [discriminate|].
      rewrite length_del_tail.
      destruct circle, rotate, vheight; cbn; lia.
    + assert (Hamps : mm_amps env = tail_slice (max_p + 1) v).
      { destruct (mm_decode_fields v (tail_slice (max_p + 1) v)
                    [length (tail_slice (max_p + 1) v)] circle rotate vheight
                    (del_tail (max_p + 1) v)) as [e|[env' rest]] eqn:E;
          cbn [bind] in Henv; [discriminate|].
        inversion Henv. subst env'. clear Henv.
        revert E. generalize (del_tail (max_p + 1) v) as w. intros w.
        destruct circle, rotate, vheight; do 7 (try (destruct w as [|? w]));
          cbn; intros E; inversion E; reflexivity. }
      rewrite Hamps, length_tail_slice by exact Hge. lia.
  - destruct (length (tail_slice ((max_p + 1) * (max_l + 1)) v)
              =? (max_p + 1) * (max_l + 1))%nat eqn:Ea; [|discriminate].
    apply Nat.eqb_eq in Ea. unfold ret in Henv. cbn [bind] in Henv.
    assert (Hamps : mm_amps env = tail_slice ((max_p + 1) * (max_l + 1)) v).
    { destruct (mm_decode_fields v (tail_slice ((max_p + 1) * (max_l + 1)) v)
                  [(max_p + 1)%nat; (max_l + 1)%nat] circle rotate vheight
                  (del_tail ((max_p + 1) * (max_l + 1)) v)) as [e|[env' rest]] eqn:E;
        cbn [bind] in Henv; [discriminate|].
      inversion Henv. subst env'. clear Henv.
      revert E. generalize (del_tail ((max_p + 1) * (max_l + 1)) v) as w. intros w.
      destruct circle, rotate, vheight; do 7 (try (destruct w as [|? w]));
        cbn; intros E; inversion E; reflexivity. }
    rewrite Hamps. exact Ea.
Qed.

Lemma in_modenum (max_p max_l p l : nat) :
  In (p, l) (modenum max_p max_l) -> (p < max_p + 1)%nat /\ (l < max_l + 1)%nat.
Proof.
  unfold modenum. intros Hin. apply in_prod_iff in Hin.
  destruct Hin as [Hp Hl]. apply in_seq in Hp, Hl. lia.
Qed.

Lemma mode_amp_in_range (max_p max_l : nat) (amps : list F) (p l : nat) :
  length amps = ((max_p + 1) * (max_l + 1))%nat ->
  (p < max_p + 1)%nat -> (l < max_l + 1)%nat ->
  exists a, mode_amp max_l amps p l = inr a.
Proof.
  intros Hlen Hp Hl. unfold mode_amp.
  destruct (max_l =? 0)%nat eqn:E.
  - apply Nat.eqb_eq in E. subst max_l.
    unfold getitem. destruct (nth_error amps p) eqn:En; [eauto|].
    apply nth_error_None in En. lia.
  - apply Nat.ltb_lt in Hl. rewrite Hl. apply Nat.ltb_lt in Hl.
    unfold getitem. destruct (nth_error amps (p * (max_l + 1) + l)) eqn:En; [eauto|].
    apply nth_error_None in En. nia.
Qed.

(** X11.  Once [mm_laguerregauss_2d] has decoded a vector, its closure
    returns a value at every point: each amplitude the loops over the modes
    look up is there. *)
Theorem mm_closure_total (v : list F) (max_p max_l : nat) (circle rotate vheight : bool)
  (env : mm_params (F:=F)) :
  mm_laguerregauss_2d v max_p max_l circle rotate vheight = inr env ->
  forall x y, exists value,
    mm_rotpeak_at laguerre_gauss2d scale shift cadd abs_sq max_p max_l env x y
    = inr value.
Proof.
  intros Henv x y. apply mm_decoded_amps in Henv.
  unfold mm_rotpeak_at.
  destruct (match mm_rotate_on env, mm_rota env with
            | true, Some rota => _
            | _, _ => _
            end) as [xp yp].
  match goal with
  | |- context [fold_left ?f ?l (ret ?a)] =>
      assert (Hfold : forall l' acc, incl l' l -> exists g, fold_left f l' (ret acc) = inr g)
  end.
  { induction l' as [|[p l] l' IH]; intros acc Hincl.
    - cbn. unfold ret. eauto.
    - cbn [fold_left]. unfold ret at 2. cbn [bind].
      destruct (in_modenum max_p max_l p l (Hincl _ (or_introl eq_refl))) as [Hp Hl].
      destruct (mode_amp_in_range max_p max_l (mm_amps env) Henv Hp Hl) as [a ->].
      cbn [bind]. apply IH. intros q Hq. apply Hincl. right. exact Hq. }
  destruct (Hfold _ (inl (mm_height env)) (incl_refl _)) as [g ->].
  cbn [bind]. unfold ret. eauto.
Qed.

(** X12.  With the rotation off ([rotate] false, or [circle]), two vectors
    that differ only in the two center entries are both decoded by
    [mm_laguerregauss_2d], and their closures agree at every point: the
    unrotated branch divides the coordinates by the widths without
    subtracting the center. *)
Theorem mm_unrotated_ignores_center (max_p max_l : nat) (circle rotate vheight : bool)
  (h cx cy cx' cy' : F) (widths amps : list F) :
  rotate && negb circle = false ->
  length widths = (if circle then 1 else 2)%nat ->
  length amps = ((max_p + 1) * (max_l + 1))%nat ->
  let vector cx cy :=
    (if vheight then [h] else []) ++ [cx; cy] ++ widths ++ amps in
  exists env env',
    mm_laguerregauss_2d (vector cx cy) max_p max_l circle rotate vheight = inr env /\
    mm_laguerregauss_2d (vector cx' cy') max_p max_l circle rotate vheight = inr env' /\
    forall x y,
      mm_rotpeak_at laguerre_gauss2d scale shift cadd abs_sq max_p max_l env x y =
      mm_rotpeak_at laguerre_gauss2d scale shift cadd abs_sq max_p max_l env' x y.
Proof.
  intros Hoff Hw Ha. cbv zeta.
  assert (Hdec : forall a b,
    exists env,
      mm_laguerregauss_2d ((if vheight then [h] else []) ++ [a; b] ++ widths ++ amps)
        max_p max_l circle rotate vheight = inr env /\
      mm_rotate_on env = false /\ mm_amps env = amps /\
      mm_height env = (if vheight then h else of_int 0) /\
      mm_width_x env = nth 0 widths h /\
      mm_width_y env = nth (if circle then 0 else 1) widths h).
  { intros a b. unfold mm_laguerregauss_2d.
    assert (Hv : (if vheight then [h] else []) ++ [a; b] ++ widths ++ amps
                 = ((if vheight then [h] else []) ++ [a; b] ++ widths) ++ amps)
      by (rewrite <- !app_assoc; reflexivity).
    rewrite Hv.
    set (hd := (if vheight then [h] else []) ++ [a; b] ++ widths).
    destruct (@mm_take_amps_enough _ max_p max_l (hd ++ amps)) as [shape ->].
    { rewrite length_app. lia. }
    cbn [bind]. rewrite <- Ha.
    destruct (tail_slice_app hd amps) as [-> ->]. subst hd.
    destruct circle, rotate, vheight; try discriminate Hoff;
      do 3 (try (destruct widths as [|? widths])); try discriminate Hw;
      cbn; eexists; (split; [reflexivity|]); cbn; repeat split; reflexivity. }
  destruct (Hdec cx cy) as (env & Henv & Hr & Hamps & Hh & Hwx & Hwy).
  destruct (Hdec cx' cy') as (env' & Henv' & Hr' & Hamps' & Hh' & Hwx' & Hwy').
  exists env, env'. split; [exact Henv|]. split; [exact Henv'|].
  intros x y. unfold mm_rotpeak_at.
  rewrite Hr, Hr', Hamps, Hamps', Hh, Hh', Hwx, Hwx', Hwy, Hwy'. reflexivity.
Qed.

End ClosureProperties.

(** ** One-dimensional driver *)

Section OneDProperties.
Context {F : Type} `{Float F} `{NumPy F}.

Lemma mpfit_first_call_propagates {R : Type} :
  propagates (mpfit_first_call (F:=F) (R:=R)).
Proof.
  intros f pinfo q Hf. unfold mpfit_first_call.
  destruct (Hf (map (fun e => value e) pinfo)) as [e ->]. cbn [bind]. eauto.
Qed.

(** X13.  [onedmoments] raises NumPy's [ValueError] of a reduction over
    an empty array when the data are empty, and the [IndexError] of a
    boolean index of the wrong length when the data are not empty and the
    abscissa has another length. *)
Theorem onedmoments_rejects_bad_shapes (Xax data : list F) (vheight : bool)
  (estimator : list F -> F) (negamp : option bool) :
  (data = [] ->
   onedmoments Xax data vheight estimator negamp
   = inl (NumpyValueError "zero-size array to reduction operation minimum")) /\
  (data <> [] -> length Xax <> length data ->
   onedmoments Xax data vheight estimator negamp
   = inl (IndexError "boolean index did not match indexed array")).
Proof.
  split.
  - intros ->. reflexivity.
  - intros Hne Hlen. unfold onedmoments, onedmoments_estimates.
    destruct data as [|d data]; [contradiction|].
    cbn [length Nat.eqb]. cbv zeta.
    unfold bool_index at 1. rewrite length_map.
    apply Nat.eqb_neq in Hlen. rewrite Hlen. reflexivity.
Qed.

(** X14.  [onedpeakfit] never returns: with a solver that lets the
    exception of its residual function through, every call raises, whatever
    the arguments. *)
Theorem onedpeakfit_always_raises (median : list F -> F)
  (mpfit : solver F F bool (pyobj F))
  (peakfunc : F -> F -> F) (xax : option (list F)) (data : list F)
  (err : option (list F)) (params : list F) (fixed : list bool)
  (limitedmin limitedmax : list bool) (minpars maxpars : list F)
  (quiet vheight : bool) (negamp : option bool) (usemoments : bool) :
  propagates mpfit ->
  exists e, onedpeakfit median mpfit peakfunc xax data err params fixed
                        limitedmin limitedmax minpars maxpars quiet vheight
                        negamp usemoments = inl e.
Proof. intros Hp. apply onedpeakfit_never_returns. exact Hp. Qed.

End OneDProperties.

(** ** Multi-peak driver *)

Section MultiPeakProperties.
Context {F : Type} `{Float F} `{NumPy F}.

Lemma infer_npeak_max (npeak : nat) (params : list (pyval F)) :
  infer_npeak npeak params = Nat.max npeak (length params / 3).
Proof.
  unfold infer_npeak.
  pose proof (Nat.div_mod_eq (length params) 3) as Hd.
  destruct (length params =? npeak)%nat eqn:E1; cbn [negb andb].
  - apply Nat.eqb_eq in E1. lia.
  - destruct (npeak <? length params / 3)%nat eqn:E2.
    + apply Nat.ltb_lt in E2. lia.
    + apply Nat.ltb_ge in E2. lia.
Qed.

Lemma normalize_lists_length (npeak : nat) (st : peak_lists F) (w : which_list) :
  length (get_list w (normalize_lists npeak st)) = (3 * npeak)%nat.
Proof.
  unfold normalize_lists. cbn [fold_left].
  destruct w;
    repeat first [apply fix_length_length | apply fix_length_keeps].
Qed.

Lemma multi_parinfo_records (st : peak_lists F) (k : nat) :
  (forall w, length (get_list w st) = k) ->
  exists pinfo,
    multi_parinfo st = inr pinfo /\
    length pinfo = k /\
    forall i e, nth_error pinfo i = Some e ->
      n e = i /\ error e = i /\ parname e = multi_parname i /\
      forall w, nth_error (get_list w st) i =
                Some (record_field w e).
Proof.
  intros Hlen. unfold multi_parinfo.
  match goal with
  | |- context [collect (map ?f ?l)] =>
      destruct (@collect_total _ _ _ f l) as [pinfo Hp]
  end.
  - intros ii Hin. apply in_seq in Hin.
    pose proof (Hlen Params) as Hl. cbn [get_list] in Hl.
    assert (Hget : forall w, exists v, nth_error (get_list w st) ii = Some v).
    { intros w. destruct (nth_error (get_list w st) ii) eqn:E; [eauto|].
      apply nth_error_None in E. rewrite Hlen in E. lia. }
    destruct (Hget Params) as [v Hv], (Hget Minpars) as [lo Hlo],
      (Hget Maxpars) as [hi Hhi], (Hget Limitedmin) as [lmin Hlmin],
      (Hget Limitedmax) as [lmax Hlmax], (Hget Fixed) as [fx Hfx].
    cbn [get_list] in *.
    rewrite (getitem_some _ _ Hv), (getitem_some _ _ Hlo), (getitem_some _ _ Hhi),
      (getitem_some _ _ Hlmin), (getitem_some _ _ Hlmax), (getitem_some _ _ Hfx).
    unfold ret. cbn [bind]. eexists. reflexivity.
  - exists pinfo. split; [exact Hp|].
    apply collect_map in Hp. apply Forall2_nth_error_seq in Hp.
    destruct Hp as [Hl Hnth]. split.
    + rewrite Hl. apply (Hlen Params).
    + intros i e He. specialize (Hnth i e He). cbn [Nat.add] in Hnth.
      invert_binds.
      repeat match goal with
             | Hg : getitem _ _ = inr _ |- _ => apply getitem_inr in Hg
             end.
      unfold ret in Hnth. injection Hnth as <-.
      do 3 (split; [reflexivity|]).
      intros w. destruct w; cbn [get_list record_field value limits limited fixed fst snd];
        assumption.
Qed.

(** X18.  [multipeakfit] always builds its records, whatever the lengths
    of the six lists: three for each of [max(npeak, len(params) // 3)]
    peaks.  Record [i] has number and [error] entry [i], is named
    AMPLITUDE0, SHIFT1 or WIDTH2 by [i] modulo 3, and holds entry [i] of each
    normalized list. *)
Theorem multipeakfit_setup_records (npeak : nat) (lists : peak_lists F) :
  let peaks := Nat.max npeak (length (pl_params lists) / 3) in
  exists pinfo,
    multipeakfit_setup npeak lists = inr pinfo /\
    length pinfo = (3 * peaks)%nat /\
    forall i e, nth_error pinfo i = Some e ->
      n e = i /\ error e = i /\ parname e = multi_parname i /\
      forall w, nth_error (get_list w (normalize_lists peaks lists)) i =
                Some (record_field w e).
Proof.
  cbv zeta. unfold multipeakfit_setup. rewrite infer_npeak_max.
  apply multi_parinfo_records. intros w. apply normalize_lists_length.
Qed.

Lemma length_add_peak (peakfunc : F -> F -> F) (x : list F) (ts : list (F * F * F))
  (v : list F) :
  length v = length x ->
  length (fold_left (fun v '(a, dx, sigma) =>
                       map (fun '(vi, xi) => fadd vi (fmul a (peakfunc (fsub xi dx) sigma)))
                           (combine v x)) ts v) = length x.
Proof.
  revert v. induction ts as [|[[a dx] sigma] ts IH]; intros v Hv; cbn [fold_left].
  - exact Hv.
  - apply IH. rewrite length_map, length_combine. lia.
Qed.

Lemma triples_app (k : nat) (p q : list F) :
  length p = (3 * k)%nat -> triples (p ++ q) = triples p ++ triples q.
Proof.
  revert p. induction k as [|k IH]; intros p Hp.
  - destruct p; [reflexivity|]. cbn in Hp. lia.
  - destruct p as [|a [|dx [|sigma p]]]; cbn in Hp; try lia.
    cbn [app triples]. rewrite IH by lia. reflexivity.
Qed.

Lemma n_peak_returns (peakfunc : F -> F -> F) (pars : list F) :
  length pars mod 3 = 0 ->
  exists g, n_peak peakfunc pars = inr g /\
            forall x, length (g x) = length x.
Proof.
  intros Hm. unfold n_peak. rewrite Hm. cbn [Nat.eqb]. eexists. split; [reflexivity|].
  intros x. apply length_add_peak. apply repeat_length.
Qed.

(** X15.  [n_peak] called with [pars] alone raises [TypeError] unless the
    length of [pars] is a multiple of three; otherwise it returns a function
    whose value has one entry for each point of the abscissa, all zero when
    [pars] is empty. *)
Theorem n_peak_takes_triples (peakfunc : F -> F -> F) (pars : list F) :
  (length pars mod 3 <> 0 ->
   n_peak peakfunc pars = inl (TypeError "object of type 'NoneType' has no len()")) /\
  (length pars mod 3 = 0 ->
   exists g, n_peak peakfunc pars = inr g /\
             forall x, length (g x) = length x) /\
  (exists g, n_peak peakfunc [] = inr g /\
             forall x, g x = repeat (of_int 0) (length x)).
Proof.
  split; [|split].
  - intros Hm. unfold n_peak. apply Nat.eqb_neq in Hm. rewrite Hm. reflexivity.
  - apply n_peak_returns.
  - unfold n_peak. cbn. eexists. split; reflexivity.
Qed.

(** X16.  A triple [(a, dx, sigma)] appended to a vector of whole triples
    adds its peak to the sum of the others: the new function is the old one
    plus [a * peakfunc(x - dx, sigma)] at every point. *)
Theorem n_peak_adds_last_peak (peakfunc : F -> F -> F) (pars : list F)
  (a dx sigma : F) :
  length pars mod 3 = 0 ->
  exists g g',
    n_peak peakfunc pars = inr g /\
    n_peak peakfunc (pars ++ [a; dx; sigma]) = inr g' /\
    forall x,
      g' x = map (fun '(vi, xi) => fadd vi (fmul a (peakfunc (fsub xi dx) sigma)))
                 (combine (g x) x).
Proof.
  intros Hm. unfold n_peak.
  assert (Hm' : length (pars ++ [a; dx; sigma]) mod 3 = 0).
  { rewrite length_app. cbn [length].
    replace (length pars + 3)%nat with (length pars + 1 * 3)%nat by lia.
    rewrite Nat.Div0.mod_add. exact Hm. }
  rewrite Hm, Hm'. cbn [Nat.eqb]. do 2 eexists. split; [reflexivity|].
  split; [reflexivity|]. intros x. cbv beta.
  rewrite (@triples_app (length pars / 3)).
  - rewrite fold_left_app. reflexivity.
  - pose proof (Nat.div_mod_eq (length pars) 3). lia.
Qed.

(** X17.  For data and abscissa (and errors, when given) of one length,
    the residual function of [multipeakfit] returns status 0 and one
    residual for each data point on the vectors of whole triples, and raises
    [TypeError] on every other vector. *)
Theorem multi_mpfitfun_defined (peakfunc : F -> F -> F) (x y : list F)
  (err : option (list F)) (p : list F) :
  length x = length y ->
  match err with Some e => length e = length y | None => True end ->
  (length p mod 3 = 0 ->
   exists r, multi_mpfitfun peakfunc x y err p = inr (0%Z, r) /\ length r = length y) /\
  (length p mod 3 <> 0 ->
   exists what, multi_mpfitfun peakfunc x y err p = inl (TypeError what)).
Proof.
  intros Hxy Herr. unfold multi_mpfitfun. split.
  - intros Hm.
    destruct (n_peak_returns peakfunc p Hm) as (g & -> & Hg).
    cbn [bind]. unfold broadcast2.
    rewrite Hg, Hxy, Nat.eqb_refl. unfold ret. cbn [bind].
    assert (Hd : length (map (fun '(u, w) => fsub u w) (combine y (g x))) = length y).
    { rewrite length_map, length_combine, Hg. lia. }
    destruct err as [e|].
    + rewrite Hd, Herr, Nat.eqb_refl. cbn [bind]. eexists. split; [reflexivity|].
      rewrite length_map, length_combine, Hd. lia.
    + eexists. split; [reflexivity|]. exact Hd.
  - intros Hm. unfold n_peak. apply Nat.eqb_neq in Hm. rewrite Hm. cbn [bind raise].
    eauto.
Qed.

(** X19.  Unless [limitedmin] has a wrong length and compares equal to
    [limitedmax], the records [multipeakfit] hands to the solver carry the
    six lists normalized as documented: a list of length [3n] as it is, a
    list of length 3 replicated [n] times, any other list replaced by its
    defaults replicated [n] times, for [n = max(npeak, len(params) // 3)]. *)
Theorem multipeakfit_records_normalized (npeak : nat) (lists : peak_lists F) :
  let peaks := Nat.max npeak (length (pl_params lists) / 3) in
  (length (pl_limitedmin lists) = 3 * peaks \/ length (pl_limitedmin lists) = 3 \/
   pylist_eqb (pl_limitedmin lists) (pl_limitedmax lists) = false)%nat ->
  exists pinfo,
    multipeakfit_setup npeak lists = inr pinfo /\
    forall w, map (record_field w) pinfo = spec_normalized peaks w (get_list w lists).
Proof.
  cbv zeta. intros Hmin. unfold multipeakfit_setup. rewrite infer_npeak_max.
  remember (Nat.max npeak (length (pl_params lists) / 3)) as peaks eqn:Hpeaks.
  clear Hpeaks.
  destruct (multi_parinfo_records (normalize_lists peaks lists) (k:=3 * peaks))
    as (pinfo & Hp & Hlen & Hrec).
  { intros w. apply normalize_lists_length. }
  exists pinfo. split; [exact Hp|]. intros w.
  rewrite <- normalize_lists_spec by (intros _; exact Hmin).
  apply nth_error_ext. intros i. rewrite nth_error_map.
  destruct (nth_error pinfo i) as [e|] eqn:E; cbn [option_map].
  - destruct (Hrec i e E) as (_ & _ & _ & Hw). rewrite (Hw w).
    destruct w; reflexivity.
  - symmetry. apply nth_error_None. apply nth_error_None in E.
    rewrite normalize_lists_length. lia.
Qed.

End MultiPeakProperties.

Section MultiPeakOutcomes.
Context {F : Type} `{Float F} `{NumPy F}.

(** X22.  What a call of [multipeakfit] ends with is read off the solver's
    answer: the records are always built, an exception of the solver is
    passed on, a status of 0 raises the solver's message, parameters that
    are not whole triples raise [TypeError], and otherwise the call returns
    the solver's parameters, errors and norm with a model of one value for
    each point of the abscissa. *)
Theorem multipeakfit_outcomes
  (mpfit : solver F (pyval F) (pyval F) (list F))
  (peakfunc : F -> F -> F) (xax : option (list F)) (data : list F) (npeak : nat)
  (err : option (list F)) (lists : peak_lists F) (quiet : bool) :
  let run := multipeakfit mpfit peakfunc xax data npeak err lists quiet in
  exists pinfo,
    multipeakfit_setup npeak lists = inr pinfo /\
    match mpfit (multi_mpfitfun peakfunc (default_xax xax data) data err) pinfo quiet with
    | inl e => run = inl e
    | inr m =>
        if (mp_status m =? 0)%Z then run = inl (PlainException (mp_errmsg m))
        else if (length (mp_params m) mod 3 =? 0)%nat
             then exists model,
                    run = inr (mp_params m, model, mp_perror m, mp_fnorm m) /\
                    length model = length (default_xax xax data)
             else exists what, run = inl (TypeError what)
    end.
Proof.
  cbv zeta.
  destruct (multi_parinfo_records
              (normalize_lists (Nat.max npeak (length (pl_params lists) / 3)) lists)
              (k := 3 * Nat.max npeak (length (pl_params lists) / 3)))
    as (pinfo & Hp & _).
  { intros w. apply normalize_lists_length. }
  exists pinfo.
  assert (Hsetup : multipeakfit_setup npeak lists = inr pinfo).
  { unfold multipeakfit_setup. rewrite infer_npeak_max. exact Hp. }
  split; [exact Hsetup|].
  unfold multipeakfit. rewrite Hsetup. cbn [bind].
  destruct (mpfit _ pinfo quiet) as [e|m]; cbn [bind]; [reflexivity|].
  destruct (mp_status m =? 0)%Z; [reflexivity|].
  destruct (length (mp_params m) mod 3 =? 0)%nat eqn:Em.
  - apply Nat.eqb_eq in Em.
    destruct (n_peak_returns peakfunc (mp_params m) Em) as (g & -> & Hg).
    cbn [bind]. unfold ret. eexists. split; [reflexivity|]. apply Hg.
  - unfold n_peak. rewrite Em. cbn [bind raise]. eauto.
Qed.

End MultiPeakOutcomes.

(** ** Cube driver *)

Section CollapseProperties.
Context {F : Type} `{Float F} `{NumPy F}.

Section Loop.
Variable median : list F -> F.
Variable mpfit : solver F F bool (pyobj F).
Variable peakfunc : F -> F -> F.
Variable c : cube F.
Variable xax : list F.
Variable negamp usemoments : bool.
Variable mean_std nsigcut mppsigcut : F.
Variable params : list F.
Variable fixed limitedmin limitedmax : list bool.
Variable minpars maxpars : list F.
Variable quiet vheight : bool.
Hypothesis Hsolver : propagates mpfit.

Let step := collapse_step median mpfit peakfunc c xax negamp usemoments
              mean_std nsigcut mppsigcut params fixed limitedmin limitedmax
              minpars maxpars quiet vheight.

Lemma collapse_step_cases (maps : fit_maps F) (i j : nat) :
  if significant negamp mean_std nsigcut (spectrum_at c i j)
  then exists e, step maps (i, j) = inl e
  else step maps (i, j) = inr maps.
Proof.
  unfold step, collapse_step. destruct (cube_shape c) as [[na nb] nspec].
  destruct (significant negamp mean_std nsigcut (spectrum_at c i j)); [|reflexivity].
  match goal with
  | |- context [onedpeakfit ?a1 ?a2 ?a3 ?a4 ?a5 ?a6 ?a7 ?a8 ?a9 ?a10 ?a11 ?a12 ?a13 ?a14 ?a15 ?a16] =>
      destruct (@onedpeakfit_never_returns F _ _ a1 a2 a3 a4 a5 a6 a7 a8 a9 a10 a11 a12
                  a13 a14 a15 a16 Hsolver) as [e ->]
  end.
  cbn [bind]. eauto.
Qed.

Lemma collapse_loop_quiet (l : list (nat * nat)) (maps : fit_maps F) :
  (forall i j, In (i, j) l ->
     significant negamp mean_std nsigcut (spectrum_at c i j) = false) ->
  fold_left (fun acc ij => m <- acc ;; step m ij) l (ret maps) = inr maps.
Proof.
  induction l as [|[i j] l IH]; intros Hq; [reflexivity|].
  cbn [fold_left]. unfold ret at 1. cbn [bind].
  pose proof (collapse_step_cases maps i j) as Hs.
  rewrite (Hq i j (or_introl eq_refl)) in Hs. rewrite Hs.
  apply IH. intros i' j' Hin. apply Hq. right. exact Hin.
Qed.

Lemma collapse_loop_raises (l : list (nat * nat)) (maps : fit_maps F) (i j : nat) :
  In (i, j) l ->
  significant negamp mean_std nsigcut (spectrum_at c i j) = true ->
  exists e, fold_left (fun acc ij => m <- acc ;; step m ij) l (ret maps) = inl e.
Proof.
  induction l as [|[i' j'] l IH]; intros Hin Hs; [contradiction|].
  cbn [fold_left]. unfold ret at 1. cbn [bind].
  pose proof (collapse_step_cases maps i' j') as Hc.
  destruct (significant negamp mean_std nsigcut (spectrum_at c i' j')) eqn:E.
  - destruct Hc as [e ->]. exists e. apply fold_raised.
  - rewrite Hc. destruct Hin as [Heq|Hin].
    + inversion Heq. subst. congruence.
    + apply IH; assumption.
Qed.

End Loop.

(** X20.  [collapse_peakfit] never reports a fit.  On a cube without
    channels it raises NumPy's [ValueError].  Otherwise, with a solver that
    lets the exception of its residual function through, the call raises as
    soon as one spectrum passes the significance cut, and when none does it
    returns its four (with [return_errors], seven) maps filled with nan. *)
Theorem collapse_peakfit_never_fits
  (median : list F -> F) (mpfit : solver F F bool (pyobj F))
  (peakfunc : F -> F -> F) (c : cube F) (xax : option (list F))
  (negamp usemoments : bool) (nsigcut mppsigcut : F) (return_errors : bool)
  (params : list F) (fixed : list bool) (limitedmin limitedmax : list bool)
  (minpars maxpars : list F) (quiet vheight : bool) :
  propagates mpfit ->
  let run := collapse_peakfit median mpfit peakfunc c xax negamp usemoments nsigcut
               mppsigcut return_errors params fixed limitedmin limitedmax
               minpars maxpars quiet vheight in
  let cut := significant negamp (mean_std_of median c) nsigcut in
  let rows := snd (fst (cube_shape c)) in
  let cols := fst (fst (cube_shape c)) in
  let channels := snd (cube_shape c) in
  (channels = 0%nat -> exists what, run = inl (NumpyValueError what)) /\
  (channels <> 0%nat ->
   (exists i j, (i < rows)%nat /\ (j < cols)%nat /\ cut (spectrum_at c i j) = true) ->
   exists e, run = inl e) /\
  (channels <> 0%nat ->
   (forall i j, (i < rows)%nat -> (j < cols)%nat -> cut (spectrum_at c i j) = false) ->
   run = inr (repeat (nan_map rows cols) (if return_errors then 7 else 4))).
Proof.
  intros Hsolver. cbv zeta. unfold collapse_peakfit.
  destruct (cube_shape c) as [[na nb] nspec] eqn:Hshape. cbn [fst snd].
  split; [|split].
  - intros ->. cbn [Nat.eqb]. unfold raise. eauto.
  - intros Hn. apply Nat.eqb_neq in Hn. rewrite Hn.
    intros (i & j & Hi & Hj & Hcut).
    match goal with
    | |- context [fold_left _ ?l (ret ?m)] =>
        destruct (@collapse_loop_raises median mpfit peakfunc c
                    (match xax with None => arange nspec | Some x => x end)
                    negamp usemoments (mean_std_of median c) nsigcut mppsigcut
                    params fixed limitedmin limitedmax minpars maxpars quiet vheight
                    Hsolver l m i j) as [e He]
    end.
    + apply in_indices. lia.
    + exact Hcut.
    + rewrite He. cbn [bind]. eauto.
  - intros Hn. apply Nat.eqb_neq in Hn. rewrite Hn. intros Hquiet.
    rewrite (@collapse_loop_quiet median mpfit peakfunc c
               (match xax with None => arange nspec | Some x => x end)
               negamp usemoments (mean_std_of median c) nsigcut mppsigcut
               params fixed limitedmin limitedmax minpars maxpars quiet vheight
               Hsolver).
    + cbn [bind]. destruct return_errors; reflexivity.
    + intros i j Hin. apply in_indices in Hin. apply Hquiet; lia.
Qed.

End CollapseProperties.

(** * Closed examples on binary64 numbers *)

Module Examples.
Import Floats.
Import Binary64.
Import Fixtures.
Local Open Scope float_scope.

(** From an equation between two different floats, anything. *)
Ltac floats_differ Hyp :=
  match type of Hyp with
  | ?a = _ => apply (f_equal (PrimFloat.eqb a)) in Hyp; vm_compute in Hyp;
              discriminate Hyp
  end.

(** The decoders on small vectors. *)
Example twodpeak_decodes :
  twodpeak [0; 1; 64; 32; 8; 4] false false true =
  inr {| height := 0; amplitude := 1; center_x := 32; center_y := 64;
         width_x := 8; width_y := 4; rotate_on := false; rota := None;
         rcen_x := 32; rcen_y := 64 |}.
Proof. reflexivity. Qed.

Example twodpeak_short_vector :
  twodpeak [0; 1; 64] false false true = inl (IndexError "pop from empty list").
Proof. reflexivity. Qed.

Example float_mod_values :
  float_mod 200 180 = 20 /\ float_mod 190 180 = 10 /\ float_mod (-30) 180 = 150.
Proof. repeat split; vm_compute; reflexivity. Qed.

Example onedmoments_flat_data :
  onedmoments [0; 1; 2] [1; 1; 1] true median None = inl SomethingIsNan.
Proof. vm_compute. reflexivity. Qed.

Example onedmoments_peak :
  onedmoments [0; 1; 2; 3; 4] [0; 1; 5; 1; 0] true median None = inr [1; 4; 2; 0.25].
Proof. vm_compute. reflexivity. Qed.

Example onedpeak_right_order :
  call_onedpeak [Callable lorentz; Arr [0; 1; 2]; Num 0; Num 1; Num 1; Num 1]
  = inr (Arr [0.5; 1; 0.5]).
Proof. vm_compute. reflexivity. Qed.

(** Witness of C1: one extra trailing value, for each decoder. *)
Lemma residual_parameters_raise_witness :
  twodpeak [0; 1; 64; 64; 8; 8; 99] false false true
  = inl (ResidualParameters [99] [0; 1; 64; 64; 8; 8; 99] false false true) /\
  mm_laguerregauss_2d [0; 10; 20; 3; 4; 1; 0.5; 7] 1 0 false false true
  = inl (ResidualParameters [1] [0; 10; 20; 3; 4; 1; 0.5; 7] false false true).
Proof.
  split.
  - apply (proj1 (residual_parameters_raise false false true 0 0
                    [0; 1; 64; 64; 8; 8; 99])).
    cbn. lia.
  - apply (proj2 (residual_parameters_raise false false true 1 0
                    [0; 10; 20; 3; 4; 1; 0.5; 7])).
    cbn. lia.
Defined.

(** Counterexample to C2 as stated: the multimode decoder puts the second
    scalar, 10, into center_x and the third, 20, into center_y, where the
    stated order has center_y before center_x. *)
Lemma multimode_center_order_counterexample :
  exists env,
    mm_laguerregauss_2d [0; 10; 20; 3; 4; 1; 0.5] 1 0 false false true = inr env /\
    mm_center_x env = 10 /\ mm_center_y env = 20 /\
    ~ Forall2 (mm_reads env) (spec_field_order true false false true)
              (del_tail 2 [0; 10; 20; 3; 4; 1; 0.5]).
Proof.
  eexists. split; [reflexivity|]. split; [reflexivity|]. split; [reflexivity|].
  cbn. intros Hall.
  inversion Hall as [|? ? ? ? _ Hrest]. inversion Hrest as [|? ? ? ? Hcy _].
  cbn in Hcy. floats_differ Hcy.
Qed.

(** Witness of C2 as amended. *)
Lemma decoders_pop_in_order_witness :
  (exists env,
     twodpeak [0; 1; 64; 32; 4; 12; 0] false true true = inr env /\
     Forall2 (reads env) (spec_field_order false false true true)
             [0; 1; 64; 32; 4; 12; 0]) /\
  (exists env,
     mm_laguerregauss_2d [0; 10; 20; 3; 4; 1; 0.5] 1 0 false false true = inr env /\
     Forall2 (mm_reads env) (popped_field_order true false false true)
             (del_tail 2 [0; 10; 20; 3; 4; 1; 0.5])).
Proof.
  split.
  - destruct (proj1 (decoders_pop_in_order false true true 0 0
                       [0; 1; 64; 32; 4; 12; 0]) eq_refl)
      as (env & Hdec & Hall & _).
    exists env. split; assumption.
  - destruct (proj2 (decoders_pop_in_order false false true 1 0
                       [0; 10; 20; 3; 4; 1; 0.5]) eq_refl)
      as (env & Hdec & _ & Hall & _).
    exists env. split; assumption.
Defined.

(** C3 on the code: an elliptical, rotated multimode fit whose solver ends
    at 200 degrees, with a last mode amplitude of 190.  The returned vector
    keeps the angle at 200, where 200 mod 180 is 20, and carries 10 in place
    of the amplitude 190: line 517 wraps the last entry of the vector, which
    in the multimode layout is an amplitude. *)
Lemma mm_fit_wraps_amplitude_not_angle :
  mm_laguerregauss2d_fit no_rotpeak (moments_giving []) (solver_returning fit_at_200_degrees)
    image 1 0 None [0; 5; 5; 2; 3; 30] true false false fixed6 unlimited6 unlimited6 []
    minpars6 maxpars6 0 2 true false true true true false false
  = inr (ReturnParams [0; 5; 5; 2; 3; 200; 1; 10], None) /\
  float_mod 200 180 = 20.
Proof. split; vm_compute; reflexivity. Qed.

(** The same solver result under [peakfit]'s seven-entry layout is handled
    as specified: the last entry is the angle. *)
Example peakfit_wraps_angle :
  peakfit (moments_giving [])
    (solver_returning {| mp_params := [0; 1; 5; 5; 2; 3; 200]; mp_perror := repeat 0 7;
                         mp_fnorm := 0; mp_dof := 10; mp_scalars := NumPyScalars;
                         mp_status := 1; mp_errmsg := "" |})
    lorentz2d image None [0; 1; 5; 5; 2; 3; 30] true false false fixed7
    limitedmin7 limitedmax7 [] minpars7 maxpars7 true true true false false
  = inr (ReturnParams [0; 1; 5; 5; 2; 3; 20], None).
Proof. vm_compute. reflexivity. Qed.

(** Witness of C4: the two copies of the masked image. *)
Lemma peakfit_ignores_masked_values_witness :
  same_unmasked masked_million masked_zero /\
  peakfit (moments_giving []) mpfit_no_iteration lorentz2d masked_million None
    [0; 1; 0; 0; 1; 1] true false false fixed7 limitedmin7 limitedmax7 []
    minpars7 maxpars7 false true true false false
  = peakfit (moments_giving []) mpfit_no_iteration lorentz2d masked_zero None
    [0; 1; 0; 0; 1; 1] true false false fixed7 limitedmin7 limitedmax7 []
    minpars7 maxpars7 false true true false false.
Proof.
  assert (Hsame : same_unmasked masked_million masked_zero).
  { split; [reflexivity|].
    repeat constructor; cbn; first [reflexivity | discriminate]. }
  split; [exact Hsame|].
  apply (proj2 (peakfit_ignores_masked_values
                  (moments_giving []) lorentz2d None
                  [0; 1; 0; 0; 1; 1] true false false fixed7 limitedmin7 limitedmax7 []
                  minpars7 maxpars7 false true true false false
                  Hsame (mpfit_no_iteration_extensional (F:=float)) eq_refl)).
Defined.

(** The fit the two copies share. *)
Example masked_fit_value :
  peakfit (moments_giving []) mpfit_no_iteration lorentz2d masked_million None
    [0; 1; 0; 0; 1; 1] true false false fixed7 limitedmin7 limitedmax7 []
    minpars7 maxpars7 false true true false false
  = inr (ReturnParams [0; 1; 0; 0; 1; 1], None).
Proof. vm_compute. reflexivity. Qed.

(** Solver results outside the contract, on which the tests of the two
    drivers part: a non-empty message with status -16 makes [peakfit] raise
    and lets [multipeakfit] return; a status 0 with an empty message makes
    [multipeakfit] raise and lets [peakfit] return. *)
Example status_and_message_disagree :
  (mp_errmsg overflow_failure <> "" /\
   (exists model,
      multipeakfit (solver_returning overflow_failure) lorentz None [0; 1; 0] 1 None
                   default_lists true
      = inr ([1; 0; 1], model, [0; 0; 0], 0)) /\
   peakfit (moments_giving []) (solver_returning overflow_failure) lorentz2d image None
     [0; 1; 0; 0; 1; 1] true false false fixed7 limitedmin7 limitedmax7 []
     minpars7 maxpars7 false true true false false
   = inl (MPFITError (mp_errmsg overflow_failure))) /\
  (mp_errmsg silent_status_zero = "" /\
   multipeakfit (solver_returning silent_status_zero) lorentz None [0; 1; 0] 1 None
                default_lists true
   = inl (PlainException "") /\
   peakfit (moments_giving []) (solver_returning silent_status_zero) lorentz2d image None
     [0; 1; 0; 0; 1; 1] true false false fixed7 limitedmin7 limitedmax7 []
     minpars7 maxpars7 false true true false false
   = inr (ReturnParams [1; 0; 1], None)).
Proof.
  split; split.
  - discriminate.
  - split; [eexists; vm_compute; reflexivity|vm_compute; reflexivity].
  - reflexivity.
  - split; vm_compute; reflexivity.
Qed.


(** C6 on the code: [npeak=2] with the default lists, except that
    [limitedmin] and [limitedmax] are both [[False]].  [limitedmin] compares
    equal to [limitedmax] at line 936 and receives [[False, False, False] * 2]
    where its own defaults are [[False, False, True] * 2]; the solver is
    handed no lower limit on either width. *)
Lemma limitedmin_takes_flag_defaults :
  pl_limitedmin (normalize_lists 2 clashing_lists)
  = [PBool false; PBool false; PBool false; PBool false; PBool false; PBool false] /\
  spec_normalized 2 Limitedmin (pl_limitedmin clashing_lists)
  = [PBool false; PBool false; PBool true; PBool false; PBool false; PBool true] /\
  match multipeakfit_setup 2 clashing_lists with
  | inr pinfo => map (fun e => fst (limited e)) pinfo = repeat (PBool false) 6
  | inl _ => False
  end.
Proof. repeat split; vm_compute; reflexivity. Qed.

(** The replication the claim names, [npeak=3] with lists of length 3,
    against the call written out with lists of length 9. *)
Example three_peaks_replicated :
  multipeakfit_setup 3 default_lists
  = multipeakfit_setup 3 (replicate_all 3 default_lists).
Proof. vm_compute. reflexivity. Qed.

(** C7 on the code: the default call on data whose moments are height 0,
    amplitude 1, center (5, 5), widths (2, 2), angle 0.  The amplitude array
    is [[1, 0]], and both mode records start at 0, the value of
    [params[n+1]], the amplitude of mode (1, 0); the record of mode (0, 0)
    does not start at its amplitude 1. *)
Lemma modeamp_start_value_ignores_mode :
  match mm_setup (moments_giving [0; 1; 5; 5; 2; 2; 0]) image 1 0 [] false fixed6
                 limitedmin6 limitedmax6 [] minpars6 maxpars6 0 2 true false true true with
  | inr (params, amps, pinfo) =>
      params = [0; 5; 5; 2; 2; 0; 1; 0] /\
      amps = [1%Z; 0%Z] /\
      map (fun e => (parname e, value e, limits e)) (skipn 6 pinfo)
      = [("MODEAMP (0, 0)"%string, 0, (0, 2));
         ("MODEAMP (1, 0)"%string, 0, (0, 2))]
  | inl _ => False
  end.
Proof. vm_compute. repeat split. Qed.

(** With a single mode the lookup of line 502 is out of range. *)
Example single_mode_lookup_fails :
  mm_setup (moments_giving [0; 1; 5; 5; 2; 2; 0]) image 0 0 [] false fixed6
           limitedmin6 limitedmax6 [] minpars6 maxpars6 0 2 true false true true
  = inl (IndexError "index out of range").
Proof. vm_compute. reflexivity. Qed.

(** C8 on the code: fits that leave no degree of freedom.  [peakfit] fits
    its six parameters to an image of six pixels, with a solver that stops
    at the start values: the cost is positive, the degrees of freedom are
    6 - 6 = 0.  [mm_laguerregauss2d_fit] receives a solver result with cost
    3 and no degree of freedom.  The cost is a NumPy scalar: dividing it by
    zero raises nothing, the except clause of lines 674-677 and 520-523 does
    not run, and the reduced chi-square is reported as infinity, which is
    not not-a-number. *)
Lemma zero_dof_reports_infinity :
  (exists ft,
     peakfit (moments_giving []) mpfit_no_iteration lorentz2d six_pixels None
       [0; 1; 0; 0; 1; 1] true false false fixed7 limitedmin7 limitedmax7 []
       minpars7 maxpars7 false true true true false
     = inr (ReturnMp ft, None) /\
     mp_dof (mp ft) = 0%Z /\ mp_errmsg (mp ft) = ""%string /\
     chi2 ft = mp_fnorm (mp ft) /\
     chi2n ft = infinity /\ isnan (chi2n ft) = false) /\
  (exists ft,
     mm_laguerregauss2d_fit no_rotpeak (moments_giving [0; 1; 5; 5; 2; 2; 0])
       (solver_returning no_degrees_of_freedom) image 1 0 None [] true false false
       fixed6 limitedmin6 limitedmax6 [] minpars6 maxpars6 0 2 true false
       false true true true false
     = inr (ReturnMp ft, None) /\
     mp_dof (mp ft) = 0%Z /\ mp_errmsg (mp ft) = ""%string /\
     chi2 ft = 3 /\
     chi2n ft = infinity /\ isnan (chi2n ft) = false).
Proof.
  split; eexists; (split; [vm_compute; reflexivity|]); repeat split.
Qed.

(** The same result with a cost that is a Python float: the division raises,
    the except clause runs, and the reduced chi-square is not-a-number. *)
Example python_numbers_report_nan :
  peakfit (moments_giving []) (solver_returning python_zero_dof) lorentz2d image None
    [0; 1; 0; 0; 1; 1] true false false fixed7 limitedmin7 limitedmax7 []
    minpars7 maxpars7 false true true true false
  = inr (ReturnMp {| mp := python_zero_dof; chi2 := 3; chi2n := nan |}, None).
Proof. vm_compute. reflexivity. Qed.

(** Witness of C9: a peak of height 5 on a background of 1. *)
Lemma onedmoments_nan_check_witness :
  exists height amplitude xcen width_x,
    onedmoments_estimates [0; 1; 2; 3; 4] [0; 1; 5; 1; 0] median None
    = inr (height, amplitude, xcen, width_x) /\
    (isnan width_x = false /\ isnan height = false /\ isnan amplitude = false ->
     onedmoments [0; 1; 2; 3; 4] [0; 1; 5; 1; 0] true median None
     = inr [height; amplitude; xcen; width_x]).
Proof.
  destruct (@onedmoments_nan_check float _ _ [0; 1; 2; 3; 4] [0; 1; 5; 1; 0]
              true median None)
    as (height & amplitude & xcen & width_x & Hest & _ & _ & Hok).
  - discriminate.
  - reflexivity.
  - vm_compute. lia.
  - vm_compute. lia.
  - exists height, amplitude, xcen, width_x. split; assumption.
Defined.

(** C10 at the default start values of [onedpeakfit]. *)
Example residual_at_default_start :
  oned_mpfitfun lorentz [0; 1; 2] [1; 2; 3] None [0; 1; 0; 1]
  = inl (TypeError "'numpy.ndarray' object is not callable").
Proof. reflexivity. Qed.

End Examples.

(** * Closed instances of the further properties *)

Module Witnesses.
Import Floats.
Import Binary64.
Import Fixtures.
Import MoreFixtures.
Local Open Scope float_scope.

(** X2 on the 2 x 2 image: a circular fit asked with and without
    [rotate]. *)
Lemma circle_makes_rotate_inert_witness :
  peakfit (moments_giving []) mpfit_no_iteration lorentz2d image None
    [0; 1; 0; 0; 1] true false true fixed7 limitedmin7 limitedmax7 []
    minpars7 maxpars7 true true true false false
  = peakfit (moments_giving []) mpfit_no_iteration lorentz2d image None
    [0; 1; 0; 0; 1] true false true fixed7 limitedmin7 limitedmax7 []
    minpars7 maxpars7 false true true false false.
Proof.
  apply (proj2 (@circle_makes_rotate_inert float _ _
                  (moments_giving []) mpfit_no_iteration lorentz2d image None
                  [0; 1; 0; 0; 1] true false fixed7 limitedmin7 limitedmax7 []
                  minpars7 maxpars7 true true true false false
                  (mpfit_no_iteration_extensional (F:=float)) eq_refl)).
Defined.

(** X3 on the default limits of [peakfit]: a negative width and an angle of
    200 degrees are clamped. *)
Lemma clamp_params_pointwise_witness :
  exists r,
    clamp_params minpars7 maxpars7 limitedmin7 limitedmax7 [0; 1; 5; 5; -2; 3; 200]
    = inr r /\
    nth_error r 4 = Some (clamp_one 0 0 true false (-2)) /\
    nth_error r 6 = Some (clamp_one 0 180 true true 200).
Proof.
  destruct (@clamp_params_pointwise float _ minpars7 maxpars7 limitedmin7 limitedmax7
              [0; 1; 5; 5; -2; 3; 200])
    as (r & Hr & _ & Hall); try (cbn; lia).
  exists r. split; [exact Hr|]. split; apply Hall; reflexivity.
Defined.

(** X4: the multimode driver with its default limit lists of six entries
    and the eight start values its docstring describes. *)
Lemma long_start_vector_raises_witness :
  exists what,
    mm_laguerregauss2d_fit no_rotpeak (moments_giving []) mpfit_no_iteration image
      1 0 None [0; 5; 5; 2; 3; 30; 1; 0] true false false fixed6
      limitedmin6 limitedmax6 [] minpars6 maxpars6 0 0 false false
      true true true false false = inl (IndexError what).
Proof.
  apply (proj2 (@long_start_vector_raises float _ _
                  (moments_giving []) mpfit_no_iteration no_rotpeak lorentz2d image
                  1%nat 0%nat None [0; 5; 5; 2; 3; 30; 1; 0] true false false fixed6
                  limitedmin6 limitedmax6 [] minpars6 maxpars6 0 0 false false
                  true true true false false eq_refl
                  ltac:(left; cbn; lia))).
Defined.

(** X6 on a start vector with the entries 5 and 7 after the amplitude. *)
Lemma shift_labels_follow_image_axes_witness :
  exists ex ey : parinfo float bool,
    parname ex = "XSHIFT"%string /\ value ex = 5 /\
    parname ey = "YSHIFT"%string /\ value ey = 7 /\
    forall env x y,
      twodpeak [0; 1; 5; 7; 2; 3] false false true = inr env ->
      rotpeak lorentz2d env x y =
      fadd (height env)
           (fmul (amplitude env) (lorentz2d (fsub x 7) (fsub y 5)
                                            (width_x env) (width_y env))).
Proof.
  destruct (@shift_labels_follow_image_axes float _ _ lorentz2d false false
              [0; 1; 5; 7; 2; 3] minpars7 maxpars7 limitedmin7 limitedmax7 fixed7
              (match peakfit_parinfo false false true [0; 1; 5; 7; 2; 3] minpars7
                       maxpars7 limitedmin7 limitedmax7 fixed7 with
               | inr pinfo => pinfo
               | inl _ => []
               end)
              (match twodpeak [0; 1; 5; 7; 2; 3] false false true with
               | inr env => env
               | inl _ => {| height := 0; amplitude := 0; center_x := 0; center_y := 0;
                             width_x := 0; width_y := 0; rotate_on := false;
                             rota := None; rcen_x := 0; rcen_y := 0 |}
               end)
              eq_refl eq_refl)
    as (ex & ey & Hinx & Hnx & Hiny & Hny & Hmodel).
  exists ex, ey.
  assert (Hvx : value ex = 5).
  { cbn in Hinx. clear - Hinx Hnx.
    repeat (destruct Hinx as [<-|Hinx]; [first [reflexivity|discriminate Hnx]|]).
    contradiction. }
  assert (Hvy : value ey = 7).
  { cbn in Hiny. clear - Hiny Hny.
    repeat (destruct Hiny as [<-|Hiny]; [first [reflexivity|discriminate Hny]|]).
    contradiction. }
  repeat split; try assumption.
  intros env x y Henv. cbn in Henv. injection Henv as <-.
  specialize (Hmodel eq_refl x y). rewrite Hvx, Hvy in Hmodel. exact Hmodel.
Defined.

(** X7 on the 2 x 2 image. *)
Lemma vheight_off_is_fixed_zero_height_witness :
  peakfit (moments_giving []) mpfit_no_iteration lorentz2d image None
    [1; 0; 0; 1; 1] true false false fixed7 limitedmin7 limitedmax7 []
    minpars7 maxpars7 false false true false false
  = peakfit (moments_giving []) mpfit_no_iteration lorentz2d image None
    [0; 1; 0; 0; 1; 1] true false false (list_set 0 true fixed7) limitedmin7
    limitedmax7 [] minpars7 maxpars7 false true true false false.
Proof.
  apply (proj1 (@vheight_off_is_fixed_zero_height float _ _
                  (moments_giving []) mpfit_no_iteration no_rotpeak lorentz2d image
                  1%nat 0%nat None [1; 0; 0; 1; 1] true false false fixed7
                  limitedmin7 limitedmax7 [] minpars7 maxpars7 0 0 false false
                  false true false false
                  ltac:(discriminate) ltac:(discriminate) eq_refl)).
Defined.

(** X8: a solver run that ends at 200 degrees. *)
Lemma peakfit_wraps_rotation_entry_witness :
  exists (pinfo : list (parinfo float bool)) m,
    solver_returning
      {| mp_params := [0; 1; 5; 5; 2; 3; 200]; mp_perror := repeat 0 7;
         mp_fnorm := 0; mp_dof := 10; mp_scalars := NumPyScalars;
                         mp_status := 1; mp_errmsg := "" |}
      (mpfitfun lorentz2d false true true image None) pinfo true = inr m /\
    map (fun e => parname e) pinfo = peakfit_parnames false true /\
    nth_error [0; 1; 5; 5; 2; 3; 20] (length (mp_params m) - 1)
    = Some (fmod (last (mp_params m) 0) 180) /\
    forall i, i <> (length (mp_params m) - 1)%nat ->
              nth_error [0; 1; 5; 5; 2; 3; 20] i = nth_error (mp_params m) i.
Proof.
  exact (@peakfit_wraps_rotation_entry float float_ops float_trig (moments_giving [])
           (solver_returning
              {| mp_params := [0; 1; 5; 5; 2; 3; 200]; mp_perror := repeat 0 7;
                 mp_fnorm := 0; mp_dof := 10; mp_scalars := NumPyScalars;
                         mp_status := 1; mp_errmsg := "" |})
           lorentz2d image None [0; 1; 5; 5; 2; 3; 30] true false fixed7
           limitedmin7 limitedmax7 [] minpars7 maxpars7 true true false false
           (ReturnParams [0; 1; 5; 5; 2; 3; 20]) None
           ltac:(vm_compute; reflexivity)).
Defined.

(** X10: two modes after the six fields of a rotated ellipse. *)
Lemma mm_parinfo_numbering_witness :
  exists pinfo : list (parinfo float bool),
    mm_parinfo 1 0 false true true [0; 5; 5; 2; 3; 30; 1; 0] [1; 0]%Z minpars6 maxpars6
               limitedmin6 limitedmax6 fixed6 0 0 false false = inr pinfo /\
    map (fun e => n e) pinfo = seq 0 8.
Proof.
  destruct (mm_parinfo 1 0 false true true [0; 5; 5; 2; 3; 30; 1; 0] [1; 0]%Z
                       minpars6 maxpars6 limitedmin6 limitedmax6 fixed6 0 0 false false)
    as [e|pinfo] eqn:Hp; [vm_compute in Hp; discriminate Hp|].
  exists pinfo. split; [reflexivity|].
  destruct (@mm_parinfo_numbering float 1 0 false true [0; 5; 5; 2; 3; 30; 1; 0]
              [1; 0]%Z minpars6 maxpars6 limitedmin6 limitedmax6 fixed6 0 0 false false
              pinfo Hp eq_refl) as [Hn Hl].
  rewrite Hn, Hl. reflexivity.
Defined.

(** X11 and X12 with pairs of floats for the complex numbers. *)
Lemma mm_closure_total_witness :
  exists value,
    mm_rotpeak_at toy_mode pair_scale pair_shift pair_add pair_abs_sq 1 0
      {| mm_amps := [1; 0.5]; mm_ampshape := [2%nat]; mm_height := 0;
         mm_center_x := 10; mm_center_y := 20; mm_width_x := 3; mm_width_y := 4;
         mm_rotate_on := false; mm_rota := None; mm_rcen_x := 10; mm_rcen_y := 20 |}
      1 2 = inr value.
Proof.
  apply (@mm_closure_total float _ _ _ toy_mode pair_scale pair_shift pair_add
           pair_abs_sq [0; 10; 20; 3; 4; 1; 0.5] 1 0 false false true).
  reflexivity.
Defined.

Lemma mm_unrotated_ignores_center_witness :
  exists env env',
    mm_laguerregauss_2d [0; 10; 20; 3; 4; 1; 0.5] 1 0 false false true = inr env /\
    mm_laguerregauss_2d [0; 1; 2; 3; 4; 1; 0.5] 1 0 false false true = inr env' /\
    forall x y,
      mm_rotpeak_at toy_mode pair_scale pair_shift pair_add pair_abs_sq 1 0 env x y =
      mm_rotpeak_at toy_mode pair_scale pair_shift pair_add pair_abs_sq 1 0 env' x y.
Proof.
  apply (@mm_unrotated_ignores_center float _ _ _ toy_mode pair_scale pair_shift
           pair_add pair_abs_sq 1 0 false false true 0 10 20 1 2 [3; 4] [1; 0.5]
           eq_refl eq_refl eq_refl).
Defined.

(** X14 with the default arguments and the solver that stops after its
    first call. *)
Lemma onedpeakfit_always_raises_witness :
  exists e,
    onedpeakfit median mpfit_first_call lorentz None [0; 1; 0] None params4 fixed4
                limitedmin4 limitedmax4 limits4 limits4 true true (Some false) false
    = inl e.
Proof.
  apply (@onedpeakfit_always_raises float _ _ median mpfit_first_call lorentz None
           [0; 1; 0] None params4 fixed4 limitedmin4 limitedmax4 limits4 limits4
           true true (Some false) false).
  apply mpfit_first_call_propagates.
Defined.

(** X16: a second peak appended to one peak. *)
Lemma n_peak_adds_last_peak_witness :
  exists g g',
    n_peak lorentz [1; 0; 1] = inr g /\
    n_peak lorentz [1; 0; 1; 2; 5; 1] = inr g' /\
    forall x,
      g' x = map (fun '(vi, xi) => fadd vi (fmul 2 (lorentz (fsub xi 5) 1)))
                 (combine (g x) x).
Proof.
  apply (@n_peak_adds_last_peak float _ lorentz [1; 0; 1] 2 5 1). reflexivity.
Defined.

(** X17 on three data points: one peak, and a vector of two entries. *)
Lemma multi_mpfitfun_defined_witness :
  (exists r, multi_mpfitfun lorentz [0; 1; 2] [0; 1; 0] None [1; 1; 1] = inr (0%Z, r) /\
             length r = 3%nat) /\
  (exists what, multi_mpfitfun lorentz [0; 1; 2] [0; 1; 0] None [1; 1]
                = inl (TypeError what)).
Proof.
  split.
  - apply (proj1 (@multi_mpfitfun_defined float _ lorentz [0; 1; 2] [0; 1; 0] None
                    [1; 1; 1] eq_refl I)).
    reflexivity.
  - apply (proj2 (@multi_mpfitfun_defined float _ lorentz [0; 1; 2] [0; 1; 0] None
                    [1; 1] eq_refl I)).
    discriminate.
Defined.

(** X19: the default lists with [npeak=2] are replicated. *)
Lemma multipeakfit_records_normalized_witness :
  exists pinfo,
    multipeakfit_setup 2 default_lists = inr pinfo /\
    forall w, map (record_field w) pinfo = list_times (get_list w default_lists) 2.
Proof.
  destruct (@multipeakfit_records_normalized float _ 2 default_lists
              ltac:(right; left; reflexivity)) as (pinfo & Hp & Hall).
  exists pinfo. split; [exact Hp|].
  intros w. rewrite Hall. destruct w; reflexivity.
Defined.

(** X20: the cube with a peak raises, the cube without signal gives one
    pixel of nan in each of the four maps. *)
Lemma collapse_peakfit_never_fits_witness :
  (exists e,
     collapse_peakfit median mpfit_first_call lorentz peaked_cube None false true 1 1
       false params4 fixed4 limitedmin4 limitedmax4 limits4 limits4 true true
     = inl e) /\
  collapse_peakfit median mpfit_first_call lorentz flat_cube None false true 1 1
    false params4 fixed4 limitedmin4 limitedmax4 limits4 limits4 true true
  = inr (repeat (nan_map 1 1) 4).
Proof.
  split.
  - apply (proj1 (proj2 (@collapse_peakfit_never_fits float _ _ median
                           mpfit_first_call lorentz peaked_cube None false true 1 1
                           false params4 fixed4 limitedmin4 limitedmax4 limits4
                           limits4 true true
                           (@mpfit_first_call_propagates float _ _)))).
    { discriminate. }
    exists 0%nat, 0%nat. split; [cbn; lia|]. split; [cbn; lia|].
    vm_compute. reflexivity.
  - apply (proj2 (proj2 (@collapse_peakfit_never_fits float _ _ median
                           mpfit_first_call lorentz flat_cube None false true 1 1
                           false params4 fixed4 limitedmin4 limitedmax4 limits4
                           limits4 true true
                           (@mpfit_first_call_propagates float _ _)))).
    { discriminate. }
    intros [|i] [|j] Hi Hj; cbn in Hi, Hj; try lia. vm_compute. reflexivity.
Defined.


(** X23 on the 2 x 2 image: a fit that ends with cost 3 and no degree of
    freedom. *)
Lemma drivers_report_chi_square_witness :
  exists ft,
    peakfit (moments_giving []) (solver_returning no_degrees_of_freedom) lorentz2d image
      None [0; 1; 0; 0; 1; 1] true false false fixed7 limitedmin7 limitedmax7 []
      minpars7 maxpars7 false true true true false
    = inr (ReturnMp ft, None) /\
    chi2 ft = 3 /\
    chi2n ft = reported_chi2n NumPyScalars 3 0.
Proof.
  destruct (drivers_report_chi_square
              (moments_giving []) (solver_returning no_degrees_of_freedom) no_rotpeak
              lorentz2d image 0 0 None [0; 1; 0; 0; 1; 1] false false fixed7
              limitedmin7 limitedmax7 [] minpars7 maxpars7 0 2 true false
              false true true no_degrees_of_freedom eq_refl
              ltac:(intros Hwrap; discriminate Hwrap)) as (Hpeak & _).
  apply (Hpeak (match peakfit_setup (moments_giving []) image [0; 1; 0; 0; 1; 1]
                        false fixed7 limitedmin7 limitedmax7 []
                        minpars7 maxpars7 false true with
                | inr pinfo => pinfo
                | inl _ => []
                end)).
  - vm_compute. reflexivity.
  - reflexivity.
Defined.

End Witnesses.
